(** * markup.py: a shallow embedding of the text-to-HTML converter

    The converter is an ordered cascade of [re.sub] passes over the whole
    document, with a vault of preserved fragments ([preserved_blobs]) that
    is resolved by [str.format] at the very end.

    Conventions of the embedding.
    - A Python [str] is a [string]; its characters are the code points
      0..255 (the [ascii] type), compared by [ord].
    - The global list [preserved_blobs] is threaded explicitly: a computation
      of type [M A] takes the vault and returns a value and the new vault,
      or raises.
    - [open(path).read()] is the environment [fs], a partial map from paths
      to the text read; [to_html], which also writes, returns the map it
      leaves.
    - The library functions the program calls ([re.sub], [str.strip],
      [str.splitlines], [str.translate], [str.format], ...) are modelled
      next to the program, each on what the program can hand to it. *)

From Stdlib Require Import Ascii String NArith Lia Bool.
From Stdlib Require Import DecimalString DecimalPos DecimalN.
From stdpp Require Import base list gmap strings.

(** String concatenation unfolds under [simpl] on a literal prefix. *)
Arguments String.append !_ _ / : simpl nomatch.

(** ** Characters *)

Definition ord (c : ascii) : N := N_of_ascii c.
Definition chr (n : N) : ascii := ascii_of_N n.

Definition nl : ascii := "010".
Definition dq : ascii := "034".
Definition NL : string := String nl "".
Definition DQ : string := String dq "".

Definition between (lo hi : N) (c : ascii) : bool :=
  ((lo <=? ord c) && (ord c <=? hi))%N.

(** [str.isspace] on one code point below 256: the characters [strip]
    removes and the regular-expression escape [\s] accepts. *)
Definition is_space (c : ascii) : bool :=
  between 9 13 c || between 28 32 c || (ord c =? 133)%N || (ord c =? 160)%N.

(** The line boundaries of [str.splitlines] below 256. *)
Definition is_linebreak (c : ascii) : bool :=
  between 10 13 c || between 28 30 c || (ord c =? 133)%N.

Definition is_digit (c : ascii) : bool := between 48 57 c.
Definition is_ascii_lower (c : ascii) : bool := between 97 122 c.
Definition is_ascii_upper (c : ascii) : bool := between 65 90 c.

(** [c.lower()] and [c.upper()] on one code point below 256 whose image
    stays below 256. *)
Definition lower_char (c : ascii) : ascii :=
  if is_ascii_upper c || (between 192 222 c && negb (ord c =? 215)%N)
  then chr (ord c + 32) else c.

Definition upper_char (c : ascii) : ascii :=
  if is_ascii_lower c || (between 224 254 c && negb (ord c =? 247)%N)
  then chr (ord c - 32) else c.

(** ** Strings *)

Fixpoint str_all (p : ascii -> bool) (s : string) : bool :=
  match s with
  | EmptyString => true
  | String c s' => p c && str_all p s'
  end.

Fixpoint str_map (f : ascii -> ascii) (s : string) : string :=
  match s with
  | EmptyString => EmptyString
  | String c s' => String (f c) (str_map f s')
  end.

Fixpoint rev_onto (s acc : string) : string :=
  match s with
  | EmptyString => acc
  | String c s' => rev_onto s' (String c acc)
  end.

Definition str_rev (s : string) : string := rev_onto s "".

Fixpoint take (n : nat) (s : string) : string :=
  match n, s with
  | S n', String c s' => String c (take n' s')
  | _, _ => EmptyString
  end.

Fixpoint drop (n : nat) (s : string) : string :=
  match n, s with
  | S n', String c s' => drop n' s'
  | _, _ => s
  end.

Fixpoint startswith (p s : string) : bool :=
  match p, s with
  | EmptyString, _ => true
  | String a p', String b s' => Ascii.eqb a b && startswith p' s'
  | String _ _, EmptyString => false
  end.

(** [s.endswith(p)] and its tuple form [s.endswith((p1, ..., pn))]. *)
Definition endswith (p s : string) : bool :=
  startswith (str_rev p) (str_rev s).

Definition endswith_any (ps : list string) (s : string) : bool :=
  existsb (fun p => endswith p s) ps.

Definition startswith_any (ps : list string) (s : string) : bool :=
  existsb (fun p => startswith p s) ps.

Definition lower (s : string) : string := str_map lower_char s.

Fixpoint lstrip (s : string) : string :=
  match s with
  | String c s' => if is_space c then lstrip s' else s
  | EmptyString => EmptyString
  end.

Fixpoint rstrip (s : string) : string :=
  match s with
  | String c s' =>
      match rstrip s' with
      | EmptyString => if is_space c then EmptyString else String c EmptyString
      | r => String c r
      end
  | EmptyString => EmptyString
  end.

Definition strip (s : string) : string := rstrip (lstrip s).

(** [s.splitlines()]: [cur] is the line being read, reversed; [\r\n] is one
    boundary; no empty last line is produced. *)
Fixpoint splitlines_from (cur : string) (s : string) : list string :=
  match s with
  | EmptyString =>
      match cur with EmptyString => [] | _ => [str_rev cur] end
  | String c s' =>
      if is_linebreak c then
        match s' with
        | String c' s'' =>
            if Ascii.eqb c "013" && Ascii.eqb c' nl
            then str_rev cur :: splitlines_from "" s''
            else str_rev cur :: splitlines_from "" s'
        | EmptyString => [str_rev cur]
        end
      else splitlines_from (String c cur) s'
  end.

Definition splitlines (s : string) : list string := splitlines_from "" s.

(** [s.replace(old, new)], every occurrence from the left, not overlapping;
    [skip] counts the characters of an occurrence still to be passed. *)
Fixpoint replace_from (old new : string) (skip : nat) (s : string) : string :=
  match skip with
  | S n =>
      match s with
      | String _ s' => replace_from old new n s'
      | EmptyString => EmptyString
      end
  | O =>
      if startswith old s then
        match s with
        | String c s' =>
            match String.length old with
            | O => new +:+ String c (replace_from old new 0 s')
            | S n => new +:+ replace_from old new n s'
            end
        | EmptyString => new
        end
      else
        match s with
        | String c s' => String c (replace_from old new 0 s')
        | EmptyString => EmptyString
        end
  end.

Definition replace (old new s : string) : string := replace_from old new 0 s.

(** [str(n)] and ["%s" % n] for a natural number. *)
Definition str_of_nat (n : nat) : string :=
  NilZero.string_of_uint (N.to_uint (N.of_nat n)).

(** ** Exceptions and the vault monad *)

Inductive value_error : Type :=
| MaxOfEmpty            (* max() of an empty sequence *)
| SingleCloseBrace      (* Single '}' encountered in format string *)
| SingleOpenBrace       (* Single '{' encountered in format string *)
| UnexpectedOpenBrace   (* unexpected '{' in field name *)
| ExpectedCloseBrace    (* expected '}' before end of string *)
| ConversionAtEnd       (* end of string while looking for conversion specifier *)
| ExpectedColon         (* expected ':' after conversion specifier *)
| UnmatchedInSpec       (* unmatched '{' in format spec *)
| UnknownConversion     (* Unknown conversion specifier *)
| TooManyDigits         (* Too many decimal digits in format string *)
| SwitchNumbering.      (* cannot switch between manual and automatic numbering *)

Inductive exn : Type :=
| RuntimeError (msg : string)
| ValueError (why : value_error)
| IndexError (index : nat)
| KeyError (key : string)
| FileNotFoundError (path : string)
| TypeError.

(** The outcome of a run: a value, a Python exception, or [Beyond] when the
    run reaches library behaviour this model leaves out (attribute access,
    [repr] and format specifications inside a replacement field). *)
Inductive result (A : Type) : Type :=
| Ok (a : A)
| Raise (e : exn)
| Beyond.
Arguments Ok {A} a.
Arguments Raise {A} e.
Arguments Beyond {A}.

(** A computation over the vault [preserved_blobs]. *)
Definition M (A : Type) : Type := list string -> result (A * list string).

Definition ret {A} (a : A) : M A := fun blobs => Ok (a, blobs).
Definition raise {A} (e : exn) : M A := fun _ => Raise e.
Definition bind {A B} (m : M A) (f : A -> M B) : M B :=
  fun blobs =>
    match m blobs with
    | Ok (a, blobs') => f a blobs'
    | Raise e => Raise e
    | Beyond => Beyond
    end.

Notation "x <- m ;; k" := (bind m (fun x => k))
  (at level 100, m at next level, right associativity).

(** ** Regular expressions

    The fragment of Python's [re] syntax the rule table uses.  Every
    quantifier of the table is applied to a single character or class, so
    [Rep] repeats a class.  [Behind w r] is the look-behind [(?<=r)] whose
    body has the fixed width [w]. *)

Inductive re : Type :=
| Emp
| Cls (p : ascii -> bool)
| Rep (greedy : bool) (lo : nat) (hi : option nat) (p : ascii -> bool)
| Seq (r1 r2 : re)
| Alt (r1 r2 : re)
| Grp (n : nat) (r : re)
| Ref (n : nat)
| Behind (w : nat) (r : re)
| Ahead (r : re).

Declare Scope re_scope.
Delimit Scope re_scope with re.
Bind Scope re_scope with re.
Infix "·" := Seq (at level 40, left associativity) : re_scope.

(** Classes and escapes. *)
Definition is_char (c : ascii) : ascii -> bool := Ascii.eqb c.
Definition not_char (c : ascii) : ascii -> bool := fun x => negb (Ascii.eqb c x).
Definition one_of (s : string) : ascii -> bool :=
  fun x => negb (str_all (not_char x) s).
Definition non_space : ascii -> bool := fun x => negb (is_space x).
Definition dot : ascii -> bool := not_char nl.                (* [.] *)
Definition anything : ascii -> bool :=                     (* [[\S\s]] *)
  fun x => non_space x || is_space x.

Definition Chr (c : ascii) : re := Cls (is_char c).

(** A run of literal characters. *)
Fixpoint Lit (s : string) : re :=
  match s with
  | EmptyString => Emp
  | String c EmptyString => Chr c
  | String c s' => Seq (Chr c) (Lit s')
  end.

(** Quantifiers: [x+], [x+?], [x*], [x?], [x{n}], [x{n,}]. *)
Definition plus (p : ascii -> bool) : re := Rep true 1 None p.
Definition plus_lazy (p : ascii -> bool) : re := Rep false 1 None p.
Definition star (p : ascii -> bool) : re := Rep true 0 None p.
Definition opt (p : ascii -> bool) : re := Rep true 0 (Some 1) p.
Definition exactly (n : nat) (p : ascii -> bool) : re := Rep true n (Some n) p.
Definition at_least (n : nat) (p : ascii -> bool) : re := Rep true n None p.

(** ** The backtracking matcher

    A match state is the text left of the cursor (reversed), the text right
    of it, and the groups captured so far; group [0] is the whole match. *)

Record mstate : Type := MState {
  before : string;
  rest : string;
  groups : list (option string)
}.

Definition set_group (n : nat) (s : string) (st : mstate) : mstate :=
  MState (before st) (rest st) (<[n := Some s]> (groups st)).

(** The text read between two states of one attempt. *)
Definition consumed (st0 st1 : mstate) : string :=
  take (String.length (rest st0) - String.length (rest st1)) (rest st0).

Definition more_allowed (hi : option nat) : bool :=
  match hi with Some O => false | _ => true end.

(** [p{lo,hi}] followed by the continuation [k]: the greedy form tries one
    more character before it tries to stop, the lazy form the reverse. *)
Fixpoint rep {A} (greedy : bool) (p : ascii -> bool) (lo : nat)
    (hi : option nat) (k : string -> string -> option A)
    (bef s : string) {struct s} : option A :=
  if greedy then
    match
      match s with
      | String c s' =>
          if p c && more_allowed hi
          then rep greedy p (pred lo) (pred <$> hi) k (String c bef) s'
          else None
      | EmptyString => None
      end
    with
    | Some x => Some x
    | None => match lo with O => k bef s | S _ => None end
    end
  else
    match
      match lo with O => k bef s | S _ => None end
    with
    | Some x => Some x
    | None =>
        match s with
        | String c s' =>
            if p c && more_allowed hi
            then rep greedy p (pred lo) (pred <$> hi) k (String c bef) s'
            else None
        | EmptyString => None
        end
    end.

(** Step the cursor [w] characters back. *)
Fixpoint unread (w : nat) (bef rst : string) : option (string * string) :=
  match w with
  | O => Some (bef, rst)
  | S w' =>
      match bef with
      | String c bef' => unread w' bef' (String c rst)
      | EmptyString => None
      end
  end.

Fixpoint go (r : re) (st : mstate) (k : mstate -> option mstate)
    {struct r} : option mstate :=
  match r with
  | Emp => k st
  | Cls p =>
      match rest st with
      | String c s' =>
          if p c then k (MState (String c (before st)) s' (groups st))
          else None
      | EmptyString => None
      end
  | Rep greedy lo hi p =>
      rep greedy p lo hi (fun b s => k (MState b s (groups st)))
          (before st) (rest st)
  | Seq r1 r2 => go r1 st (fun st1 => go r2 st1 k)
  | Alt r1 r2 =>
      match go r1 st k with
      | Some x => Some x
      | None => go r2 st k
      end
  | Grp n r1 => go r1 st (fun st1 => k (set_group n (consumed st st1) st1))
  | Ref n =>
      match groups st !! n with
      | Some (Some g) =>
          if startswith g (rest st)
          then k (MState (rev_onto g (before st))
                         (drop (String.length g) (rest st)) (groups st))
          else None
      | _ => None
      end
  | Behind w r1 =>
      match unread w (before st) (rest st) with
      | Some (b, s) =>
          match go r1 (MState b s (groups st)) Some with
          | Some st1 => k (MState (before st) (rest st) (groups st1))
          | None => None
          end
      | None => None
      end
  | Ahead r1 =>
      match go r1 st Some with
      | Some st1 => k (MState (before st) (rest st) (groups st1))
      | None => None
      end
  end.

(** The number of groups of a pattern. *)
Fixpoint ngroups (r : re) : nat :=
  match r with
  | Emp | Cls _ | Rep _ _ _ _ | Ref _ => 0
  | Seq r1 r2 | Alt r1 r2 => Nat.max (ngroups r1) (ngroups r2)
  | Grp n r1 => Nat.max n (ngroups r1)
  | Behind _ r1 | Ahead r1 => ngroups r1
  end.

(** One attempt at the cursor: the groups of the match, group 0 included,
    and the text that follows it. *)
Definition match_at (r : re) (bef rst : string)
  : option (list (option string) * string) :=
  let st0 := MState bef rst (replicate (S (ngroups r)) None) in
  match go r st0 Some with
  | Some st1 => Some (groups (set_group 0 (consumed st0 st1) st1), rest st1)
  | None => None
  end.

(** ** [re.sub]

    The replacement is a template or a function of the match.  The scan
    goes left to right over the original text; [skip] counts the characters
    of the last match still to be passed.  A match of length 0 is replaced
    and the character under the cursor copied; no pattern of the rule table
    has one (see [rules_consume]). *)

(** A template: [\1] ... [\9] stand for the groups, a group that took no
    part in the match for the empty string.  The templates of the program
    contain no other escape. *)
Definition digit_val (c : ascii) : nat := N.to_nat (ord c - 48).

Definition group (n : nat) (gs : list (option string)) : option string :=
  default None (gs !! n).

Fixpoint expand (tpl : string) (gs : list (option string)) : string :=
  match tpl with
  | String c tpl' =>
      if Ascii.eqb c "\" then
        match tpl' with
        | String d tpl'' =>
            if is_digit d
            then default "" (group (digit_val d) gs) +:+ expand tpl'' gs
            else String c (expand tpl' gs)
        | EmptyString => String c EmptyString
        end
      else String c (expand tpl' gs)
  | EmptyString => EmptyString
  end.

Inductive repl : Type :=
| Template (tpl : string)
| Function (f : list (option string) -> M string).

Definition apply_repl (rp : repl) (gs : list (option string)) : M string :=
  match rp with
  | Template tpl => ret (expand tpl gs)
  | Function f => f gs
  end.

Fixpoint sub_from (r : re) (rp : repl) (skip : nat) (bef rst : string)
    {struct rst} : M string :=
  match skip with
  | S n =>
      match rst with
      | String c rst' => sub_from r rp n (String c bef) rst'
      | EmptyString => ret ""
      end
  | O =>
      match match_at r bef rst with
      | Some (gs, rst1) =>
          new <- apply_repl rp gs;;
          match rst with
          | String c rst' =>
              match String.length rst - String.length rst1 with
              | O =>
                  out <- sub_from r rp 0 (String c bef) rst';;
                  ret (new +:+ String c out)
              | S n =>
                  out <- sub_from r rp n (String c bef) rst';;
                  ret (new +:+ out)
              end
          | EmptyString => ret new
          end
      | None =>
          match rst with
          | String c rst' =>
              out <- sub_from r rp 0 (String c bef) rst';;
              ret (String c out)
          | EmptyString => ret ""
          end
      end
  end.

Definition sub (r : re) (rp : repl) (s : string) : M string :=
  sub_from r rp 0 "" s.

(** ** [str.format] with positional arguments

    The format string is read left to right; [mode] is the place of the
    reader inside a replacement field.  Names are accumulated reversed. *)

Definition PY_SSIZE_T_MAX : N := 9223372036854775807.

(** [get_integer]: the index a field name denotes, [None] when the name is
    empty or has a character that is no decimal digit. *)
Fixpoint get_integer_from (acc : N) (s : string) : result (option N) :=
  match s with
  | EmptyString => Ok (Some acc)
  | String c s' =>
      if is_digit c then
        let d := (ord c - 48)%N in
        if ((PY_SSIZE_T_MAX - d) / 10 <? acc)%N
        then Raise (ValueError TooManyDigits)
        else get_integer_from (acc * 10 + d)%N s'
      else Ok None
  end.

Definition get_integer (s : string) : result (option N) :=
  match s with
  | EmptyString => Ok None
  | _ => get_integer_from 0 s
  end.

(** [field_name_split]: the part before the first [.] or [[], and what
    follows it. *)
Fixpoint field_name_split (s : string) : string * string :=
  match s with
  | EmptyString => (EmptyString, EmptyString)
  | String c s' =>
      if Ascii.eqb c "." || Ascii.eqb c "[" then (EmptyString, s)
      else let '(first, others) := field_name_split s' in
           (String c first, others)
  end.

Inductive numbering : Type :=
| ANS_INIT
| ANS_AUTO (next : nat)
| ANS_MANUAL.

(** [output_markup]: look the field up, convert it, format it. *)
Definition output_markup (name : string) (conv : option ascii)
    (spec : string) (an : numbering) (args : list string)
  : result (string * numbering) :=
  let '(first, others) := field_name_split name in
  match get_integer first with
  | Raise e => Raise e
  | Beyond => Beyond
  | Ok idx =>
      let located : result (option nat * numbering) :=
        match idx, first with
        | Some i, _ =>
            match an with
            | ANS_AUTO _ => Raise (ValueError SwitchNumbering)
            | _ => Ok (Some (N.to_nat i), ANS_MANUAL)
            end
        | None, EmptyString =>
            match an with
            | ANS_MANUAL => Raise (ValueError SwitchNumbering)
            | ANS_AUTO next => Ok (Some next, ANS_AUTO (S next))
            | ANS_INIT => Ok (Some 0, ANS_AUTO 1)
            end
        | None, _ => Ok (None, an)
        end in
      match located with
      | Raise e => Raise e
      | Beyond => Beyond
      | Ok (None, _) => Raise (KeyError first)
      | Ok (Some i, an') =>
          match args !! i with
          | None => Raise (IndexError i)
          | Some obj =>
              match others with
              | String _ _ => Beyond
              | EmptyString =>
                  let converted : result string :=
                    match conv with
                    | None => Ok obj
                    | Some c =>
                        if Ascii.eqb c "000" || Ascii.eqb c "s" then Ok obj
                        else if Ascii.eqb c "r" || Ascii.eqb c "a" then Beyond
                        else Raise (ValueError UnknownConversion)
                    end in
                  match converted, spec with
                  | Ok out, EmptyString => Ok (out, an')
                  | Ok _, String _ _ => Beyond
                  | Raise e, _ => Raise e
                  | Beyond, _ => Beyond
                  end
              end
          end
      end
  end.

Inductive mode : Type :=
| Text
| FieldName (name : string) (bracket : bool)
| Conversion (name : string)
| AfterConversion (name : string) (conv : ascii)
| FormatSpec (name : string) (conv : option ascii) (spec : string)
    (depth : nat).

Definition prepend (out : string) (r : result string) : result string :=
  match r with
  | Ok s => Ok (out +:+ s)
  | other => other
  end.

Fixpoint build_string (args : list string) (md : mode) (an : numbering)
    (s : string) {struct s} : result string :=
  let field name conv spec s' :=
    match output_markup (str_rev name) conv (str_rev spec) an args with
    | Ok (out, an') => prepend out (build_string args Text an' s')
    | Raise e => Raise e
    | Beyond => Beyond
    end in
  match md, s with
  | Text, EmptyString => Ok EmptyString
  | Text, String c s' =>
      if Ascii.eqb c "{" then
        match s' with
        | EmptyString => Raise (ValueError SingleOpenBrace)
        | String c' s'' =>
            if Ascii.eqb c' "{"
            then prepend "{" (build_string args Text an s'')
            else build_string args (FieldName "" false) an s'
        end
      else if Ascii.eqb c "}" then
        match s' with
        | EmptyString => Raise (ValueError SingleCloseBrace)
        | String c' s'' =>
            if Ascii.eqb c' "}"
            then prepend "}" (build_string args Text an s'')
            else Raise (ValueError SingleCloseBrace)
        end
      else prepend (String c "") (build_string args Text an s')
  | FieldName _ _, EmptyString => Raise (ValueError ExpectedCloseBrace)
  | FieldName name true, String c s' =>
      build_string args (FieldName (String c name) (negb (Ascii.eqb c "]")))
        an s'
  | FieldName name false, String c s' =>
      if Ascii.eqb c "{" then Raise (ValueError UnexpectedOpenBrace)
      else if Ascii.eqb c "[" then
        build_string args (FieldName (String c name) true) an s'
      else if Ascii.eqb c "}" then field name None EmptyString s'
      else if Ascii.eqb c ":" then
        build_string args (FormatSpec name None "" 1) an s'
      else if Ascii.eqb c "!" then build_string args (Conversion name) an s'
      else build_string args (FieldName (String c name) false) an s'
  | Conversion _, EmptyString => Raise (ValueError ConversionAtEnd)
  | Conversion name, String c s' =>
      build_string args (AfterConversion name c) an s'
  | AfterConversion _ _, EmptyString => Raise (ValueError UnmatchedInSpec)
  | AfterConversion name conv, String c s' =>
      if Ascii.eqb c "}" then field name (Some conv) EmptyString s'
      else if Ascii.eqb c ":" then
        build_string args (FormatSpec name (Some conv) "" 1) an s'
      else Raise (ValueError ExpectedColon)
  | FormatSpec _ _ _ _, EmptyString => Raise (ValueError UnmatchedInSpec)
  | FormatSpec name conv spec depth, String c s' =>
      if Ascii.eqb c "{" then
        build_string args (FormatSpec name conv (String c spec) (S depth))
          an s'
      else if Ascii.eqb c "}" then
        match depth with
        | 1 => field name conv spec s'
        | _ =>
            build_string args
              (FormatSpec name conv (String c spec) (pred depth)) an s'
        end
      else build_string args (FormatSpec name conv (String c spec) depth)
             an s'
  end.

(** [s.format( *args )]. *)
Definition format (s : string) (args : list string) : result string :=
  build_string args Text ANS_INIT s.

(** * The program *)

(** ** The slugifier translator

    [slugify] is a [defaultdict(str)] keyed by code point: a key that was
    never stored reads as the empty string. *)

Fixpoint str_fold {A} (f : A -> ascii -> A) (a : A) (s : string) : A :=
  match s with
  | EmptyString => a
  | String c s' => str_fold f (f a c) s'
  end.

Definition ascii_lowercase : string := "abcdefghijklmnopqrstuvwxyz".
Definition digits : string := "0123456789".

Definition slugify : gmap N string :=
  let separators :=
    str_fold (fun t c => <[ord c := "-"]> t) (∅ : gmap N string) "_- /" in
  str_fold
    (fun t c =>
       <[ord (upper_char c) := String c ""]> (<[ord c := String c ""]> t))
    separators (ascii_lowercase +:+ digits).

(** [text.translate(table)]. *)
Fixpoint translate (table : gmap N string) (text : string) : string :=
  match text with
  | EmptyString => EmptyString
  | String c text' => default "" (table !! ord c) +:+ translate table text'
  end.

(** ** Simple replacements *)

Definition code : string := "<code>\1</code>".
Definition strike : string := "<del>\1</del>".
Definition underline : string := "<u>\1</u>".
Definition italics : string := "<i>\1</i>".
Definition bold : string := "<b>\1</b>".
Definition thematic_break : string := "<hr/>".
Definition quote : string := "<blockquote>\1</blockquote>".
Definition date : string :=
  "<span class=" +:+ DQ +:+ "date" +:+ DQ +:+ ">\1</span>".
Definition em_dash : string := "&mdash;".
Definition anchor : string :=
  "<a href=" +:+ DQ +:+ "\1" +:+ DQ +:+ ">\1</a>".
Definition reference : string :=
  "<a href=" +:+ DQ +:+ "\2" +:+ DQ +:+ ">\1</a>".
Definition note_text : string :=
  "<a id=" +:+ DQ +:+ "\1text" +:+ DQ +:+ " href=" +:+ DQ +:+ "#\1foot"
  +:+ DQ +:+ ">&#91;\1&#93;</a>".
Definition note_foot : string :=
  "<a id=" +:+ DQ +:+ "\1foot" +:+ DQ +:+ " href=" +:+ DQ +:+ "#\1text"
  +:+ DQ +:+ ">&#91;\1&#93;</a>".

(** ** The vault *)

Definition preserve (blob : string) : M string :=
  fun preserved_blobs =>
    let preserved_blobs := preserved_blobs ++ [blob] in
    Ok ("{" +:+ str_of_nat (length preserved_blobs - 1) +:+ "}",
        preserved_blobs).

(** ** Replacement functions

    A function receives the groups of the match, group 0 first;
    [match.groups()] is the list without group 0.  Every group of every
    pattern of the table takes part in every match, so the functions read
    set groups; an unset one would be a [TypeError]. *)

Definition match_groups (gs : list (option string)) : list (option string) :=
  tail gs.

Definition str_eqb (a b : string) : bool := String.eqb a b.

Definition blockquote (gs : list (option string)) : M string :=
  match match_groups gs with
  | [Some before; Some text; Some after] =>
      let pre := if str_eqb before NL then NL +:+ "<blockquote>" else "" in
      let post :=
        if str_eqb after NL then "</blockquote>" else NL +:+ "<br/>" in
      ret (pre +:+ text +:+ post)
  | _ => raise TypeError
  end.

Fixpoint max_list (l : list nat) : option nat :=
  match l with
  | [] => None
  | x :: l' =>
      match max_list l' with
      | None => Some x
      | Some y => Some (Nat.max x y)
      end
  end.

(** [tpl % (n, m, code)] *)
Definition tpl (n m : nat) (code : string) : string :=
  "<textarea class=" +:+ DQ +:+ "codearea" +:+ DQ +:+ " rows=" +:+ DQ
  +:+ str_of_nat n +:+ DQ +:+ " cols=" +:+ DQ +:+ str_of_nat m +:+ DQ
  +:+ " readonly>" +:+ code +:+ "</textarea>".

Definition codearea (gs : list (option string)) : M string :=
  match group 1 gs with
  | Some g =>
      let code := strip g in
      let n := length (splitlines code) in
      match max_list (String.length <$> splitlines code) with
      | None => raise (ValueError MaxOfEmpty)
      | Some width =>
          let m := width + 1 in
          let blob := tpl n m code in
          preserve blob
      end
  | None => raise TypeError
  end.

Definition description (gs : list (option string)) : M string :=
  match match_groups gs with
  | [Some term; Some inner] =>
      let inner := replace (NL +:+ "    ") NL inner in
      ret ("<dt>" +:+ term +:+ "</dt>" +:+ NL +:+ "<dd>" +:+ NL +:+ inner
           +:+ NL +:+ "</dd>")
  | _ => raise TypeError
  end.

Section Program.

(** [fs path] is what [open(path).read()] returns, [None] when the file
    cannot be opened. *)
Variable fs : string -> option string.

Definition image_suffixes : list string := ["png"; "jpg"; "jpeg"; "gif"; "svg"].
Definition source_suffixes : list string := ["py"; "js"].

Definition inline (gs : list (option string)) : M string :=
  match match_groups gs with
  | [Some title; Some src] =>
      if endswith_any image_suffixes (lower src) then
        ret ("<img src=" +:+ DQ +:+ src +:+ DQ +:+ " title=" +:+ DQ
             +:+ title +:+ DQ +:+ "/>")
      else if endswith_any source_suffixes (lower src) then
        match fs src with
        | Some content =>
            match match_at (Grp 1 (star anything)) "" content with
            | Some (gs', _) => codearea gs'
            | None => raise TypeError
            end
        | None => raise (FileNotFoundError src)
        end
      else raise (RuntimeError ("Cannot inline <" +:+ src +:+ ">"))
  | _ => raise TypeError
  end.

Definition heading (gs : list (option string)) : M string :=
  match match_groups gs with
  | [Some hashes; Some text] =>
      let slug := translate slugify text in
      let n := str_of_nat (String.length hashes) in
      ret ("<h" +:+ n +:+ " id=" +:+ DQ +:+ slug +:+ DQ +:+ ">" +:+ text
           +:+ "</h" +:+ n +:+ ">")
  | _ => raise TypeError
  end.

Definition ordered_list_item (gs : list (option string)) : M string :=
  match match_groups gs with
  | [Some before; Some text; Some after] =>
      let ol := if str_eqb before NL then NL +:+ "<ol>" +:+ NL else "" in
      let lo := if str_eqb after NL then "</ol>" else "" in
      ret (ol +:+ "<li>" +:+ text +:+ "</li>" +:+ NL +:+ lo)
  | _ => raise TypeError
  end.

Definition paragraph (gs : list (option string)) : M string :=
  match match_groups gs with
  | [Some line] =>
      if startswith_any ["<"; "{"] line then ret line
      else ret ("<p>" +:+ line +:+ "</p>")
  | _ => raise TypeError
  end.

Definition unordered_list_item (gs : list (option string)) : M string :=
  match match_groups gs with
  | [Some before; Some text; Some after] =>
      let ul := if str_eqb before NL then NL +:+ "<ul>" +:+ NL else "" in
      let lu := if str_eqb after NL then "</ul>" else "" in
      ret (ul +:+ "<li>" +:+ text +:+ "</li>" +:+ NL +:+ lu)
  | _ => raise TypeError
  end.

Definition verbatim (gs : list (option string)) : M string :=
  match match_groups gs with
  | [Some tag; Some content] =>
      let blob := "<" +:+ tag +:+ content +:+ "</" +:+ tag +:+ ">" in
      preserve blob
  | _ => raise TypeError
  end.

(** ** The rule table, in the order of the source

    A rule keeps the pattern as the source writes it ([fragment]) next to
    its syntax tree ([pattern]). *)

Record rule : Type := Rule {
  fragment : string;
  pattern : re;
  replacement : repl
}.

Local Open Scope re_scope.

(** One character of any kind, captured as group [n]. *)
Definition any_as (n : nat) : re := Grp n (Alt (Cls is_space) (Cls non_space)).

(** A verbatim region: the tag, the content, the closing tag by
    back-reference. *)
Definition verbatim_re (tag : string) : re :=
  Chr "<" · Grp 1 (Lit tag) · Grp 2 (plus_lazy anything) · Lit "</" · Ref 1
  · Chr ">".

(** A line of a block: the character before the newline as group 1, the
    marker, the text as group 2, the character after the next newline as
    group 3. *)
Definition block_line_re (marker : re) : re :=
  Behind 1 (any_as 1) · Chr nl · marker · Grp 2 (plus dot)
  · Ahead (Chr nl · any_as 3).

(** An inline span between two markers. *)
Definition span_re (opening closing : string) : re :=
  Lit opening · Grp 1 (plus_lazy dot) · Lit closing.

Definition codearea_re : re :=
  Lit "```" · Grp 1 (plus_lazy anything) · Lit "```".
Definition description_re : re :=
  Behind 1 (Chr nl) · Grp 1 (plus (not_char nl)) · Chr ":" · Chr nl
  · Lit "    " · Grp 2 (plus_lazy anything) · Ahead (Chr nl · Chr nl).
Definition blockquote_re : re :=
  block_line_re (at_least 4 (is_char " ")).
Definition unordered_re : re :=
  block_line_re (Cls (one_of "-*") · Chr " ").
Definition ordered_re : re :=
  block_line_re (plus is_digit · Cls (one_of ")") · Chr " ").
Definition inline_re : re :=
  Lit "![" · Grp 1 (star (not_char "]")) · Lit "](" · Grp 2 (plus (not_char ")"))
  · Chr ")".
Definition quote_re : re :=
  Behind 1 (Chr nl) · Lit "> " · Grp 1 (plus (not_char nl)) · Ahead (Chr nl).
Definition heading_re : re :=
  Behind 1 (Chr nl) · Grp 1 (plus (is_char "#")) · Chr " "
  · Grp 2 (plus (not_char nl)) · Ahead (Chr nl).
Definition thematic_break_re : re :=
  Behind 1 (Chr nl) · Lit "---" · Ahead (Chr nl).
Definition note_foot_re : re :=
  Chr "[" · Grp 1 (plus is_digit) · Lit "]:".
Definition note_text_re : re :=
  Chr "[" · Grp 1 (plus is_digit) · Chr "]".
Definition paragraph_re : re :=
  Behind 1 (Chr nl) · Grp 1 (plus (not_char nl)) · Ahead (Chr nl).
Definition date_re : re :=
  Behind 1 (Cls (fun c => is_space c || is_char ">" c))
  · Grp 1 (exactly 4 is_digit · Chr "/" · exactly 2 is_digit · Chr "/"
           · exactly 2 is_digit)
  · Ahead (Cls is_space).
Definition em_dash_re : re := Lit "--".
Definition anchor_re : re :=
  Chr "<" · Grp 1 (Lit "http" · opt (is_char "s") · Lit "://"
                   · plus_lazy (not_char ">"))
  · Chr ">".
Definition reference_re : re :=
  Chr "[" · Grp 1 (plus_lazy (not_char "]")) · Lit "]("
  · Grp 2 (plus_lazy (not_char ")")) · Chr ")".

Definition rules : list rule := [
  Rule "```([\S\s]+?)```" codearea_re (Function codearea);
  Rule "<(svg)([\S\s]+?)</\1>" (verbatim_re "svg") (Function verbatim);
  Rule "<(pre)([\S\s]+?)</\1>" (verbatim_re "pre") (Function verbatim);
  Rule "<(style)([\S\s]+?)</\1>" (verbatim_re "style") (Function verbatim);
  Rule "<(script)([\S\s]+?)</\1>" (verbatim_re "script") (Function verbatim);
  Rule "(?<=\n)([^\n]+):\n    ([\s\S]+?)(?=\n\n)" description_re
    (Function description);
  Rule "(?<=(\s|\S))\n {4,}(.+)(?=\n(\s|\S))" blockquote_re
    (Function blockquote);
  Rule "(?<=(\s|\S))\n[-*] (.+)(?=\n(\s|\S))" unordered_re
    (Function unordered_list_item);
  Rule "(?<=(\s|\S))\n\d+[)] (.+)(?=\n(\s|\S))" ordered_re
    (Function ordered_list_item);
  Rule "!\[([^\]]*)\]\(([^\)]+)\)" inline_re (Function inline);
  Rule "(?<=\n)> ([^\n]+)(?=\n)" quote_re (Template quote);
  Rule "(?<=\n)(#+) ([^\n]+)(?=\n)" heading_re (Function heading);
  Rule "(?<=\n)---(?=\n)" thematic_break_re (Template thematic_break);
  Rule "\[(\d+)\]:" note_foot_re (Template note_foot);
  Rule "\[(\d+)\]" note_text_re (Template note_text);
  Rule "(?<=\n)([^\n]+)(?=\n)" paragraph_re (Function paragraph);
  Rule "\*\*(.+?)\*\*" (span_re "**" "**") (Template bold);
  Rule "\*(.+?)\*" (span_re "*" "*") (Template italics);
  Rule "__(.+?)__" (span_re "__" "__") (Template underline);
  Rule "~~(.+?)~~" (span_re "~~" "~~") (Template strike);
  Rule "`(.+?)`" (span_re "`" "`") (Template code);
  Rule "(?<=[\s>])(\d{4}/\d{2}/\d{2})(?=\s)" date_re (Template date);
  Rule "--" em_dash_re (Template em_dash);
  Rule "<(https?://[^>]+?)>" anchor_re (Template anchor);
  Rule "\[([^\]]+?)\]\(([^\)]+?)\)" reference_re (Template reference)
].

(** ** [markup] *)

(** The loop [for fragment, replacement in rules: _ = re.sub(...)]. *)
Fixpoint apply_rules (rs : list rule) (doc : string) : M string :=
  match rs with
  | [] => ret doc
  | r :: rs' =>
      doc' <- sub (pattern r) (replacement r) doc;;
      apply_rules rs' doc'
  end.

Definition clear : M unit := fun _ => Ok (tt, []).

(** [_.strip().format( *preserved_blobs ) + '\n'] *)
Definition resolve (doc : string) : M string :=
  fun preserved_blobs =>
    match format (strip doc) preserved_blobs with
    | Ok out => Ok (out +:+ NL, preserved_blobs)
    | Raise e => Raise e
    | Beyond => Beyond
    end.

Definition markup (text : string) : M string :=
  _ <- clear;;
  doc <- apply_rules rules (NL +:+ text +:+ NL);;
  resolve doc.

End Program.

(** A run of [markup] from a vault left by an earlier call, keeping the
    text only. *)
Definition run {A} (m : M A) (preserved_blobs : list string) : result A :=
  match m preserved_blobs with
  | Ok (a, _) => Ok a
  | Raise e => Raise e
  | Beyond => Beyond
  end.

Definition no_files : string -> option string := fun _ => None.

(** ** [to_html]

    The files are a store from paths to contents.  [open(path)] fails on a
    path the store does not have; [open(path, "w")] leaves the file empty
    until it is written, and is outside the model on a path that cannot be
    created ([creatable]).  The [assert] statements are executed (the
    interpreter does not run with [-O]).  The vault the call leaves behind
    is not part of the result. *)

Inductive outcome : Type :=
| Returned
| AssertionError (msg : string)
| Exception (e : exn)
| Unmodelled.

(** The store after [path] has been given the content [content]. *)
Definition write (path content : string) (fs : string -> option string)
  : string -> option string :=
  fun p => if str_eqb p path then Some content else fs p.

Definition to_html (fs : string -> option string) (creatable : string -> bool)
    (tpath mpath hpath : string) (preserved_blobs : list string)
  : outcome * (string -> option string) :=
  if negb (endswith ".tpl" tpath)
  then (AssertionError "1st arg should be a template file", fs)
  else if negb (endswith ".md" mpath)
  then (AssertionError "2nd arg should be a markdown-ish file", fs)
  else if negb (endswith ".html" hpath)
  then (AssertionError "3rd arg should be HTML path output", fs)
  else
    match fs tpath with
    | None => (Exception (FileNotFoundError tpath), fs)
    | Some _ =>
        match fs mpath with
        | None => (Exception (FileNotFoundError mpath), fs)
        | Some _ =>
            if negb (creatable hpath) then (Unmodelled, fs)
            else
              let fs := write hpath "" fs in
              match fs mpath with
              | None => (Unmodelled, fs)
              | Some text =>
                  match run (markup fs text) preserved_blobs with
                  | Raise e => (Exception e, fs)
                  | Beyond => (Unmodelled, fs)
                  | Ok html =>
                      match fs tpath with
                      | None => (Unmodelled, fs)
                      | Some template =>
                          match format template [html] with
                          | Raise e => (Exception e, fs)
                          | Beyond => (Unmodelled, fs)
                          | Ok page => (Returned, write hpath page fs)
                          end
                      end
                  end
              end
        end
    end.

(** * The claims restated from the specification's words

    Definitions used only to state what a claim says where the program
    does something else. *)

(** The slug of one character as the specification words it: every
    whitespace character becomes a hyphen. *)
Definition slug_char_claimed (c : ascii) : string :=
  if is_ascii_upper c then String (lower_char c) ""
  else if is_ascii_lower c || is_digit c then String c ""
  else if is_space c || one_of "-_/" c then "-"
  else "".

Fixpoint str_flat_map (f : ascii -> string) (s : string) : string :=
  match s with
  | EmptyString => EmptyString
  | String c s' => f c +:+ str_flat_map f s'
  end.

(** The slug of one character as the program computes it: of the
    whitespace characters only the space becomes a hyphen. *)
Definition slug_char (c : ascii) : string :=
  if is_ascii_upper c then String (lower_char c) ""
  else if is_ascii_lower c || is_digit c then String c ""
  else if one_of "_- /" c then "-"
  else "".

(** The extension of a path: what follows its last dot. *)
Fixpoint after_last_dot (path : string) : option string :=
  match path with
  | EmptyString => None
  | String c path' =>
      match after_last_dot path' with
      | Some e => Some e
      | None => if Ascii.eqb c "." then Some path' else None
      end
  end.

Definition extension (path : string) : string :=
  default "" (after_last_dot path).

Definition extension_in (set : list string) (path : string) : bool :=
  existsb (str_eqb (lower (extension path))) set.

(** [needle in haystack] and [haystack.count(needle)]. *)
Fixpoint contains (needle haystack : string) : bool :=
  startswith needle haystack ||
  match haystack with
  | EmptyString => false
  | String _ h' => contains needle h'
  end.

Fixpoint count_from (needle : string) (skip : nat) (h : string) : nat :=
  match skip, h with
  | S n, String _ h' => count_from needle n h'
  | S _, EmptyString => 0
  | O, EmptyString => if startswith needle "" then 1 else 0
  | O, String _ h' =>
      if startswith needle h
      then S (count_from needle (pred (String.length needle)) h')
      else count_from needle 0 h'
  end.

Definition count (needle haystack : string) : nat :=
  count_from needle 0 haystack.

Definition img_tag (src title : string) : string :=
  "<img src=" +:+ DQ +:+ src +:+ DQ +:+ " title=" +:+ DQ +:+ title +:+ DQ
  +:+ "/>".

(** The value of a numeral read left to right from [acc]. *)
Fixpoint uint_value (acc : N) (d : Decimal.uint) : N :=
  match d with
  | Decimal.Nil => acc
  | Decimal.D0 d => uint_value (acc * 10 + 0) d
  | Decimal.D1 d => uint_value (acc * 10 + 1) d
  | Decimal.D2 d => uint_value (acc * 10 + 2) d
  | Decimal.D3 d => uint_value (acc * 10 + 3) d
  | Decimal.D4 d => uint_value (acc * 10 + 4) d
  | Decimal.D5 d => uint_value (acc * 10 + 5) d
  | Decimal.D6 d => uint_value (acc * 10 + 6) d
  | Decimal.D7 d => uint_value (acc * 10 + 7) d
  | Decimal.D8 d => uint_value (acc * 10 + 8) d
  | Decimal.D9 d => uint_value (acc * 10 + 9) d
  end%N.

(** The characters a field name takes in as they come. *)
Definition field_name_char (c : ascii) : bool :=
  negb (Ascii.eqb c "{" || Ascii.eqb c "[" || Ascii.eqb c "}"
        || Ascii.eqb c ":" || Ascii.eqb c "!").

(** The characters that do not end the first part of a field name. *)
Definition index_char (c : ascii) : bool :=
  negb (Ascii.eqb c "." || Ascii.eqb c "[").

Definition is_brace (c : ascii) : bool := Ascii.eqb c "{" || Ascii.eqb c "}".

(** What a completed field contributes, and the rest of the text after
    it. *)
Definition after_field (args : list string) (name : string)
    (an : numbering) (rest : string) : result string :=
  match output_markup name None "" an args with
  | Ok (out, an') => prepend out (build_string args Text an' rest)
  | Raise e => Raise e
  | Beyond => Beyond
  end.

(** Every character. *)
Definition all_ascii : list ascii := ascii_of_nat <$> seq 0 256.

(** * Reasoning about the matcher

    [steps r st st'] says that [r] can take the matcher from [st] to [st']:
    the declarative reading of a pattern, without the order in which the
    backtracking matcher tries the alternatives. *)
Fixpoint steps (r : re) (st st' : mstate) : Prop :=
  match r with
  | Emp => st' = st
  | Cls p =>
      exists c s, rest st = String c s /\ p c = true
        /\ st' = MState (String c (before st)) s (groups st)
  | Rep _ lo hi p =>
      exists m, str_all p m = true /\ lo <= String.length m
        /\ match hi with Some h => String.length m <= h | None => True end
        /\ rest st = m +:+ rest st'
        /\ before st' = rev_onto m (before st)
        /\ groups st' = groups st
  | Seq r1 r2 => exists mid, steps r1 st mid /\ steps r2 mid st'
  | Alt r1 r2 => steps r1 st st' \/ steps r2 st st'
  | Grp n r1 =>
      exists st1, steps r1 st st1 /\ st' = set_group n (consumed st st1) st1
  | Ref n =>
      exists g, groups st !! n = Some (Some g)
        /\ rest st = g +:+ rest st'
        /\ before st' = rev_onto g (before st)
        /\ groups st' = groups st
  | Behind w r1 =>
      exists b s st1, unread w (before st) (rest st) = Some (b, s)
        /\ steps r1 (MState b s (groups st)) st1
        /\ st' = MState (before st) (rest st) (groups st1)
  | Ahead r1 =>
      exists st1, steps r1 st st1
        /\ st' = MState (before st) (rest st) (groups st1)
  end.

(** The number of times [c] occurs in [s]. *)
Fixpoint count_char (c : ascii) (s : string) : nat :=
  match s with
  | EmptyString => 0
  | String x s' => (if Ascii.eqb x c then 1 else 0) + count_char c s'
  end.

(** [only p c]: the class [p] accepts no character but [c]. *)
Definition only (p : ascii -> bool) (c : ascii) : bool :=
  forallb (fun x => implb (p x) (Ascii.eqb x c)) all_ascii.

(** A lower bound on the occurrences of [c] in the text a match of [r]
    reads: [eats] inside the match, [needs] with the look-ahead that ends
    the pattern. *)
Fixpoint eats (c : ascii) (r : re) : nat :=
  match r with
  | Emp | Ref _ | Behind _ _ | Ahead _ => 0
  | Cls p => if only p c then 1 else 0
  | Rep _ lo _ p => if only p c then lo else 0
  | Seq r1 r2 => eats c r1 + eats c r2
  | Alt r1 r2 => Nat.min (eats c r1) (eats c r2)
  | Grp _ r1 => eats c r1
  end.

Fixpoint needs (c : ascii) (r : re) : nat :=
  match r with
  | Seq r1 r2 => eats c r1 + needs c r2
  | Alt r1 r2 => Nat.min (needs c r1) (needs c r2)
  | Grp _ r1 | Ahead r1 => needs c r1
  | _ => eats c r
  end.

(** No attempt succeeds at a cursor inside [pre], read in front of
    [suf]. *)
Fixpoint no_match_in (r : re) (bef pre suf : string) : Prop :=
  match pre with
  | EmptyString => True
  | String c pre' =>
      match_at r bef (String c pre' +:+ suf) = None
      /\ no_match_in r (String c bef) pre' suf
  end.

(** [empty_ok r]: a match of [r] may read nothing; [first r c]: a match
    that reads something may read [c] first. *)
Fixpoint empty_ok (r : re) : bool :=
  match r with
  | Emp | Ref _ | Behind _ _ | Ahead _ => true
  | Cls _ => false
  | Rep _ lo _ _ => Nat.eqb lo 0
  | Seq r1 r2 => empty_ok r1 && empty_ok r2
  | Alt r1 r2 => empty_ok r1 || empty_ok r2
  | Grp _ r1 => empty_ok r1
  end.

Fixpoint first (r : re) (c : ascii) : bool :=
  match r with
  | Emp | Behind _ _ | Ahead _ => false
  | Ref _ => true
  | Cls p | Rep _ _ _ p => p c
  | Seq r1 r2 => first r1 c || (empty_ok r1 && first r2 c)
  | Alt r1 r2 => first r1 c || first r2 c
  | Grp _ r1 => first r1 c
  end.

(** The text right of the cursor ends a greedy repetition of [p]. *)
Definition stops (p : ascii -> bool) (rst : string) : Prop :=
  match rst with
  | String c _ => p c = false
  | EmptyString => True
  end.

(** The groups of the matches [re.sub] visits, in order: the walk of
    [sub_from] without the replacements. *)
Fixpoint finditer_from (r : re) (skip : nat) (bef rst : string)
    {struct rst} : list (list (option string)) :=
  match skip with
  | S n =>
      match rst with
      | String c rst' => finditer_from r n (String c bef) rst'
      | EmptyString => []
      end
  | O =>
      match match_at r bef rst with
      | Some (gs, rst1) =>
          gs ::
          match rst with
          | String c rst' =>
              finditer_from r
                (pred (String.length rst - String.length rst1))
                (String c bef) rst'
          | EmptyString => []
          end
      | None =>
          match rst with
          | String c rst' => finditer_from r 0 (String c bef) rst'
          | EmptyString => []
          end
      end
  end.

Definition finditer (r : re) (s : string) : list (list (option string)) :=
  finditer_from r 0 "" s.

(** The rendered code container of a fenced block. *)
Definition code_container (code : string) : string :=
  tpl (length (splitlines code))
      (default 0 (max_list (String.length <$> splitlines code)) + 1) code.



(** Characters with no meaning for any rule: anything but the markers the
    patterns start from, the digits, the braces and the newline. *)
Definition plain (c : ascii) : bool :=
  negb (one_of "`<>:!#-[*_~{}" c) && negb (is_digit c)
  && negb (Ascii.eqb c nl).

(** The lines of a document, each with its newline. *)
Fixpoint unlines (ls : list string) : string :=
  match ls with
  | [] => ""
  | l :: ls' => l +:+ NL +:+ unlines ls'
  end.

(** What the paragraph rule makes of one line. *)
Definition par_line (l : string) : string :=
  match l with
  | "" => ""
  | _ => if startswith_any ["<"; "{"] l then l else "<p>" +:+ l +:+ "</p>"
  end.

(** An anchor of a footnote as the two note templates write it. *)
Definition note_anchor (id href label : string) : string :=
  "<a id=" +:+ DQ +:+ id +:+ DQ +:+ " href=" +:+ DQ +:+ href +:+ DQ
  +:+ ">&#91;" +:+ label +:+ "&#93;</a>".

(** [sep.join(ls)]. *)
Fixpoint join (sep : string) (ls : list string) : string :=
  match ls with
  | [] => ""
  | [l] => l
  | l :: ls' => l +:+ sep +:+ join sep ls'
  end.

(** A line of ordinary characters that does not start with a space. *)
Definition text_line (l : string) : bool :=
  str_all plain l && negb (startswith " " l).

(** A line in its paragraph element; an empty line stays empty. *)
Definition wrapped (l : string) : string :=
  match l with
  | "" => ""
  | _ => "<p>" +:+ l +:+ "</p>"
  end.

(** The class a pattern asks of the character before the match, when it
    starts with a look-behind of one character. *)
Fixpoint guard (r : re) : ascii -> bool :=
  match r with
  | Seq r1 _ => guard r1
  | Behind 1 (Cls p) => p
  | _ => fun _ => true
  end.

(** The lines of a block as the document has them, each after its newline:
    a marker and a text. *)
Fixpoint block_src (items : list (string * string)) : string :=
  match items with
  | [] => ""
  | (mk, t) :: items' => NL +:+ mk +:+ t +:+ block_src items'
  end.

(** What a block rule makes of them, when its function gives
    [render first text last] for a line: [first] says that the line before
    is empty, [last] that the line after is. *)
Fixpoint block_out (render : bool -> string -> bool -> string) (first : bool)
    (items : list (string * string)) : string :=
  match items with
  | [] => ""
  | (_, t) :: items' =>
      render first t (match items' with [] => true | _ => false end)
      +:+ block_out render false items'
  end.

(** What the two list rules write for an item line: [first] opens the list
    of the given tag, [last] closes it. *)
Definition render_list (tag : string) (first : bool) (text : string)
    (last : bool) : string :=
  (if first then NL +:+ "<" +:+ tag +:+ ">" +:+ NL else "")
  +:+ "<li>" +:+ text +:+ "</li>" +:+ NL
  +:+ (if last then "</" +:+ tag +:+ ">" else "").

(** The element of one item. *)
Definition list_item (text : string) : string := "<li>" +:+ text +:+ "</li>".

(** What the block-quotation rule writes for an indented line. *)
Definition render_quote (first : bool) (text : string) (last : bool)
  : string :=
  (if first then NL +:+ "<blockquote>" else "") +:+ text
  +:+ (if last then "</blockquote>" else NL +:+ "<br/>").

(** The lines of a block quotation: the first opens the element, each of
    the others starts with a line break, the last closes the element. *)
Fixpoint quote_lines (first : bool) (texts : list string) : list string :=
  match texts with
  | [] => []
  | t :: texts' =>
      let opening := if first then "<blockquote>" else "<br/>" in
      match texts' with
      | [] => opening +:+ t +:+ "</blockquote>"
      | _ => opening +:+ t
      end :: quote_lines false texts'
  end.

(** * Proofs *)

(** ** Characters and strings *)

Lemma forall_ascii (P : ascii -> bool) :
  forallb P all_ascii = true -> forall c, P c = true.
Proof.
  intros H c. rewrite forallb_forall in H. apply H.
  rewrite <- (ascii_nat_embedding c). unfold all_ascii.
  apply in_map, in_seq. pose proof (nat_ascii_bounded c). lia.
Qed.

Lemma str_app_nil_r (s : string) : s +:+ "" = s.
Proof. induction s as [|c s IH]; simpl; [done | by rewrite IH]. Qed.

Lemma str_app_assoc (a b c : string) : (a +:+ b) +:+ c = a +:+ (b +:+ c).
Proof. induction a as [|x a IH]; simpl; [done | by rewrite IH]. Qed.

Lemma str_length_app (a b : string) :
  String.length (a +:+ b) = String.length a + String.length b.
Proof. induction a as [|x a IH]; simpl; [done | by rewrite IH]. Qed.

Lemma rev_onto_app (a b acc : string) :
  rev_onto (a +:+ b) acc = rev_onto b (rev_onto a acc).
Proof. revert acc. induction a as [|x a IH]; intros acc; simpl; [done | apply IH]. Qed.

Lemma rev_onto_acc (a acc : string) : rev_onto a acc = str_rev a +:+ acc.
Proof.
  unfold str_rev. revert acc.
  induction a as [|x a IH]; intros acc; simpl; [done |].
  rewrite (IH (String x acc)), (IH (String x "")), str_app_assoc. done.
Qed.

Lemma str_rev_app (a b : string) : str_rev (a +:+ b) = str_rev b +:+ str_rev a.
Proof. unfold str_rev. rewrite rev_onto_app, rev_onto_acc. done. Qed.

Lemma str_rev_involutive (s : string) : str_rev (str_rev s) = s.
Proof.
  induction s as [|c s IH]; [done |].
  change (String c s) with (String c "" +:+ s) at 1.
  rewrite str_rev_app, str_rev_app, IH. done.
Qed.

Lemma rev_onto_rev (s acc : string) : str_rev (rev_onto s acc) = str_rev acc +:+ s.
Proof. rewrite rev_onto_acc, str_rev_app, str_rev_involutive. done. Qed.

Lemma take_app_length (m s : string) :
  take (String.length (m +:+ s) - String.length s) (m +:+ s) = m.
Proof.
  rewrite str_length_app.
  replace (String.length m + String.length s - String.length s)
    with (String.length m) by lia.
  induction m as [|c m IH]; simpl; [by destruct s | by rewrite IH].
Qed.

Lemma startswith_app (p s : string) : startswith p (p +:+ s) = true.
Proof.
  induction p as [|c p IH]; simpl; [done |].
  rewrite Ascii.eqb_refl. done.
Qed.

Lemma startswith_spec (p s : string) :
  startswith p s = true <-> exists t, s = p +:+ t.
Proof.
  split.
  - revert s. induction p as [|c p IH]; intros s H; simpl in *.
    + by exists s.
    + destruct s as [|d s]; [done |].
      apply andb_true_iff in H as [Hc Hp]. apply Ascii.eqb_eq in Hc as ->.
      destruct (IH _ Hp) as [t ->]. by exists t.
  - intros [t ->]. apply startswith_app.
Qed.

Lemma str_all_app (p : ascii -> bool) (a b : string) :
  str_all p (a +:+ b) = str_all p a && str_all p b.
Proof. induction a as [|x a IH]; simpl; [done | by rewrite IH, andb_assoc]. Qed.

(** ** The slugifier *)

Lemma slugify_lookup (c : ascii) : default "" (slugify !! ord c) = slug_char c.
Proof.
  apply String.eqb_eq.
  refine (forall_ascii
    (fun c => String.eqb (default "" (slugify !! ord c)) (slug_char c)) _ c).
  vm_compute. reflexivity.
Qed.

Lemma translate_slugify (text : string) :
  translate slugify text = str_flat_map slug_char text.
Proof.
  induction text as [|c text IH]; cbn [translate str_flat_map]; [done |].
  by rewrite slugify_lookup, IH.
Qed.

(** ** The inline resource resolver *)

Lemma preserve_token (blob : string) (blobs : list string) :
  preserve blob blobs
  = Ok ("{" +:+ str_of_nat (length blobs) +:+ "}", blobs ++ [blob]).
Proof.
  unfold preserve. rewrite List.length_app. cbn [length].
  by replace (length blobs + 1 - 1) with (length blobs) by lia.
Qed.

Lemma codearea_token gs blobs out blobs' :
  codearea gs blobs = Ok (out, blobs') -> startswith "{" out = true.
Proof.
  unfold codearea. destruct (group 1 gs); [| done].
  destruct (max_list _); [| done].
  rewrite preserve_token. intros [= <- <-]. done.
Qed.

Lemma inline_image fs g0 title src blobs :
  endswith_any image_suffixes (lower src) = true ->
  inline fs [g0; Some title; Some src] blobs = Ok (img_tag src title, blobs).
Proof. intros H. unfold inline. cbn [match_groups tail]. by rewrite H. Qed.

Lemma inline_not_image fs g0 title src blobs out blobs' :
  endswith_any image_suffixes (lower src) = false ->
  inline fs [g0; Some title; Some src] blobs = Ok (out, blobs') ->
  startswith "{" out = true.
Proof.
  intros H. unfold inline. cbn [match_groups tail]. rewrite H.
  destruct (endswith_any source_suffixes (lower src)); [| done].
  destruct (fs src); [| done].
  destruct (match_at _ _ _) as [[gs' ?]|]; [| done].
  apply codearea_token.
Qed.

Lemma inline_unsupported fs g0 title src blobs :
  endswith_any image_suffixes (lower src) = false ->
  endswith_any source_suffixes (lower src) = false ->
  inline fs [g0; Some title; Some src] blobs
  = Raise (RuntimeError ("Cannot inline <" +:+ src +:+ ">")).
Proof.
  intros Hi Hs. unfold inline. cbn [match_groups tail]. by rewrite Hi, Hs.
Qed.

(** ** Decimal numerals *)

Lemma uint_value_revapp (d a : Decimal.uint) :
  uint_value (Unsigned.of_lu a) d = Unsigned.of_lu (Decimal.revapp d a).
Proof.
  revert a. induction d; intros a; cbn [uint_value Decimal.revapp]; [done | ..];
    rewrite <- IHd; f_equal; cbn [Unsigned.of_lu Unsigned.hd Unsigned.tl]; lia.
Qed.

Lemma uint_value_of_uint (d : Decimal.uint) : uint_value 0 d = N.of_uint d.
Proof.
  change 0%N with (Unsigned.of_lu Decimal.Nil).
  rewrite uint_value_revapp. unfold N.of_uint. by rewrite Unsigned.of_uint_alt.
Qed.

Lemma uint_value_ge (d : Decimal.uint) (acc : N) : (acc <= uint_value acc d)%N.
Proof.
  revert acc. induction d; intros acc; cbn [uint_value]; [lia | ..];
    (etrans; [| apply IHd]); lia.
Qed.

Lemma overflow_check (acc k : N) :
  (k <= 9)%N ->
  ((PY_SSIZE_T_MAX - k) / 10 <? acc)%N
  = negb (acc * 10 + k <=? PY_SSIZE_T_MAX)%N.
Proof.
  unfold PY_SSIZE_T_MAX. intros Hk.
  pose proof (N.div_mod (9223372036854775807 - k) 10 ltac:(lia)) as Hdm.
  pose proof (N.mod_lt (9223372036854775807 - k) 10 ltac:(lia)) as Hm.
  destruct (N.ltb_spec ((9223372036854775807 - k) / 10) acc) as [H|H],
    (N.leb_spec (acc * 10 + k) 9223372036854775807) as [H0|H0];
    try done; exfalso; revert Hdm Hm H H0;
    generalize ((9223372036854775807 - k) `mod` 10)%N;
    generalize ((9223372036854775807 - k) `div` 10)%N; intros; lia.
Qed.

Lemma get_integer_from_digit (c : ascii) (s : string) (acc : N) :
  is_digit c = true ->
  get_integer_from acc (String c s)
  = if (acc * 10 + (ord c - 48) <=? PY_SSIZE_T_MAX)%N
    then get_integer_from (acc * 10 + (ord c - 48)) s
    else Raise (ValueError TooManyDigits).
Proof.
  intros Hd. cbn [get_integer_from]. rewrite Hd.
  assert (ord c - 48 <= 9)%N as Hk.
  { unfold is_digit, between in Hd. apply andb_true_iff in Hd as [_ Hd].
    apply N.leb_le in Hd. lia. }
  rewrite overflow_check by done.
  by destruct (_ <=? _)%N.
Qed.

Lemma get_integer_from_numeral (d : Decimal.uint) (acc : N) :
  get_integer_from acc (NilEmpty.string_of_uint d)
  = if (uint_value acc d <=? PY_SSIZE_T_MAX)%N
    then Ok (Some (uint_value acc d))
    else
      if (acc <=? PY_SSIZE_T_MAX)%N then Raise (ValueError TooManyDigits)
      else get_integer_from acc (NilEmpty.string_of_uint d).
Proof.
  destruct (N.leb_spec acc PY_SSIZE_T_MAX) as [Hacc|Hacc].
  2: { pose proof (uint_value_ge d acc).
       destruct (N.leb_spec (uint_value acc d) PY_SSIZE_T_MAX); [lia | done]. }
  revert acc Hacc.
  induction d; intros acc Hacc;
    cbn [NilEmpty.string_of_uint uint_value].
  1: { cbn [get_integer_from].
       by destruct (N.leb_spec acc PY_SSIZE_T_MAX); [| lia]. }
  all: rewrite get_integer_from_digit by done;
    change (ord _ - 48)%N with 0%N || change (ord _ - 48)%N with 1%N
    || change (ord _ - 48)%N with 2%N || change (ord _ - 48)%N with 3%N
    || change (ord _ - 48)%N with 4%N || change (ord _ - 48)%N with 5%N
    || change (ord _ - 48)%N with 6%N || change (ord _ - 48)%N with 7%N
    || change (ord _ - 48)%N with 8%N || change (ord _ - 48)%N with 9%N;
    match goal with
    | |- context [uint_value ?a ?d'] =>
        pose proof (uint_value_ge d' a);
        destruct (N.leb_spec a PY_SSIZE_T_MAX) as [Ha|Ha];
        [ rewrite (IHd a Ha); done
        | destruct (N.leb_spec (uint_value a d') PY_SSIZE_T_MAX); [lia | done] ]
    end.
Qed.

Lemma str_of_nat_numeral (n : nat) :
  str_of_nat n = NilEmpty.string_of_uint (N.to_uint (N.of_nat n))
  /\ str_of_nat n <> "".
Proof.
  unfold str_of_nat, NilZero.string_of_uint.
  destruct (N.to_uint (N.of_nat n)) eqn:E; try done.
  exfalso. destruct (N.of_nat n); [done |].
  by apply (Unsigned.to_uint_nonnil p).
Qed.

(** The index a decimal numeral denotes as a field name. *)
Lemma get_integer_str_of_nat (n : nat) :
  get_integer (str_of_nat n)
  = if (N.of_nat n <=? PY_SSIZE_T_MAX)%N
    then Ok (Some (N.of_nat n))
    else Raise (ValueError TooManyDigits).
Proof.
  destruct (str_of_nat_numeral n) as [E Hne].
  unfold get_integer. destruct (str_of_nat n) eqn:E'; [done |].
  rewrite E, get_integer_from_numeral, uint_value_of_uint.
  rewrite DecimalN.Unsigned.of_to.
  by destruct (N.leb_spec (N.of_nat n) PY_SSIZE_T_MAX).
Qed.

(** ** Resolution of placeholders by [str.format] *)

Lemma field_name_split_whole (w : string) :
  str_all index_char w = true -> field_name_split w = (w, "").
Proof.
  induction w as [|c w IH]; cbn [str_all field_name_split]; [done |].
  intros [Hc Hw]%andb_true_iff. unfold index_char in Hc.
  apply negb_true_iff in Hc. rewrite Hc, (IH Hw). done.
Qed.

Lemma build_string_field_name args an (w acc rest : string) :
  str_all field_name_char w = true ->
  build_string args (FieldName acc false) an (w +:+ String "}" rest)
  = after_field args (str_rev (rev_onto w acc)) an rest.
Proof.
  revert acc. induction w as [|c w IH]; intros acc Hw.
  - reflexivity.
  - cbn [str_all] in Hw. apply andb_true_iff in Hw as [Hc Hw].
    unfold field_name_char in Hc. apply negb_true_iff in Hc.
    repeat (apply orb_false_iff in Hc as [Hc ?]).
    cbn [String.append build_string rev_onto].
    rewrite Hc, H, H0, H1, H2. apply IH, Hw.
Qed.

Lemma build_string_open_field args an (c : ascii) (s : string) :
  Ascii.eqb c "{" = false ->
  build_string args Text an (String "{" (String c s))
  = build_string args (FieldName "" false) an (String c s).
Proof. intros H. cbn [build_string]. by rewrite Ascii.eqb_refl, H. Qed.

Lemma build_string_text args an (c : ascii) (s : string) :
  is_brace c = false ->
  build_string args Text an (String c s)
  = prepend (String c "") (build_string args Text an s).
Proof.
  unfold is_brace. intros [H1 H2]%orb_false_iff.
  cbn [build_string]. by rewrite H1, H2.
Qed.

Lemma prepend_prepend (a b : string) (r : result string) :
  prepend a (prepend b r) = prepend (a +:+ b) r.
Proof. destruct r; cbn [prepend]; by rewrite ?str_app_assoc. Qed.

Lemma prepend_empty (r : result string) : prepend "" r = r.
Proof. by destruct r. Qed.

(** Text without braces is copied. *)
Lemma build_string_plain args an (pre s : string) :
  str_all (fun c => negb (is_brace c)) pre = true ->
  build_string args Text an (pre +:+ s)
  = prepend pre (build_string args Text an s).
Proof.
  induction pre as [|c pre IH]; cbn [str_all String.append]; intros H.
  - by rewrite prepend_empty.
  - apply andb_true_iff in H as [Hc H]. apply negb_true_iff in Hc.
    rewrite build_string_text, (IH H), prepend_prepend by done. done.
Qed.




(** *** Index tokens *)

Lemma numeral_digits (d : Decimal.uint) :
  str_all is_digit (NilEmpty.string_of_uint d) = true.
Proof. induction d; cbn [NilEmpty.string_of_uint str_all]; [done | ..]; by rewrite IHd. Qed.

Lemma str_of_nat_digits (n : nat) : str_all is_digit (str_of_nat n) = true.
Proof. destruct (str_of_nat_numeral n) as [-> _]. apply numeral_digits. Qed.

Lemma str_all_impl (p q : ascii -> bool) (s : string) :
  (forall c, p c = true -> q c = true) ->
  str_all p s = true -> str_all q s = true.
Proof.
  intros Hpq. induction s as [|c s IH]; cbn [str_all]; [done |].
  intros [Hc Hs]%andb_true_iff. by rewrite (Hpq c Hc), (IH Hs).
Qed.

Lemma digit_plain (c : ascii) :
  is_digit c = true ->
  field_name_char c = true /\ index_char c = true /\ is_brace c = false.
Proof.
  intros H.
  assert (implb (is_digit c)
            (field_name_char c && index_char c && negb (is_brace c)) = true)
    as Hc.
  { refine (forall_ascii (fun c => implb (is_digit c)
      (field_name_char c && index_char c && negb (is_brace c))) _ c).
    vm_compute. reflexivity. }
  rewrite H in Hc. cbn [implb] in Hc.
  apply andb_true_iff in Hc as [[? ?]%andb_true_iff ?%negb_true_iff]. done.
Qed.

(** The field [{i}] looks up the [i]-th argument. *)
Lemma output_markup_index args an (i : nat) :
  output_markup (str_of_nat i) None "" an args
  = if (N.of_nat i <=? PY_SSIZE_T_MAX)%N then
      match an with
      | ANS_AUTO _ => Raise (ValueError SwitchNumbering)
      | _ =>
          match args !! i with
          | Some obj => Ok (obj, ANS_MANUAL)
          | None => Raise (IndexError i)
          end
      end
    else Raise (ValueError TooManyDigits).
Proof.
  unfold output_markup.
  rewrite field_name_split_whole
    by (eapply str_all_impl, str_of_nat_digits; intros c Hc;
        by apply digit_plain).
  rewrite get_integer_str_of_nat.
  destruct (N.of_nat i <=? PY_SSIZE_T_MAX)%N; [| done].
  rewrite Nat2N.id. destruct an; try done; by destruct (args !! i).
Qed.

Lemma build_string_token args an (i : nat) (rest : string) :
  build_string args Text an ("{" +:+ str_of_nat i +:+ "}" +:+ rest)
  = after_field args (str_of_nat i) an rest.
Proof.
  pose proof (str_of_nat_digits i) as Hd.
  destruct (str_of_nat_numeral i) as [_ Hne].
  cbn [String.append].
  destruct (str_of_nat i) as [|c w] eqn:E; [done |].
  cbn [String.append]. rewrite build_string_open_field.
  2: { cbn [str_all] in Hd. apply andb_true_iff in Hd as [Hc _].
       apply digit_plain in Hc as (_ & _ & Hb). unfold is_brace in Hb.
       by apply orb_false_iff in Hb as [? _]. }
  change (String c (w +:+ String "}" rest))
    with (String c w +:+ String "}" rest).
  rewrite build_string_field_name.
  2: { eapply str_all_impl, Hd. intros x Hx. by apply digit_plain. }
  by rewrite rev_onto_rev.
Qed.

(** ** The matcher *)

Lemma rep_sound {A} greedy p (k : string -> string -> option A) :
  forall s lo hi bef res,
    rep greedy p lo hi k bef s = Some res ->
    exists m s', s = m +:+ s' /\ str_all p m = true
      /\ lo <= String.length m
      /\ match hi with Some h => String.length m <= h | None => True end
      /\ k (rev_onto m bef) s' = Some res.
Proof.
  induction s as [|c s IH]; intros lo hi bef res H.
  - exists "", "". assert (lo = 0 /\ k bef "" = Some res) as [-> Hk].
    { destruct greedy, lo; cbn in H; try done. by destruct (k bef ""). }
    repeat split; try done. destruct hi; [cbn; lia | done].
  - assert ((lo = 0 /\ k bef (String c s) = Some res)
            \/ (p c && more_allowed hi = true
                /\ rep greedy p (pred lo) (pred <$> hi) k (String c bef) s
                   = Some res)) as [[-> Hk]|[Hc Hr]].
    { cbn [rep] in H. destruct greedy.
      - destruct (p c && more_allowed hi).
        + destruct (rep true p _ _ k _ s) eqn:E; [right; by injection H as ->|].
          left. by destruct lo.
        + left. by destruct lo.
      - destruct lo; [| destruct (p c && more_allowed hi); [by right | done]].
        destruct (k bef (String c s)) eqn:E; [left; by injection H as -> |].
        destruct (p c && more_allowed hi); [by right | done]. }
    + exists "", (String c s). repeat split; try done. destruct hi; [cbn; lia | done].
    + apply andb_true_iff in Hc as [Hc Hhi].
      destruct (IH _ _ _ _ Hr) as (m & s' & -> & Hm & Hlo & Hh & Hk).
      exists (String c m), s'. cbn [str_all String.length rev_onto].
      rewrite Hc, Hm. repeat split; try done; [lia |].
      destruct hi as [[|h]|]; cbn in *; try done. lia.
Qed.

Lemma go_sound (r : re) :
  forall st k res,
    go r st k = Some res -> exists st', steps r st st' /\ k st' = Some res.
Proof.
  induction r as [|p|greedy lo hi p|r1 IH1 r2 IH2|r1 IH1 r2 IH2|n r1 IH1|n
                  |w r1 IH1|r1 IH1]; intros st k res H; cbn [go steps] in *.
  - eauto.
  - destruct (rest st) as [|c s] eqn:E; [done |].
    destruct (p c) eqn:Hc; [| done]. eauto 10.
  - apply rep_sound in H as (m & s' & E & Hm & Hlo & Hhi & Hk).
    exists (MState (rev_onto m (before st)) s' (groups st)). split; [| done].
    exists m. by repeat split.
  - apply IH1 in H as (mid & H1 & H). apply IH2 in H as (st' & H2 & H). eauto.
  - destruct (go r1 st k) eqn:E.
    + injection H as ->. apply IH1 in E as (st' & ? & ?). eauto.
    + apply IH2 in H as (st' & ? & ?). eauto.
  - apply IH1 in H as (st1 & ? & ?). eauto.
  - destruct (groups st !! n) as [[g|]|] eqn:E; try done.
    destruct (startswith g (rest st)) eqn:Hg; [| done].
    apply startswith_spec in Hg as [t Ht].
    eexists. split; [| exact H]. exists g. cbn. rewrite Ht.
    repeat split. f_equal.
    clear. induction g as [|c g IHg]; cbn; [by destruct t | done].
  - destruct (unread w (before st) (rest st)) as [[b s]|] eqn:E; [| done].
    destruct (go r1 (MState b s (groups st)) Some) as [st1|] eqn:E1; [| done].
    apply IH1 in E1 as (st1' & ? & [= ->]). eauto 10.
  - destruct (go r1 st Some) as [st1|] eqn:E1; [| done].
    apply IH1 in E1 as (st1' & ? & [= ->]). eauto 10.
Qed.

Lemma only_spec (p : ascii -> bool) (c x : ascii) :
  only p c = true -> p x = true -> x = c.
Proof.
  unfold only. intros H Hx. rewrite forallb_forall in H.
  assert (In x all_ascii) as Hin.
  { rewrite <- (ascii_nat_embedding x). unfold all_ascii.
    apply in_map, in_seq. pose proof (nat_ascii_bounded x). lia. }
  specialize (H x Hin). rewrite Hx in H. by apply Ascii.eqb_eq.
Qed.

Lemma count_char_app (c : ascii) (a b : string) :
  count_char c (a +:+ b) = count_char c a + count_char c b.
Proof. induction a as [|x a IH]; cbn [count_char String.append]; [done | lia]. Qed.

Lemma count_char_only (p : ascii -> bool) (c : ascii) (m : string) :
  only p c = true -> str_all p m = true -> count_char c m = String.length m.
Proof.
  intros Ho. induction m as [|x m IH]; cbn [str_all count_char String.length];
    [done |].
  intros [Hx Hm]%andb_true_iff. rewrite (only_spec _ _ _ Ho Hx), Ascii.eqb_refl.
  by rewrite (IH Hm).
Qed.

(** A match reads a stretch of the text right of the cursor, with at least
    [eats c r] occurrences of [c] in it. *)
Lemma eats_sound (c : ascii) (r : re) :
  forall st st', steps r st st' ->
    exists m, rest st = m +:+ rest st' /\ eats c r <= count_char c m.
Proof.
  induction r as [|p|greedy lo hi p|r1 IH1 r2 IH2|r1 IH1 r2 IH2|n r1 IH1|n
                  |w r1 IH1|r1 IH1]; intros st st' H; cbn [steps eats] in *.
  - subst. exists "". split; [done | cbn; lia].
  - destruct H as (x & s & E & Hx & ->). exists (String x ""). split; [done |].
    destruct (only p c) eqn:Ho; [| lia].
    rewrite (only_spec _ _ _ Ho Hx). cbn. rewrite Ascii.eqb_refl. lia.
  - destruct H as (m & Hm & Hlo & _ & E & _). exists m. split; [done |].
    destruct (only p c) eqn:Ho; [| lia]. by rewrite (count_char_only p).
  - destruct H as (mid & H1 & H2).
    destruct (IH1 _ _ H1) as (m1 & E1 & ?), (IH2 _ _ H2) as (m2 & E2 & ?).
    exists (m1 +:+ m2). rewrite str_app_assoc, <- E2, count_char_app.
    split; [done | lia].
  - destruct H as [H|H]; [apply IH1 in H | apply IH2 in H];
      destruct H as (m & ? & ?); exists m; split; try done; lia.
  - destruct H as (st1 & H & ->). apply IH1 in H as (m & ? & ?). by exists m.
  - destruct H as (g & _ & E & _). exists g. split; [done | lia].
  - destruct H as (b & s & st1 & _ & _ & ->). exists "". split; [done | lia].
  - destruct H as (st1 & _ & ->). exists "". split; [done | lia].
Qed.

(** A match needs at least [needs c r] occurrences of [c] right of the
    cursor. *)
Lemma needs_sound (c : ascii) (r : re) :
  forall st st', steps r st st' -> needs c r <= count_char c (rest st).
Proof.
  assert (forall r st st', steps r st st' ->
            eats c r <= count_char c (rest st)) as Heats.
  { intros r0 st st' H. apply (eats_sound c) in H as (m & -> & ?).
    rewrite count_char_app. lia. }
  induction r as [|p|greedy lo hi p|r1 IH1 r2 IH2|r1 IH1 r2 IH2|n r1 IH1|n
                  |w r1 IH1|r1 IH1]; intros st st' H; cbn [needs];
    try (by eapply Heats).
  - cbn [steps] in H. destruct H as (mid & H1 & H2).
    apply (eats_sound c) in H1 as (m1 & -> & ?). apply IH2 in H2.
    rewrite count_char_app. lia.
  - cbn [steps] in H. destruct H as [H|H]; [apply IH1 in H | apply IH2 in H]; lia.
  - cbn [steps] in H. destruct H as (st1 & H & _). by eapply IH1.
  - cbn [steps] in H. destruct H as (st1 & H & _). by eapply IH1.
Qed.

Lemma match_at_steps (r : re) (bef rst : string) gs rst' :
  match_at r bef rst = Some (gs, rst') ->
  exists st',
    steps r (MState bef rst (replicate (S (ngroups r)) None)) st'
    /\ rest st' = rst'.
Proof.
  unfold match_at. destruct (go r _ Some) as [st1|] eqn:E; [| done].
  apply go_sound in E as (st' & H & [= ->]). intros [= <- <-]. eauto.
Qed.

Lemma match_at_needs (c : ascii) (r : re) (bef rst : string) :
  count_char c rst < needs c r -> match_at r bef rst = None.
Proof.
  intros Hlt. destruct (match_at r bef rst) as [[gs rst']|] eqn:E; [| done].
  apply match_at_steps in E as (st' & H & _).
  apply (needs_sound c) in H. cbn in H. lia.
Qed.

(** ** [re.sub] *)

Lemma sub_from_skip r rp (m : string) :
  forall bef rst blobs,
    sub_from r rp (String.length m) bef (m +:+ rst) blobs
    = sub_from r rp 0 (rev_onto m bef) rst blobs.
Proof.
  induction m as [|c m IH]; intros bef rst blobs; [done |].
  cbn [String.length String.append rev_onto sub_from]. apply IH.
Qed.

Lemma sub_from_step r rp bef (c : ascii) rst blobs :
  match_at r bef (String c rst) = None ->
  sub_from r rp 0 bef (String c rst) blobs
  = (out <- sub_from r rp 0 (String c bef) rst;; ret (String c out)) blobs.
Proof. intros H. cbn [sub_from]. by rewrite H. Qed.

Lemma sub_from_end r rp bef blobs :
  match_at r bef "" = None -> sub_from r rp 0 bef "" blobs = Ok ("", blobs).
Proof. intros H. cbn [sub_from]. by rewrite H. Qed.

Lemma sub_from_prefix r rp (pre suf : string) :
  forall bef blobs,
    no_match_in r bef pre suf ->
    sub_from r rp 0 bef (pre +:+ suf) blobs
    = (out <- sub_from r rp 0 (rev_onto pre bef) suf;; ret (pre +:+ out))
        blobs.
Proof.
  induction pre as [|c pre IH]; intros bef blobs H.
  - cbn [String.append rev_onto]. unfold bind.
    by destruct (sub_from r rp 0 bef suf blobs) as [[]| |].
  - destruct H as [Hc H]. cbn [String.append rev_onto] in *.
    rewrite sub_from_step by done. unfold bind at 1. rewrite (IH _ _ H).
    unfold bind.
    by destruct (sub_from r rp 0 (rev_onto pre (String c bef)) suf blobs)
      as [[]| |].
Qed.

Lemma sub_from_match r rp bef (m suf : string) gs blobs :
  m <> "" ->
  match_at r bef (m +:+ suf) = Some (gs, suf) ->
  sub_from r rp 0 bef (m +:+ suf) blobs
  = (new <- apply_repl rp gs;;
     out <- sub_from r rp 0 (rev_onto m bef) suf;;
     ret (new +:+ out)) blobs.
Proof.
  intros Hm H. destruct m as [|c m]; [done |].
  cbn [String.append sub_from] in *. rewrite H.
  replace (String.length (String c (m +:+ suf)) - String.length suf)
    with (S (String.length m)) by (cbn; rewrite str_length_app; lia).
  unfold bind. destruct (apply_repl rp gs blobs) as [[new blobs']| |]; try done.
  by rewrite sub_from_skip.
Qed.

(** A pattern that needs a character the text has too few of rewrites
    nothing. *)
Lemma sub_from_id_needs (c : ascii) r rp :
  forall rst bef blobs,
    count_char c rst < needs c r ->
    sub_from r rp 0 bef rst blobs = Ok (rst, blobs).
Proof.
  induction rst as [|x rst IH]; intros bef blobs H.
  - apply sub_from_end, (match_at_needs c), H.
  - rewrite sub_from_step by apply (match_at_needs c), H.
    unfold bind. rewrite IH; [done |]. cbn [count_char] in H. lia.
Qed.

Lemma sub_id_needs (c : ascii) r rp (s : string) blobs :
  count_char c s < needs c r -> sub r rp s blobs = Ok (s, blobs).
Proof. apply sub_from_id_needs. Qed.

Lemma first_sound (r : re) :
  forall st st', steps r st st' ->
    (rest st' = rest st /\ empty_ok r = true)
    \/ (exists c s, rest st = String c s /\ first r c = true).
Proof.
  induction r as [|p|greedy lo hi p|r1 IH1 r2 IH2|r1 IH1 r2 IH2|n r1 IH1|n
                  |w r1 IH1|r1 IH1]; intros st st' H;
    cbn [steps empty_ok first] in *.
  - left. by subst.
  - destruct H as (c & s & E & Hc & ->). right. eauto.
  - destruct H as (m & Hm & Hlo & _ & E & _). destruct m as [|c m].
    + left. split; [done |]. apply Nat.eqb_eq. cbn in Hlo. lia.
    + right. exists c, (m +:+ rest st'). split; [done |].
      cbn in Hm. by apply andb_true_iff in Hm as [? _].
  - destruct H as (mid & H1 & H2).
    destruct (IH1 _ _ H1) as [[E1 Ho1]|(c & s & E & Hc)].
    + destruct (IH2 _ _ H2) as [[E2 Ho2]|(c & s & E & Hc)].
      * left. split; [congruence | by rewrite Ho1, Ho2].
      * right. exists c, s. split; [congruence |]. rewrite Ho1, Hc.
        by rewrite orb_true_r.
    + right. exists c, s. by rewrite Hc.
  - destruct H as [H|H]; [apply IH1 in H | apply IH2 in H];
      (destruct H as [[E Ho]|(c & s & E & Hc)];
       [left; split; [done | rewrite Ho; by rewrite ?orb_true_r]
       | right; exists c, s; split; [done | rewrite Hc; by rewrite ?orb_true_r]]).
  - destruct H as (st1 & H & ->). by apply IH1 in H.
  - destruct H as (g & _ & E & _). destruct g as [|c g].
    + by left.
    + right. by exists c, (g +:+ rest st').
  - destruct H as (b & s & st1 & _ & _ & ->). by left.
  - destruct H as (st1 & _ & ->). by left.
Qed.

Lemma match_at_first (r : re) (bef rst : string) :
  empty_ok r = false ->
  match rst with String c _ => first r c = false | EmptyString => True end ->
  match_at r bef rst = None.
Proof.
  intros He Hc. destruct (match_at r bef rst) as [[gs rst']|] eqn:E; [| done].
  apply match_at_steps in E as (st' & H & _).
  apply first_sound in H as [[_ Ho]|(c & s & E & Hf)]; [congruence |].
  cbn in E. subst rst. congruence.
Qed.

(** No attempt succeeds inside a stretch of characters none of which can
    start a match. *)
Lemma no_match_in_first (r : re) (pre : string) :
  forall bef suf,
    empty_ok r = false ->
    str_all (fun c => negb (first r c)) pre = true ->
    no_match_in r bef pre suf.
Proof.
  induction pre as [|c pre IH]; intros bef suf He H; cbn [no_match_in]; [done |].
  cbn [str_all] in H. apply andb_true_iff in H as [Hc H]. split.
  - apply match_at_first; [done |]. by apply negb_true_iff.
  - by apply IH.
Qed.

Lemma no_match_in_app (r : re) (a b suf : string) :
  forall bef,
    no_match_in r bef a (b +:+ suf) ->
    no_match_in r (rev_onto a bef) b suf ->
    no_match_in r bef (a +:+ b) suf.
Proof.
  induction a as [|c a IH]; intros bef Ha Hb; [done |].
  destruct Ha as [Hc Ha]. cbn [String.append no_match_in rev_onto] in *.
  rewrite str_app_assoc. split; [done | by apply IH].
Qed.

(** ** Repetitions *)

Lemma rep_greedy_max {A} p (k : string -> string -> option A) x :
  forall m lo bef rst,
    str_all p m = true -> lo <= String.length m -> stops p rst ->
    k (rev_onto m bef) rst = Some x ->
    rep true p lo None k bef (m +:+ rst) = Some x.
Proof.
  induction m as [|c m IH]; intros lo bef rst Hm Hlo Hstop Hk.
  - cbn in Hlo. assert (lo = 0) as -> by lia. cbn [String.append rev_onto] in *.
    destruct rst as [|c s]; cbn [rep]; [done |].
    cbn in Hstop. by rewrite Hstop.
  - cbn [str_all String.length] in *. apply andb_true_iff in Hm as [Hc Hm].
    cbn [String.append rep]. rewrite Hc. cbn [more_allowed andb fmap option_fmap option_map].
    rewrite (IH (pred lo) (String c bef) rst); [done | done | lia | done | done].
Qed.

Lemma rep_lazy_first {A} p (k : string -> string -> option A) x :
  forall m lo bef rst,
    str_all p m = true -> lo <= String.length m ->
    (forall m1 m2, m = m1 +:+ m2 -> m2 <> "" -> lo <= String.length m1 ->
       k (rev_onto m1 bef) (m2 +:+ rst) = None) ->
    k (rev_onto m bef) rst = Some x ->
    rep false p lo None k bef (m +:+ rst) = Some x.
Proof.
  induction m as [|c m IH]; intros lo bef rst Hm Hlo Hnone Hk.
  - cbn in Hlo. assert (lo = 0) as -> by lia. cbn [String.append rev_onto] in *.
    destruct rst as [|c s]; cbn [rep]; by rewrite Hk.
  - cbn [str_all String.length] in *. apply andb_true_iff in Hm as [Hc Hm].
    cbn [String.append rep]. rewrite Hc. cbn [more_allowed andb fmap option_fmap option_map].
    assert (match lo with 0 => k bef (String c (m +:+ rst)) | S _ => None end
            = None) as ->.
    { destruct lo; [| done]. apply (Hnone "" (String c m)); cbn; [done | done | lia]. }
    apply IH; [done | lia | | done].
    intros m1 m2 -> Hm2 Hl. apply (Hnone (String c m1) m2); [done | done |].
    cbn. lia.
Qed.

(** A run of literal characters is a prefix test. *)
Lemma go_Lit (w : string) (st : mstate) (k : mstate -> option mstate) :
  go (Lit w) st k
  = if startswith w (rest st)
    then k (MState (rev_onto w (before st)) (drop (String.length w) (rest st))
              (groups st))
    else None.
Proof.
  revert st. induction w as [|c w IH]; intros [bef rst gs].
  - cbn. by destruct rst.
  - destruct w as [|c' w].
    + cbn. destruct rst as [|x rst]; [done |]. unfold is_char.
      rewrite andb_true_r. destruct (Ascii.eqb c x) eqn:E; [| done].
      cbn. by rewrite (proj1 (Ascii.eqb_eq _ _) E).
    + change (Lit (String c (String c' w)))
        with (Seq (Chr c) (Lit (String c' w))).
      cbn [go Chr]. cbn [rest before groups].
      destruct rst as [|x rst]; [done |]. unfold is_char at 1.
      cbn [startswith]. destruct (Ascii.eqb c x) eqn:E; [| done].
      rewrite IH. cbn [rest before groups andb String.length drop rev_onto].
      by rewrite (proj1 (Ascii.eqb_eq _ _) E).
Qed.

(** A replacement function that can raise nothing but [e] raises [e] as
    soon as one match makes it raise. *)
Lemma sub_from_raises r f (e : exn) :
  forall rst skip bef,
    (forall gs, In gs (finditer_from r skip bef rst) ->
       forall blobs, f gs blobs = Raise e
                     \/ exists out blobs', f gs blobs = Ok (out, blobs')) ->
    (exists gs, In gs (finditer_from r skip bef rst)
                /\ forall blobs, f gs blobs = Raise e) ->
    forall blobs, sub_from r (Function f) skip bef rst blobs = Raise e.
Proof.
  induction rst as [|c rst IH]; intros skip bef Hall (gs & Hin & Hgs) blobs.
  - destruct skip; [| done]. cbn [finditer_from sub_from] in *.
    destruct (match_at r bef "") as [[gs' rst1]|]; [| done].
    destruct Hin as [->|[]]. cbn [apply_repl]. unfold bind. by rewrite Hgs.
  - destruct skip as [|n]; cbn [finditer_from sub_from] in *.
    2: { apply IH; eauto. }
    destruct (match_at r bef (String c rst)) as [[gs' rst1]|].
    + cbn [apply_repl]. unfold bind at 1.
      destruct Hin as [->|Hin]; [by rewrite Hgs |].
      destruct (Hall gs' (or_introl eq_refl) blobs) as [->|(out & blobs' & ->)];
        [done |].
      assert (forall gs0,
                In gs0 (finditer_from r
                          (pred (String.length (String c rst)
                                 - String.length rst1)) (String c bef) rst) ->
                forall blobs0, f gs0 blobs0 = Raise e
                  \/ exists out0 blobs0', f gs0 blobs0 = Ok (out0, blobs0'))
        as Hall' by (intros gs0 H0; apply Hall; by right).
      destruct (String.length (String c rst) - String.length rst1) as [|k];
        cbn [pred] in *; unfold bind; by rewrite IH by eauto.
    + unfold bind. by rewrite IH by eauto.
Qed.

(** ** Matches of the rule patterns *)

Lemma consumed_eq (st0 st1 : mstate) (m : string) :
  rest st0 = m +:+ rest st1 -> consumed st0 st1 = m.
Proof. unfold consumed. intros ->. apply take_app_length. Qed.

Lemma match_at_intro (r : re) (bef rst : string) (st1 : mstate) (m : string) :
  go r (MState bef rst (replicate (S (ngroups r)) None)) Some = Some st1 ->
  rst = m +:+ rest st1 ->
  match_at r bef rst = Some (<[0 := Some m]> (groups st1), rest st1).
Proof.
  intros H E. unfold match_at. rewrite H. cbn [set_group groups].
  by rewrite (consumed_eq _ _ m).
Qed.

Lemma anything_all (s : string) : str_all anything s = true.
Proof.
  induction s as [|c s IH]; cbn [str_all]; [done |]. rewrite IH.
  unfold anything, non_space. by destruct (is_space c).
Qed.

Lemma length_nonempty (s : string) : s <> "" -> 1 <= String.length s.
Proof. destruct s; [done | cbn; lia]. Qed.

Lemma codearea_match (bef c post : string) :
  c <> "" ->
  (forall m1 m2, c = m1 +:+ m2 -> m1 <> "" -> m2 <> "" ->
     startswith "```" (m2 +:+ "```" +:+ post) = false) ->
  match_at codearea_re bef ("```" +:+ c +:+ "```" +:+ post)
  = Some ([Some ("```" +:+ c +:+ "```"); Some c], post).
Proof.
  intros Hc Hsplit.
  apply (match_at_intro codearea_re bef _
           (MState (rev_onto ("```" +:+ c +:+ "```") bef) post [None; Some c])
           ("```" +:+ c +:+ "```")).
  2: { cbn [rest]. by rewrite !str_app_assoc. }
  unfold codearea_re. cbn [go ngroups]. rewrite go_Lit.
  cbn [rest before groups startswith String.append Ascii.eqb Bool.eqb andb
       drop String.length rev_onto].
  unfold plus_lazy. cbn [go rest before groups].
  apply rep_lazy_first.
  - apply anything_all.
  - by apply length_nonempty.
  - intros m1 m2 -> Hm2 Hl. rewrite go_Lit. cbn [rest set_group].
    assert (m1 <> "") as Hm1 by (destruct m1; [cbn in Hl; lia | done]).
    pose proof (Hsplit m1 m2 eq_refl Hm1 Hm2) as E.
    cbn [String.append] in E. by rewrite E.
  - rewrite go_Lit. cbn [rest set_group before groups].
    cbn [startswith String.append Ascii.eqb Bool.eqb andb drop String.length].
    rewrite (consumed_eq _ _ c) by done.
    cbn. rewrite !rev_onto_app. done.
Qed.

Lemma consumed_app b (m s : string) g b' g' :
  consumed (MState b (m +:+ s) g) (MState b' s g') = m.
Proof. by apply consumed_eq. Qed.

(** What a match of the fenced-code pattern is: the content between the
    fences is group 1, and is not empty. *)
Lemma codearea_match_inv (bef rst : string) gs rst' :
  match_at codearea_re bef rst = Some (gs, rst') ->
  exists g, g <> "" /\ rst = "```" +:+ g +:+ "```" +:+ rst'
            /\ gs = [Some ("```" +:+ g +:+ "```"); Some g].
Proof.
  unfold match_at.
  destruct (go codearea_re _ Some) as [st1|] eqn:E; [| done].
  intros [= <- <-]. unfold codearea_re, plus_lazy in E.
  cbn [go ngroups] in E. rewrite go_Lit in E. cbn [rest before groups] in E.
  destruct (startswith "```" rst) eqn:Hs; [| done].
  apply startswith_spec in Hs as [t ->].
  cbn [String.append drop String.length] in E.
  apply rep_sound in E as (m & s' & -> & _ & Hlo & _ & Hk).
  rewrite go_Lit in Hk. cbn [rest before groups set_group] in Hk.
  destruct (startswith "```" s') eqn:Hs'; [| done].
  apply startswith_spec in Hs' as [t' ->]. injection Hk as <-.
  cbn [String.append drop String.length rest groups set_group].
  exists m. split; [destruct m; [cbn in Hlo; lia | done] |]. split; [done |].
  rewrite !consumed_app.
  rewrite (consumed_eq _ _ ("```" +:+ m +:+ "```")); [done |].
  cbn [rest String.append]. by rewrite !str_app_assoc.
Qed.

Lemma group_1 (g0 g1 : option string) (gs : list (option string)) :
  group 1 (g0 :: g1 :: gs) = g1.
Proof. reflexivity. Qed.

Lemma lstrip_spaces (s : string) : str_all is_space s = true -> lstrip s = "".
Proof.
  induction s as [|c s IH]; cbn [str_all lstrip]; [done |].
  intros [-> Hs]%andb_true_iff. by apply IH.
Qed.

Lemma strip_spaces (s : string) : str_all is_space s = true -> strip s = "".
Proof. intros H. unfold strip. by rewrite lstrip_spaces. Qed.

Lemma codearea_blank g0 g blobs :
  str_all is_space g = true ->
  codearea [g0; Some g] blobs = Raise (ValueError MaxOfEmpty).
Proof. intros H. unfold codearea. rewrite group_1. by rewrite strip_spaces. Qed.

Lemma codearea_outcomes g0 g blobs :
  codearea [g0; Some g] blobs = Raise (ValueError MaxOfEmpty)
  \/ exists out blobs', codearea [g0; Some g] blobs = Ok (out, blobs').
Proof.
  unfold codearea. rewrite group_1.
  destruct (max_list _); [right | by left]. unfold preserve. eauto.
Qed.

Lemma finditer_from_inv r :
  forall rst skip bef gs,
    In gs (finditer_from r skip bef rst) ->
    exists bef' rst0 rst1, match_at r bef' rst0 = Some (gs, rst1).
Proof.
  induction rst as [|c rst IH]; intros skip bef gs H.
  - destruct skip; [| done]. cbn [finditer_from] in H.
    destruct (match_at r bef "") as [[gs' rst1]|] eqn:E; [| done].
    destruct H as [->|[]]. eauto.
  - destruct skip; cbn [finditer_from] in H; [| by eapply IH].
    destruct (match_at r bef (String c rst)) as [[gs' rst1]|] eqn:E.
    + destruct H as [->|H]; [eauto | by eapply IH].
    + by eapply IH.
Qed.

(** [markup] fails as its first pass does. *)
Lemma markup_first_pass fs (text : string) blobs0 (e : exn) :
  sub codearea_re (Function codearea) (NL +:+ text +:+ NL) [] = Raise e ->
  run (markup fs text) blobs0 = Raise e.
Proof.
  intros H. unfold run, markup, bind, clear, rules.
  cbn [apply_rules pattern replacement]. unfold bind. by rewrite H.
Qed.

Lemma codearea_needs_fence (bef rst : string) :
  startswith "```" rst = false -> match_at codearea_re bef rst = None.
Proof.
  intros H. destruct (match_at codearea_re bef rst) as [[gs rst']|] eqn:E;
    [| done].
  apply codearea_match_inv in E as (g & _ & -> & _). done.
Qed.

Lemma contains_split (w pre t : string) :
  contains w (pre +:+ t) = false ->
  forall p1 p2, pre = p1 +:+ p2 -> startswith w (p2 +:+ t) = false.
Proof.
  intros H p1. revert pre H. induction p1 as [|c p1 IH]; intros pre H p2 ->.
  - cbn [String.append] in *. destruct (p2 +:+ t); cbn [contains] in H;
      by apply orb_false_iff in H as [? _].
  - cbn [String.append contains] in H. apply orb_false_iff in H as [_ H].
    by eapply IH.
Qed.

Lemma startswith_fence (p x : string) :
  p <> "" ->
  startswith "```" (p +:+ "```" +:+ x) = startswith "```" (p +:+ "``").
Proof.
  intros Hp. destruct p as [|a [|b [|c p]]]; try done; cbn;
    by rewrite ?andb_true_r.
Qed.

Lemma no_match_in_fence (pre : string) :
  forall bef suf,
    (forall p1 p2, pre = p1 +:+ p2 -> p2 <> "" ->
       startswith "```" (p2 +:+ suf) = false) ->
    no_match_in codearea_re bef pre suf.
Proof.
  induction pre as [|c pre IH]; intros bef suf H; cbn [no_match_in]; [done |].
  split.
  - apply codearea_needs_fence. by apply (H "" (String c pre)).
  - apply IH. intros p1 p2 -> Hp2. by apply (H (String c p1) p2).
Qed.


Lemma splitlines_from_nonempty (s cur : string) :
  s <> "" \/ cur <> "" -> splitlines_from cur s <> [].
Proof.
  revert cur. induction s as [|c s IH]; intros cur H; cbn [splitlines_from].
  - destruct H as [H|H]; [done |]. by destruct cur.
  - destruct (is_linebreak c).
    + destruct s; [done |]. by destruct (_ && _).
    + apply IH. by right.
Qed.

Lemma width_defined (code : string) :
  code <> "" ->
  max_list (String.length <$> splitlines code)
  = Some (default 0 (max_list (String.length <$> splitlines code))).
Proof.
  intros H. pose proof (splitlines_from_nonempty code "" (or_introl H)) as Hne.
  fold (splitlines code) in Hne. destruct (splitlines code) as [|l ls]; [done |].
  cbn [fmap list_fmap max_list]. by destruct (max_list _).
Qed.

Lemma codearea_renders g0 (g : string) blobs :
  strip g <> "" ->
  codearea [g0; Some g] blobs
  = Ok ("{" +:+ str_of_nat (length blobs) +:+ "}",
        blobs ++ [code_container (strip g)]).
Proof.
  intros H. unfold codearea. rewrite group_1, (width_defined _ H).
  apply preserve_token.
Qed.


(** ** The fenced-code pass *)


Lemma format_token (args : list string) (i : nat) :
  (N.of_nat i <= PY_SSIZE_T_MAX)%N ->
  format ("{" +:+ str_of_nat i +:+ "}") args
  = match args !! i with
    | Some blob => Ok blob
    | None => Raise (IndexError i)
    end.
Proof.
  intros Hi. unfold format.
  change ("{" +:+ str_of_nat i +:+ "}") with ("{" +:+ str_of_nat i +:+ "}" +:+ "").
  rewrite build_string_token. unfold after_field.
  rewrite output_markup_index. apply N.leb_le in Hi. rewrite Hi.
  destruct (args !! i); [| done]. cbn. by rewrite str_app_nil_r.
Qed.


(** The same in terms of the text: a fence that is the first of the
    document, around whitespace only. *)
Lemma blank_fence_in_text fs (pre ws post : string) blobs0 :
  contains "```" (pre +:+ "``") = false ->
  ws <> "" -> str_all is_space ws = true ->
  run (markup fs (pre +:+ "```" +:+ ws +:+ "```" +:+ post)) blobs0
  = Raise (ValueError MaxOfEmpty).
Proof.
  intros Hpre Hws Hspace. apply markup_first_pass. unfold sub.
  replace (NL +:+ (pre +:+ "```" +:+ ws +:+ "```" +:+ post) +:+ NL)
    with ((NL +:+ pre) +:+ ("```" +:+ ws +:+ "```") +:+ (post +:+ NL))
    by (by rewrite !str_app_assoc).
  rewrite sub_from_prefix.
  2: { apply no_match_in_fence. intros p1 p2 E Hp2.
       rewrite str_app_assoc, startswith_fence by done.
       apply (contains_split "```" (NL +:+ pre) "``" Hpre p1 p2 E). }
  unfold bind. erewrite sub_from_match.
  2: { by destruct ws. }
  2: { rewrite !str_app_assoc. apply codearea_match; [done |].
       intros m1 m2 -> Hm1 Hm2. destruct m2 as [|x m2]; [done |].
       rewrite str_all_app in Hspace. apply andb_true_iff in Hspace as [_ Hx].
       cbn [str_all] in Hx. apply andb_true_iff in Hx as [Hx _].
       cbn [String.append startswith].
       destruct (Ascii.eqb "`" x) eqn:E; [| done].
       apply Ascii.eqb_eq in E as <-. done. }
  unfold bind. cbn [apply_repl]. by rewrite codearea_blank.
Qed.

(** ** Tokens that name no fragment *)





(** ** Passes that rewrite nothing *)

Lemma apply_rules_step r rs (doc doc' : string) blobs blobs' :
  sub (pattern r) (replacement r) doc blobs = Ok (doc', blobs') ->
  apply_rules (r :: rs) doc blobs = apply_rules rs doc' blobs'.
Proof. intros H. cbn [apply_rules]. unfold bind. by rewrite H. Qed.

Lemma apply_rules_skip (c : ascii) r rs (doc : string) blobs :
  count_char c doc < needs c (pattern r) ->
  apply_rules (r :: rs) doc blobs = apply_rules rs doc blobs.
Proof. intros H. apply apply_rules_step, (sub_id_needs c), H. Qed.

Lemma sub_id_first r rp (s : string) blobs :
  empty_ok r = false ->
  str_all (fun c => negb (first r c)) s = true ->
  sub r rp s blobs = Ok (s, blobs).
Proof.
  intros He Hs. unfold sub.
  rewrite <- (str_app_nil_r s) at 1.
  rewrite sub_from_prefix by (by apply no_match_in_first).
  unfold bind. rewrite sub_from_end by (by apply match_at_first).
  by rewrite str_app_nil_r.
Qed.

Lemma apply_rules_skip_first r rs (doc : string) blobs :
  empty_ok (pattern r) = false ->
  str_all (fun c => negb (first (pattern r) c)) doc = true ->
  apply_rules (r :: rs) doc blobs = apply_rules rs doc blobs.
Proof. intros He H. by apply apply_rules_step, sub_id_first. Qed.

(** A block-line pattern looks one character behind: it cannot match at
    the start of the text, and needs two newlines after it. *)
Lemma block_line_at_start (marker : re) (s : string) :
  match_at (block_line_re marker) "" s = None.
Proof. reflexivity. Qed.

Lemma needs_block_line (marker : re) : 2 <= needs nl (block_line_re marker).
Proof.
  assert (only (is_char nl) nl = true) as H by (vm_compute; reflexivity).
  unfold block_line_re, Chr. cbn [needs eats]. rewrite H. lia.
Qed.

Lemma sub_id_one_line (marker : re) rp (line : string) blobs :
  count_char nl line = 0 ->
  sub (block_line_re marker) rp (NL +:+ line +:+ NL) blobs
  = Ok (NL +:+ line +:+ NL, blobs).
Proof.
  intros H. unfold sub, NL at 1. cbn [String.append].
  rewrite sub_from_step by apply block_line_at_start.
  unfold bind. rewrite (sub_from_id_needs nl); [done |].
  pose proof (needs_block_line marker).
  rewrite count_char_app, H. cbn [NL count_char]. rewrite Ascii.eqb_refl. lia.
Qed.

Lemma by_ascii (P Q : ascii -> bool) :
  forallb (fun c => implb (P c) (Q c)) all_ascii = true ->
  forall c, P c = true -> Q c = true.
Proof.
  intros H c Hc.
  pose proof (forall_ascii (fun c => implb (P c) (Q c)) H c) as Hi.
  cbn beta in Hi. by rewrite Hc in Hi.
Qed.

Lemma count_char_absent (p : ascii -> bool) (c : ascii) (s : string) :
  str_all p s = true -> p c = false -> count_char c s = 0.
Proof.
  intros Hs Hc. induction s as [|x s IH]; [done |].
  cbn [str_all count_char] in *. apply andb_true_iff in Hs as [Hx Hs].
  rewrite (IH Hs). destruct (Ascii.eqb x c) eqn:E; [| done].
  apply Ascii.eqb_eq in E as ->. congruence.
Qed.

(** ** Matches of the paragraph and span patterns *)

Lemma paragraph_match (bef line rest' : string) :
  line <> "" -> str_all (not_char nl) line = true ->
  match_at paragraph_re (String nl bef) (line +:+ NL +:+ rest')
  = Some ([Some line; Some line], NL +:+ rest').
Proof.
  intros Hne Hline.
  apply (match_at_intro paragraph_re _ _
           (MState (rev_onto line (String nl bef)) (NL +:+ rest')
              [None; Some line]) line); [| done].
  unfold paragraph_re, plus, Chr. cbn [go ngroups unread rest before groups].
  change (is_char nl nl) with true. cbn [Nat.max replicate].
  apply rep_greedy_max; [done | by apply length_nonempty | done |].
  cbn [rest before groups set_group String.append NL].
  change (is_char nl nl) with true. cbn iota.
  by rewrite consumed_app.
Qed.

Lemma ngroups_Lit (w : string) : ngroups (Lit w) = 0.
Proof.
  induction w as [|c w IH]; [done |]. destruct w; [done |].
  change (Lit (String c (String a w))) with (Seq (Chr c) (Lit (String a w))).
  cbn [ngroups Chr]. by rewrite IH.
Qed.

Lemma drop_app_length (a b : string) : drop (String.length a) (a +:+ b) = b.
Proof. induction a as [|c a IH]; [by destruct b | done]. Qed.

(** A span [open m close] whose text [m] has no newline and does not have
    the first character of the closing marker: the lazy repetition stops at
    the closing marker. *)
Lemma span_match (opening closing : string) (c0 : ascii) (bef m suf : string) :
  startswith (String c0 "") closing = true ->
  m <> "" -> str_all dot m = true -> str_all (not_char c0) m = true ->
  match_at (span_re opening closing) bef (opening +:+ m +:+ closing +:+ suf)
  = Some ([Some (opening +:+ m +:+ closing); Some m], suf).
Proof.
  intros Hc0 Hne Hdot Hm.
  apply (match_at_intro (span_re opening closing) _ _
           (MState (rev_onto (opening +:+ m +:+ closing) bef) suf
              [None; Some m]) (opening +:+ m +:+ closing)).
  2: { cbn [rest]. by rewrite !str_app_assoc. }
  unfold span_re, plus_lazy. cbn [go ngroups]. rewrite !ngroups_Lit.
  cbn [Nat.max replicate]. rewrite go_Lit. cbn [rest before groups].
  rewrite startswith_app, drop_app_length.
  apply rep_lazy_first; [done | by apply length_nonempty | |].
  - intros m1 m2 -> Hm2 _. rewrite go_Lit. cbn [rest set_group].
    destruct m2 as [|x m2]; [done |].
    rewrite str_all_app in Hm. apply andb_true_iff in Hm as [_ Hx].
    cbn [str_all] in Hx. apply andb_true_iff in Hx as [Hx _].
    destruct closing as [|y closing]; [done |].
    cbn [startswith] in Hc0 |- *. rewrite andb_true_r in Hc0.
    apply Ascii.eqb_eq in Hc0 as <-. unfold not_char in Hx.
    apply negb_true_iff in Hx. cbn [String.append startswith]. by rewrite Hx.
  - rewrite go_Lit. cbn [rest before groups set_group].
    rewrite startswith_app, drop_app_length, consumed_app.
    by rewrite !rev_onto_app.
Qed.

(** ** Trimming and resolving a document without placeholders *)

Lemma rstrip_app (a b : string) :
  rstrip b <> "" -> rstrip (a +:+ b) = a +:+ rstrip b.
Proof.
  intros Hb. induction a as [|c a IH]; [done |].
  cbn [String.append rstrip]. rewrite IH.
  destruct (a +:+ rstrip b) eqn:E; [| done].
  destruct a; [| done]. cbn in E. congruence.
Qed.

Lemma strip_paragraph (body : string) :
  strip (NL +:+ "<p>" +:+ body +:+ "</p>" +:+ NL) = "<p>" +:+ body +:+ "</p>".
Proof.
  unfold strip.
  assert (lstrip (NL +:+ "<p>" +:+ body +:+ "</p>" +:+ NL)
          = ("<p>" +:+ body) +:+ ("</p>" +:+ NL)) as ->
    by (by rewrite str_app_assoc).
  rewrite rstrip_app by (by vm_compute). by rewrite str_app_assoc.
Qed.

Lemma format_plain (s : string) args :
  str_all (fun c => negb (is_brace c)) s = true -> format s args = Ok s.
Proof.
  intros H. unfold format. rewrite <- (str_app_nil_r s) at 1.
  rewrite build_string_plain by done. cbn. by rewrite str_app_nil_r.
Qed.

(** ** Documents of one line *)

Ltac count_plain :=
  rewrite ?count_char_app;
  repeat match goal with
  | H : str_all plain ?s = true |- context [count_char ?c ?s] =>
      rewrite (count_char_absent plain c s H eq_refl)
  end;
  vm_compute; lia.

Ltac skip_pass c := rewrite (apply_rules_skip c) by count_plain.

Ltac first_plain :=
  rewrite ?str_all_app;
  repeat (apply andb_true_intro; split);
  first [ vm_compute; reflexivity
        | eapply str_all_impl; [| eassumption];
          apply by_ascii; vm_compute; reflexivity ].

Lemma apply_rules_skip_block r rs (marker : re) (line : string) blobs :
  pattern r = block_line_re marker ->
  count_char nl line = 0 ->
  apply_rules (r :: rs) (NL +:+ line +:+ NL) blobs
  = apply_rules rs (NL +:+ line +:+ NL) blobs.
Proof.
  intros E H. apply apply_rules_step. rewrite E. by apply sub_id_one_line.
Qed.

Lemma paragraph_at_start (s : string) : match_at paragraph_re "" s = None.
Proof. reflexivity. Qed.

(** The paragraph pass wraps a document of one line that starts with
    neither [<] nor a brace. *)
Lemma paragraph_pass_one_line (line : string) blobs :
  line <> "" -> str_all (not_char nl) line = true ->
  startswith_any ["<"; "{"] line = false ->
  sub paragraph_re (Function paragraph) (NL +:+ line +:+ NL) blobs
  = Ok (NL +:+ "<p>" +:+ line +:+ "</p>" +:+ NL, blobs).
Proof.
  intros Hne Hline Hstart. unfold sub.
  rewrite sub_from_prefix by (split; [apply paragraph_at_start | done]).
  unfold bind at 1.
  rewrite (sub_from_match _ _ _ line NL [Some line; Some line])
    by (done || by apply (paragraph_match "" line "")).
  unfold bind at 1. cbn [apply_repl]. unfold paragraph at 1.
  cbn [match_groups tail]. rewrite Hstart. cbn [ret]. unfold bind at 1.
  rewrite (sub_from_prefix _ _ NL "")
    by (split; [by apply match_at_first | done]).
  unfold bind. rewrite sub_from_end by (by apply match_at_first).
  cbn [ret]. by rewrite !str_app_assoc.
Qed.

Lemma plain_no_newline (s : string) :
  str_all plain s = true -> str_all (not_char nl) s = true.
Proof.
  apply str_all_impl, by_ascii. vm_compute. reflexivity.
Qed.

Lemma plain_no_brace (s : string) :
  str_all plain s = true -> str_all (fun c => negb (is_brace c)) s = true.
Proof.
  apply str_all_impl, by_ascii. vm_compute. reflexivity.
Qed.

Lemma startswith_any_plain (s t : string) :
  str_all plain s = true ->
  startswith_any ["<"; "{"] t = false ->
  startswith_any ["<"; "{"] (s +:+ t) = false.
Proof.
  intros Hs Ht. destruct s as [|c s]; [done |].
  cbn [str_all] in Hs. apply andb_true_iff in Hs as [Hc _].
  pose proof (by_ascii plain
    (fun c => negb (Ascii.eqb "<" c) && negb (Ascii.eqb "{" c))
    ltac:(vm_compute; reflexivity) c Hc) as H.
  apply andb_true_iff in H as [H1%negb_true_iff H2%negb_true_iff].
  cbn [String.append startswith_any existsb startswith]. by rewrite H1, H2.
Qed.

(** A span pass over a text with one span: nothing can start a match
    before it, and too few markers are left after it. *)
Lemma span_pass (opening closing tpl : string) (c0 c1 : ascii)
    (pre m suf : string) blobs :
  empty_ok (span_re opening closing) = false ->
  str_all (fun c => negb (first (span_re opening closing) c)) pre = true ->
  startswith (String c0 "") closing = true ->
  m <> "" -> str_all dot m = true -> str_all (not_char c0) m = true ->
  count_char c1 suf < needs c1 (span_re opening closing) ->
  sub (span_re opening closing) (Template tpl)
      (pre +:+ opening +:+ m +:+ closing +:+ suf) blobs
  = Ok (pre +:+ expand tpl [Some (opening +:+ m +:+ closing); Some m]
        +:+ suf, blobs).
Proof.
  intros He Hpre Hc0 Hne Hdot Hm Hsuf. unfold sub.
  rewrite sub_from_prefix by (by apply no_match_in_first).
  unfold bind at 1.
  replace (opening +:+ m +:+ closing +:+ suf)
    with ((opening +:+ m +:+ closing) +:+ suf)
    by (by rewrite !str_app_assoc).
  rewrite (sub_from_match _ _ _ _ _
             [Some (opening +:+ m +:+ closing); Some m]).
  2: { destruct opening; [| done]. by destruct m. }
  2: { rewrite !str_app_assoc. by apply (span_match _ _ c0). }
  unfold bind at 1. cbn [apply_repl ret]. unfold bind.
  by rewrite (sub_from_id_needs c1).
Qed.

Lemma bold_italic_rules fs (pre post : string) blobs :
  str_all plain pre = true -> str_all plain post = true ->
  apply_rules (rules fs)
    (NL +:+ (pre +:+ "**bold** and *italic*" +:+ post) +:+ NL) blobs
  = Ok (NL +:+ "<p>" +:+ pre +:+ "<b>bold</b> and <i>italic</i>" +:+ post
        +:+ "</p>" +:+ NL, blobs).
Proof.
  intros Hpre Hpost. unfold rules.
  skip_pass "`"%char.
  do 4 skip_pass "<"%char.
  skip_pass ":"%char.
  do 3 (erewrite apply_rules_skip_block by first [reflexivity | count_plain]).
  skip_pass "!"%char.
  skip_pass ">"%char.
  skip_pass "#"%char.
  skip_pass "-"%char.
  do 2 skip_pass "["%char.
  (* the paragraph *)
  erewrite apply_rules_step.
  2: { cbn [pattern replacement]. apply paragraph_pass_one_line.
       - by destruct pre.
       - rewrite !str_all_app. repeat (apply andb_true_intro; split);
           first [by apply plain_no_newline | vm_compute; reflexivity].
       - by apply startswith_any_plain. }
  (* bold, then italics *)
  replace (NL +:+ "<p>" +:+ (pre +:+ "**bold** and *italic*" +:+ post)
           +:+ "</p>" +:+ NL)
    with ((NL +:+ "<p>" +:+ pre) +:+ "**" +:+ "bold" +:+ "**"
          +:+ (" and *italic*" +:+ post +:+ "</p>" +:+ NL))
    by (by rewrite !str_app_assoc).
  erewrite apply_rules_step.
  2: { cbn [pattern replacement].
       apply (span_pass "**" "**" bold "*" "*");
         [done | first_plain | done | done | done | done | count_plain]. }
  change (expand bold _) with "<b>bold</b>".
  replace ((NL +:+ "<p>" +:+ pre) +:+ "<b>bold</b>"
           +:+ " and *italic*" +:+ post +:+ "</p>" +:+ NL)
    with ((NL +:+ "<p>" +:+ pre +:+ "<b>bold</b> and ") +:+ "*" +:+ "italic"
          +:+ "*" +:+ (post +:+ "</p>" +:+ NL))
    by (by rewrite !str_app_assoc).
  erewrite apply_rules_step.
  2: { cbn [pattern replacement].
       apply (span_pass "*" "*" italics "*" "*");
         [done | first_plain | done | done | done | done | count_plain]. }
  change (expand italics _) with "<i>italic</i>".
  skip_pass "_"%char.
  skip_pass "~"%char.
  skip_pass "`"%char.
  rewrite apply_rules_skip_first by (done || first_plain).
  skip_pass "-"%char.
  skip_pass ":"%char.
  skip_pass "["%char.
  cbn [apply_rules ret]. by rewrite !str_app_assoc.
Qed.

(** ** Documents of several lines *)

Lemma sub_from_step_ok r rp bef (c : ascii) rst blobs out blobs' :
  match_at r bef (String c rst) = None ->
  sub_from r rp 0 (String c bef) rst blobs = Ok (out, blobs') ->
  sub_from r rp 0 bef (String c rst) blobs = Ok (String c out, blobs').
Proof.
  intros H1 H2. rewrite sub_from_step by done. unfold bind. by rewrite H2.
Qed.

Lemma sub_from_prefix_ok r rp (pre suf : string) bef blobs out blobs' :
  empty_ok r = false ->
  str_all (fun c => negb (first r c)) pre = true ->
  sub_from r rp 0 (rev_onto pre bef) suf blobs = Ok (out, blobs') ->
  sub_from r rp 0 bef (pre +:+ suf) blobs = Ok (pre +:+ out, blobs').
Proof.
  intros H0 H1 H2.
  rewrite sub_from_prefix by (by apply no_match_in_first).
  unfold bind. by rewrite H2.
Qed.

Lemma sub_from_match_ok r rp bef (m suf : string) gs blobs new blobs1 out
    blobs' :
  m <> "" ->
  match_at r bef (m +:+ suf) = Some (gs, suf) ->
  apply_repl rp gs blobs = Ok (new, blobs1) ->
  sub_from r rp 0 (rev_onto m bef) suf blobs1 = Ok (out, blobs') ->
  sub_from r rp 0 bef (m +:+ suf) blobs = Ok (new +:+ out, blobs').
Proof.
  intros Hm H1 H2 H3. rewrite (sub_from_match r rp bef m suf gs) by done.
  unfold bind. rewrite H2, H3. done.
Qed.

Lemma sub_from_end_ok r rp bef blobs :
  empty_ok r = false -> sub_from r rp 0 bef "" blobs = Ok ("", blobs).
Proof. intros H. apply sub_from_end. by apply match_at_first. Qed.

Lemma stops_app (p : ascii -> bool) (a t : string) :
  str_all (fun c => negb (p c)) a = true -> stops p t -> stops p (a +:+ t).
Proof.
  destruct a as [|c a]; [done |]. cbn [str_all String.append stops].
  intros H _. apply andb_true_iff in H as [H _]. by apply negb_true_iff.
Qed.

Lemma go_first (r : re) (st : mstate) (k : mstate -> option mstate) :
  empty_ok r = false -> stops (first r) (rest st) -> go r st k = None.
Proof.
  intros He Hs. destruct (go r st k) as [res|] eqn:E; [| done].
  apply go_sound in E as (st' & H & _).
  apply first_sound in H as [[_ H]|(c & s & Hc & H)]; [congruence |].
  rewrite Hc in Hs. cbn in Hs. congruence.
Qed.

(** A line does not start a block when what follows its newline cannot
    begin the marker. *)
Lemma block_line_second (marker : re) (bef rst : string) :
  empty_ok marker = false -> stops (first marker) rst ->
  match_at (block_line_re marker) bef (String nl rst) = None.
Proof.
  intros He Hs. unfold match_at, block_line_re.
  cbn [go before rest groups].
  destruct (unread 1 bef (String nl rst)) as [[b s]|]; [| done].
  destruct (go (any_as 1) _ Some) as [st1|]; [| done].
  unfold Chr at 1. cbn [go rest before groups].
  change (is_char nl nl) with true. cbn iota.
  by rewrite go_first.
Qed.

Lemma count_char_last (c : ascii) (a b s : string) :
  b <> "" -> a +:+ b = s +:+ String c "" -> 1 <= count_char c b.
Proof.
  revert s. induction a as [|x a IH]; intros s Hb E.
  - cbn [String.append] in E. subst b. rewrite count_char_app.
    cbn [count_char]. rewrite Ascii.eqb_refl. lia.
  - destruct s as [|y s].
    + cbn [String.append] in E. injection E as _ E.
      destruct a; [by destruct b | done].
    + cbn [String.append] in E. injection E as _ E. by apply (IH s).
Qed.

(** The last line of a document starts no block: the pattern looks ahead
    for a character after the newline that ends the line. *)
Lemma block_line_last (marker : re) (bef line : string) :
  count_char nl line = 0 ->
  match_at (block_line_re marker) bef (NL +:+ line +:+ NL) = None.
Proof.
  intros Hline.
  destruct (match_at _ _ _) as [[gs rst']|] eqn:E; [| done]. exfalso.
  apply match_at_steps in E as (st' & H & _).
  unfold block_line_re in H. cbn [steps] in H.
  destruct H as (mid & (m3 & (m2 & (m1 & H1 & Hnl) & Hmk) & Hline') & Hah).
  destruct H1 as (b & s & st1 & _ & _ & ->).
  cbn [rest before groups] in Hnl.
  destruct Hnl as (c & s' & Ec & _ & ->).
  cbn [NL String.append] in Ec. injection Ec as <- <-.
  apply (eats_sound nl) in Hmk as (mk & Emk & _).
  cbn [rest] in Emk.
  destruct Hline' as (st2 & Hl & ->).
  cbn [plus steps] in Hl. destruct Hl as (ml & Hml & _ & _ & El & _ & _).
  destruct Hah as (st3 & (mid' & Hc & Hany) & _).
  cbn [rest set_group] in Hc.
  destruct Hc as (c & s' & Ec & Hcnl & ->).
  cbn [any_as steps rest] in Hany.
  destruct Hany as (st4 & Hany & _).
  assert (exists d s'', s' = String d s'') as (d & s'' & ->).
  { destruct Hany as [(d & s'' & ? & _)|(d & s'' & ? & _)]; eauto. }
  unfold is_char in Hcnl. apply Ascii.eqb_eq in Hcnl. subst c.
  cbn [rest set_group] in Ec.
  rewrite El, Ec in Emk. unfold NL in Emk.
  assert ((mk +:+ ml +:+ String nl "") +:+ String d s''
          = line +:+ String nl "") as E
    by (by rewrite Emk, !str_app_assoc).
  apply (count_char_last nl) in E; [| done].
  assert (count_char nl (line +:+ String nl "") = 1) as E1
    by (by rewrite count_char_app, Hline).
  rewrite Emk, !count_char_app in E1. cbn [count_char] in E1.
  rewrite Ascii.eqb_refl in E1. cbn [count_char] in E. lia.
Qed.

Lemma go_any_as (n : nat) (c : ascii) (b s : string) g
    (k : mstate -> option mstate) :
  go (any_as n) (MState b (String c s) g) k
  = k (MState (String c b) s (<[n := Some (String c "")]> g)).
Proof.
  assert (consumed (MState b (String c s) g) (MState (String c b) s g)
          = String c "") as E by (by apply consumed_eq).
  unfold any_as, non_space. cbn [go rest before groups].
  destruct (is_space c); cbn [negb]; unfold set_group;
    cbn [rest before groups]; rewrite E; [| done].
  by destruct (k _).
Qed.

Lemma unordered_match (cb ca : ascii) (bef line rest' : string) :
  line <> "" -> str_all dot line = true ->
  match_at unordered_re (String cb bef)
    (NL +:+ "- " +:+ line +:+ NL +:+ String ca rest')
  = Some ([Some (NL +:+ "- " +:+ line); Some (String cb ""); Some line;
           Some (String ca "")], NL +:+ String ca rest').
Proof.
  intros Hne Hline.
  apply (match_at_intro unordered_re _ _
           (MState (rev_onto (NL +:+ "- " +:+ line) (String cb bef))
              (NL +:+ String ca rest')
              [None; Some (String cb ""); Some line; Some (String ca "")])
           (NL +:+ "- " +:+ line)).
  2: { cbn [rest]. by rewrite !str_app_assoc. }
  change (replicate (S (ngroups unordered_re)) None)
    with ([None; None; None; None] : list (option string)).
  unfold unordered_re, block_line_re.
  cbn [go unread rest before groups]. rewrite go_any_as.
  cbn [groups NL String.append]. unfold Chr at 1 2.
  cbn [go rest before groups].
  change (is_char nl nl) with true. change (one_of "-*" "-") with true.
  change (is_char " " " ") with true. cbn iota.
  unfold plus. cbn [go rest before groups].
  apply rep_greedy_max; [done | by apply length_nonempty | done |].
  unfold set_group. cbn [rest before groups]. rewrite consumed_app.
  unfold Chr. cbn [go rest before groups].
  change (is_char nl nl) with true. cbn iota. rewrite go_any_as.
  cbn [rest before groups rev_onto]. done.
Qed.

Lemma unordered_item (cb ca : ascii) g0 (text : string) blobs :
  unordered_list_item
    [g0; Some (String cb ""); Some text; Some (String ca "")] blobs
  = Ok ((if Ascii.eqb cb nl then NL +:+ "<ul>" +:+ NL else "")
        +:+ "<li>" +:+ text +:+ "</li>" +:+ NL
        +:+ (if Ascii.eqb ca nl then "</ul>" else ""), blobs).
Proof.
  unfold unordered_list_item, str_eqb.
  cbn [match_groups tail NL String.eqb ret].
  by destruct (Ascii.eqb cb nl), (Ascii.eqb ca nl).
Qed.

Lemma rev_onto_last (p : ascii -> bool) (s acc : string) :
  s <> "" -> str_all p s = true ->
  exists c t, rev_onto s acc = String c t /\ p c = true.
Proof.
  revert acc. induction s as [|x s IH]; intros acc Hne Hs; [done |].
  cbn [str_all] in Hs. apply andb_true_iff in Hs as [Hx Hs].
  destruct s as [|y s]; [by exists x, acc |].
  cbn [rev_onto]. by apply IH.
Qed.

Lemma plain_not_newline (c : ascii) : plain c = true -> Ascii.eqb c nl = false.
Proof.
  intros H. apply negb_true_iff. revert c H. apply by_ascii.
  vm_compute. reflexivity.
Qed.

Lemma ok_eq {A} (m : result A) (a b : A) : m = Ok a -> a = b -> m = Ok b.
Proof. by intros -> ->. Qed.

(** Walking a pattern over a document made of literal text and of stretches
    of ordinary characters. *)
Ltac inert_segment :=
  eapply str_all_impl; [| eassumption]; apply by_ascii; vm_compute;
  reflexivity.

Ltac no_newline :=
  eapply (count_char_absent plain); [eassumption | reflexivity].

Ltac no_match_here :=
  first
    [ apply match_at_first; [reflexivity | vm_compute; reflexivity]
    | apply block_line_at_start
    | apply block_line_second;
      [reflexivity | first [exact I | cbn [stops]; vm_compute; reflexivity]]
    | lazymatch goal with
      | |- match_at _ _ (String nl (?y +:+ _)) = None =>
          apply (block_line_last _ _ y); no_newline
      end
    | lazymatch goal with
      | |- match_at _ _ (String _ _) = None => vm_compute; reflexivity
      end ].

Ltac walk_step :=
  lazymatch goal with
  | |- sub_from _ _ 0 _ (String _ _) _ = _ =>
      eapply sub_from_step_ok; [no_match_here |]
  | |- sub_from _ _ 0 _ (_ +:+ _) _ = _ =>
      eapply sub_from_prefix_ok; [reflexivity | inert_segment |]
  | |- sub_from _ _ 0 _ "" _ = _ => apply sub_from_end_ok; reflexivity
  end.

Ltac walk := repeat walk_step.

Ltac str_norm :=
  cbv beta delta [NL DQ note_anchor];
  repeat first [rewrite !str_app_assoc | progress cbn [String.append]];
  reflexivity.

(** The list rule on three item lines between two blank lines: the first
    item opens the list, the last one closes it. *)
Lemma unordered_pass (x a b c y : string) blobs :
  str_all plain x = true ->
  a <> "" -> str_all plain a = true ->
  b <> "" -> str_all plain b = true ->
  c <> "" -> str_all plain c = true ->
  str_all plain y = true ->
  sub unordered_re (Function unordered_list_item)
    (NL +:+ x +:+ NL +:+ NL +:+ "- " +:+ a +:+ NL +:+ "- " +:+ b +:+ NL
     +:+ "- " +:+ c +:+ NL +:+ NL +:+ y +:+ NL) blobs
  = Ok (NL +:+ x +:+ NL +:+ NL +:+ "<ul>" +:+ NL
        +:+ "<li>" +:+ a +:+ "</li>" +:+ NL
        +:+ "<li>" +:+ b +:+ "</li>" +:+ NL
        +:+ "<li>" +:+ c +:+ "</li>" +:+ NL +:+ "</ul>" +:+ NL +:+ NL
        +:+ y +:+ NL, blobs).
Proof.
  intros Hx Ha' Ha Hb' Hb Hc' Hc Hy. unfold sub, NL. cbn [String.append].
  eapply ok_eq.
  { walk.
  eapply (sub_from_match_ok _ _ _ (NL +:+ "- " +:+ a) (NL +:+ String "-" _));
    [done | apply unordered_match; [done | by apply plain_no_newline]
    | cbn [apply_repl]; rewrite unordered_item; reflexivity |].
  unfold NL. cbn [rev_onto String.append].
  match goal with
  | |- context [rev_onto a ?acc] =>
      destruct (rev_onto_last plain a acc Ha' Ha) as (ca & t & -> & Hca)
  end.
  eapply (sub_from_match_ok _ _ _ (NL +:+ "- " +:+ b) (NL +:+ String "-" _));
    [done | apply unordered_match; [done | by apply plain_no_newline]
    | cbn [apply_repl];
      rewrite unordered_item, (plain_not_newline _ Hca); reflexivity |].
  unfold NL. cbn [rev_onto String.append].
  match goal with
  | |- context [rev_onto b ?acc] =>
      destruct (rev_onto_last plain b acc Hb' Hb) as (cb & t' & -> & Hcb)
  end.
  eapply (sub_from_match_ok _ _ _ (NL +:+ "- " +:+ c) (NL +:+ String nl _));
    [done | apply unordered_match; [done | by apply plain_no_newline]
    | cbn [apply_repl];
      rewrite unordered_item, (plain_not_newline _ Hcb); reflexivity |].
  unfold NL. cbn [rev_onto String.append]. walk. }
  cbn iota. str_norm.
Qed.

(** The paragraph rule goes line by line. *)
Lemma paragraph_line (l : string) blobs :
  l <> "" ->
  apply_repl (Function paragraph) [Some l; Some l] blobs
  = Ok (par_line l, blobs).
Proof.
  intros Hl. cbn [apply_repl]. unfold paragraph, par_line.
  cbn [match_groups tail]. destruct l; [done |].
  by destruct (startswith_any _ _).
Qed.

Lemma paragraph_lines (ls : list string) :
  forall bef blobs,
    Forall (fun l => str_all (not_char nl) l = true) ls ->
    sub_from paragraph_re (Function paragraph) 0 (String nl bef) (unlines ls)
      blobs
    = Ok (unlines (par_line <$> ls), blobs).
Proof.
  induction ls as [|l ls IH]; intros bef blobs Hls.
  - cbn [unlines]. by apply sub_from_end_ok.
  - apply Forall_cons in Hls as [Hl Hls]. cbn [unlines fmap list_fmap].
    destruct (decide (l = "")) as [->|Hne].
    + cbn [par_line String.append NL].
      eapply sub_from_step_ok; [by apply match_at_first |]. by apply IH.
    + eapply sub_from_match_ok;
        [done | by apply paragraph_match | by apply paragraph_line |].
      unfold NL. cbn [String.append].
      eapply sub_from_step_ok; [by apply match_at_first |]. by apply IH.
Qed.

Lemma paragraph_pass (ls : list string) blobs :
  Forall (fun l => str_all (not_char nl) l = true) ls ->
  sub paragraph_re (Function paragraph) (NL +:+ unlines ls) blobs
  = Ok (NL +:+ unlines (par_line <$> ls), blobs).
Proof.
  intros Hls. unfold sub, NL. cbn [String.append].
  eapply sub_from_step_ok; [apply paragraph_at_start |].
  by apply paragraph_lines.
Qed.

Lemma par_line_plain (l t : string) :
  l <> "" -> str_all plain l = true ->
  par_line (l +:+ t) = "<p>" +:+ (l +:+ t) +:+ "</p>".
Proof.
  intros Hne Hl. destruct l as [|c l]; [done |].
  cbn [str_all] in Hl. apply andb_true_iff in Hl as [Hc _].
  pose proof (by_ascii plain
    (fun c => negb (Ascii.eqb "<" c) && negb (Ascii.eqb "{" c))
    ltac:(vm_compute; reflexivity) c Hc) as H.
  apply andb_true_iff in H as [H1%negb_true_iff H2%negb_true_iff].
  unfold par_line.
  cbn [String.append startswith_any existsb startswith]. by rewrite H1, H2.
Qed.

Lemma par_line_tag (t : string) : par_line (String "<" t) = String "<" t.
Proof. reflexivity. Qed.

Lemma par_line_whole (l : string) :
  l <> "" -> str_all plain l = true -> par_line l = "<p>" +:+ l +:+ "</p>".
Proof.
  intros Hne Hl. rewrite <- (str_app_nil_r l) at 1.
  rewrite par_line_plain by done. by rewrite str_app_nil_r.
Qed.

Lemma apply_rules_none r rs (doc : string) blobs :
  sub (pattern r) (replacement r) doc blobs = Ok (doc, blobs) ->
  apply_rules (r :: rs) doc blobs = apply_rules rs doc blobs.
Proof. apply apply_rules_step. Qed.

(** A pass that finds nothing, by walking the document. *)
Ltac cons_form :=
  cbv beta delta [sub NL DQ note_anchor]; cbn [String.append].

Ltac pass_none :=
  rewrite apply_rules_none
    by (cbn [pattern replacement]; cons_form; eapply ok_eq;
        [walk | str_norm]).

Lemma list_paragraph_pass (x a b c y : string) blobs :
  x <> "" -> str_all plain x = true ->
  str_all plain a = true -> str_all plain b = true ->
  str_all plain c = true ->
  y <> "" -> str_all plain y = true ->
  sub paragraph_re (Function paragraph)
    (NL +:+ x +:+ NL +:+ NL +:+ "<ul>" +:+ NL
     +:+ "<li>" +:+ a +:+ "</li>" +:+ NL
     +:+ "<li>" +:+ b +:+ "</li>" +:+ NL
     +:+ "<li>" +:+ c +:+ "</li>" +:+ NL +:+ "</ul>" +:+ NL +:+ NL
     +:+ y +:+ NL) blobs
  = Ok (NL +:+ "<p>" +:+ x +:+ "</p>" +:+ NL +:+ NL +:+ "<ul>" +:+ NL
        +:+ "<li>" +:+ a +:+ "</li>" +:+ NL
        +:+ "<li>" +:+ b +:+ "</li>" +:+ NL
        +:+ "<li>" +:+ c +:+ "</li>" +:+ NL +:+ "</ul>" +:+ NL +:+ NL
        +:+ "<p>" +:+ y +:+ "</p>" +:+ NL, blobs).
Proof.
  intros Hx' Hx Ha Hb Hc Hy' Hy.
  pose (ls := [x; ""; "<ul>"; "<li>" +:+ a +:+ "</li>";
               "<li>" +:+ b +:+ "</li>"; "<li>" +:+ c +:+ "</li>"; "</ul>";
               ""; y]).
  eapply ok_eq.
  - etransitivity; [| apply (paragraph_pass ls)].
    + f_equal. subst ls. cbn [unlines]. str_norm.
    + subst ls. repeat (apply Forall_cons; split); try apply Forall_nil;
        rewrite ?str_all_app;
        repeat (apply andb_true_intro; split);
        first [by apply plain_no_newline | by vm_compute].
  - subst ls. cbn [fmap list_fmap unlines].
    rewrite (par_line_whole x), (par_line_whole y) by done.
    cbn [String.append]. rewrite !par_line_tag.
    change (par_line "") with "". f_equal. str_norm.
Qed.

(** All the rules over three item lines between two paragraphs. *)
Lemma list_rules fs (x a b c y : string) blobs :
  x <> "" -> str_all plain x = true ->
  a <> "" -> str_all plain a = true ->
  b <> "" -> str_all plain b = true ->
  c <> "" -> str_all plain c = true ->
  y <> "" -> str_all plain y = true ->
  apply_rules (rules fs)
    (NL +:+ x +:+ NL +:+ NL +:+ "- " +:+ a +:+ NL +:+ "- " +:+ b +:+ NL
     +:+ "- " +:+ c +:+ NL +:+ NL +:+ y +:+ NL) blobs
  = Ok (NL +:+ "<p>" +:+ x +:+ "</p>" +:+ NL +:+ NL +:+ "<ul>" +:+ NL
        +:+ "<li>" +:+ a +:+ "</li>" +:+ NL
        +:+ "<li>" +:+ b +:+ "</li>" +:+ NL
        +:+ "<li>" +:+ c +:+ "</li>" +:+ NL +:+ "</ul>" +:+ NL +:+ NL
        +:+ "<p>" +:+ y +:+ "</p>" +:+ NL, blobs).
Proof.
  intros Hx' Hx Ha' Ha Hb' Hb Hc' Hc Hy' Hy. unfold rules.
  skip_pass "`"%char. do 4 skip_pass "<"%char. skip_pass ":"%char.
  pass_none.
  erewrite apply_rules_step;
    [| cbn [pattern replacement]; by apply unordered_pass].
  pass_none.
  skip_pass "!"%char.
  pass_none.
  skip_pass "#"%char. skip_pass "-"%char. do 2 skip_pass "["%char.
  erewrite apply_rules_step;
    [| cbn [pattern replacement]; by apply list_paragraph_pass].
  do 2 skip_pass "*"%char. skip_pass "_"%char. skip_pass "~"%char.
  skip_pass "`"%char.
  rewrite apply_rules_skip_first by (done || first_plain).
  skip_pass "-"%char. skip_pass ":"%char. skip_pass "["%char.
  reflexivity.
Qed.

(** ** Counting occurrences *)

Lemma count_from_inert (n0 : ascii) (n s t : string) :
  str_all (not_char n0) s = true ->
  count_from (String n0 n) 0 (s +:+ t) = count_from (String n0 n) 0 t.
Proof.
  intros Hs. induction s as [|c s IH]; [done |].
  cbn [str_all] in Hs. apply andb_true_iff in Hs as [Hc Hs].
  unfold not_char in Hc. apply negb_true_iff in Hc.
  cbn [String.append count_from startswith]. rewrite Hc. cbn [andb].
  by apply IH.
Qed.

Lemma count_from_miss (needle : string) (c : ascii) (h : string) :
  startswith needle (String c h) = false ->
  count_from needle 0 (String c h) = count_from needle 0 h.
Proof. intros H. cbn [count_from]. by rewrite H. Qed.

Lemma count_from_hit (needle : string) (c : ascii) (h : string) :
  startswith needle (String c h) = true ->
  count_from needle 0 (String c h)
  = S (count_from needle (pred (String.length needle)) h).
Proof. intros H. cbn [count_from]. by rewrite H. Qed.

Ltac count_step :=
  match goal with
  | |- context [count_from ?n (S ?k) (String ?c ?h)] =>
      change (count_from n (S k) (String c h)) with (count_from n k h)
  | |- context [count_from ?n 0 (String ?c ?h)] =>
      first [ rewrite (count_from_miss n c h) by (vm_compute; reflexivity)
            | rewrite (count_from_hit n c h) by (vm_compute; reflexivity);
              cbn [pred String.length] ]
  | |- context [count_from (String ?n0 ?n) 0 (?s +:+ ?t)] =>
      rewrite (count_from_inert n0 n s t) by inert_segment
  end.

Ltac count_occurrences :=
  unfold count, NL;
  repeat first [rewrite !str_app_assoc | progress cbn [String.append]];
  repeat count_step; reflexivity.

(** ** Footnotes *)

Lemma note_foot_match (bef suf : string) :
  match_at note_foot_re bef ("[1]:" +:+ suf)
  = Some ([Some "[1]:"; Some "1"], suf).
Proof.
  apply (match_at_intro note_foot_re _ _
           (MState (rev_onto "[1]:" bef) suf [None; Some "1"]) "[1]:");
    [| done].
  change (replicate (S (ngroups note_foot_re)) None)
    with ([None; None] : list (option string)).
  unfold note_foot_re, Chr, plus. cbn [go rest before groups String.append].
  change (is_char "[" "[") with true. cbn iota.
  apply (rep_greedy_max _ _ _ "1"); [done | done | done |].
  unfold set_group. cbn [rest before groups rev_onto String.append].
  rewrite (consumed_eq _ _ "1") by done. cbn [Lit go Chr rest before groups].
  done.
Qed.

Lemma note_text_match (bef suf : string) :
  match_at note_text_re bef ("[1]" +:+ suf)
  = Some ([Some "[1]"; Some "1"], suf).
Proof.
  apply (match_at_intro note_text_re _ _
           (MState (rev_onto "[1]" bef) suf [None; Some "1"]) "[1]");
    [| done].
  change (replicate (S (ngroups note_text_re)) None)
    with ([None; None] : list (option string)).
  unfold note_text_re, Chr, plus. cbn [go rest before groups String.append].
  change (is_char "[" "[") with true. cbn iota.
  apply (rep_greedy_max _ _ _ "1"); [done | done | done |].
  unfold set_group. cbn [rest before groups rev_onto String.append].
  rewrite (consumed_eq _ _ "1") by done. cbn [go rest before groups].
  done.
Qed.

Ltac count_walk :=
  repeat first [rewrite !count_char_app | progress cbn [count_char]];
  repeat match goal with
  | H : str_all plain ?s = true |- context [count_char ?c ?s] =>
      rewrite (count_char_absent plain c s H eq_refl)
  end;
  vm_compute; lia.

Lemma rstrip_newline (s : string) : rstrip (s +:+ NL) = rstrip s.
Proof.
  induction s as [|c s IH]; [done |]. cbn [String.append rstrip].
  by rewrite IH.
Qed.

Lemma note_foot_pass (x y : string) blobs :
  str_all plain x = true -> str_all plain y = true ->
  sub note_foot_re (Template note_foot)
    (NL +:+ x +:+ "[1]" +:+ NL +:+ "[1]: " +:+ y +:+ NL) blobs
  = Ok (NL +:+ x +:+ "[1]" +:+ NL +:+ note_anchor "1foot" "#1text" "1"
        +:+ " " +:+ y +:+ NL, blobs).
Proof.
  intros Hx Hy. cons_form. eapply ok_eq.
  { walk.
    eapply (sub_from_match_ok _ _ _ "[1]:" _);
      [done | apply note_foot_match | vm_compute; reflexivity |].
    walk. }
  str_norm.
Qed.

Lemma note_text_pass (x y : string) blobs :
  str_all plain x = true -> str_all plain y = true ->
  sub note_text_re (Template note_text)
    (NL +:+ x +:+ "[1]" +:+ NL +:+ note_anchor "1foot" "#1text" "1"
     +:+ " " +:+ y +:+ NL) blobs
  = Ok (NL +:+ x +:+ note_anchor "1text" "#1foot" "1" +:+ NL
        +:+ note_anchor "1foot" "#1text" "1" +:+ " " +:+ y +:+ NL, blobs).
Proof.
  intros Hx Hy. cons_form. eapply ok_eq.
  { walk.
    eapply (sub_from_match_ok _ _ _ "[1]" _);
      [done | apply note_text_match | vm_compute; reflexivity |].
    walk. }
  str_norm.
Qed.

Lemma footnote_paragraph_pass (x y : string) blobs :
  x <> "" -> str_all plain x = true -> str_all plain y = true ->
  sub paragraph_re (Function paragraph)
    (NL +:+ x +:+ note_anchor "1text" "#1foot" "1" +:+ NL
     +:+ note_anchor "1foot" "#1text" "1" +:+ " " +:+ y +:+ NL) blobs
  = Ok (NL +:+ "<p>" +:+ x +:+ note_anchor "1text" "#1foot" "1" +:+ "</p>"
        +:+ NL +:+ note_anchor "1foot" "#1text" "1" +:+ " " +:+ y +:+ NL,
        blobs).
Proof.
  intros Hx' Hx Hy.
  pose (ls := [x +:+ note_anchor "1text" "#1foot" "1";
               note_anchor "1foot" "#1text" "1" +:+ " " +:+ y]).
  eapply ok_eq.
  - etransitivity; [| apply (paragraph_pass ls)].
    + f_equal. subst ls. cbn [unlines]. str_norm.
    + subst ls. repeat (apply Forall_cons; split); try apply Forall_nil;
        rewrite ?str_all_app;
        repeat (apply andb_true_intro; split);
        first [by apply plain_no_newline | by vm_compute].
  - subst ls. cbn [fmap list_fmap unlines].
    rewrite (par_line_plain x) by done.
    cbv beta delta [note_anchor DQ]. cbn [String.append].
    rewrite !par_line_tag. f_equal. str_norm.
Qed.

(** All the rules over a line with a reference and a line with its
    definition. *)
Lemma footnote_rules fs (x y : string) blobs :
  x <> "" -> str_all plain x = true -> str_all plain y = true ->
  apply_rules (rules fs)
    (NL +:+ x +:+ "[1]" +:+ NL +:+ "[1]: " +:+ y +:+ NL) blobs
  = Ok (NL +:+ "<p>" +:+ x +:+ note_anchor "1text" "#1foot" "1" +:+ "</p>"
        +:+ NL +:+ note_anchor "1foot" "#1text" "1" +:+ " " +:+ y +:+ NL,
        blobs).
Proof.
  intros Hx' Hx Hy. unfold rules.
  skip_pass "`"%char. do 4 skip_pass "<"%char.
  rewrite apply_rules_none
    by (cbn [pattern replacement]; cons_form; eapply ok_eq;
        [ eapply sub_from_step_ok; [no_match_here |];
          apply (sub_from_id_needs nl); count_walk
        | str_norm ]).
  do 3 pass_none.
  skip_pass "!"%char. skip_pass ">"%char. skip_pass "#"%char.
  skip_pass "-"%char.
  erewrite apply_rules_step;
    [| cbn [pattern replacement]; by apply note_foot_pass].
  erewrite apply_rules_step;
    [| cbn [pattern replacement]; by apply note_text_pass].
  erewrite apply_rules_step;
    [| cbn [pattern replacement]; by apply footnote_paragraph_pass].
  do 2 skip_pass "*"%char. skip_pass "_"%char. skip_pass "~"%char.
  skip_pass "`"%char.
  pass_none.
  skip_pass "-"%char. skip_pass ":"%char. skip_pass "["%char.
  reflexivity.
Qed.

(** ** A resource reference in a line of text *)

Lemma sub_from_step_raise r rp bef (c : ascii) rst blobs (e : exn) :
  match_at r bef (String c rst) = None ->
  sub_from r rp 0 (String c bef) rst blobs = Raise e ->
  sub_from r rp 0 bef (String c rst) blobs = Raise e.
Proof.
  intros H1 H2. rewrite sub_from_step by done. unfold bind. by rewrite H2.
Qed.

Lemma sub_from_prefix_raise r rp (pre suf : string) bef blobs (e : exn) :
  empty_ok r = false ->
  str_all (fun c => negb (first r c)) pre = true ->
  sub_from r rp 0 (rev_onto pre bef) suf blobs = Raise e ->
  sub_from r rp 0 bef (pre +:+ suf) blobs = Raise e.
Proof.
  intros H0 H1 H2.
  rewrite sub_from_prefix by (by apply no_match_in_first).
  unfold bind. by rewrite H2.
Qed.

Lemma sub_from_match_raise r rp bef (m suf : string) gs blobs (e : exn) :
  m <> "" ->
  match_at r bef (m +:+ suf) = Some (gs, suf) ->
  apply_repl rp gs blobs = Raise e ->
  sub_from r rp 0 bef (m +:+ suf) blobs = Raise e.
Proof.
  intros Hm H1 H2. rewrite (sub_from_match r rp bef m suf gs) by done.
  unfold bind. by rewrite H2.
Qed.

Lemma apply_rules_raise r rs (doc : string) blobs (e : exn) :
  sub (pattern r) (replacement r) doc blobs = Raise e ->
  apply_rules (r :: rs) doc blobs = Raise e.
Proof. intros H. cbn [apply_rules]. unfold bind. by rewrite H. Qed.

Lemma inline_match (bef title path suf : string) :
  str_all (not_char "]") title = true ->
  path <> "" -> str_all (not_char ")") path = true ->
  match_at inline_re bef ("![" +:+ title +:+ "](" +:+ path +:+ ")" +:+ suf)
  = Some ([Some ("![" +:+ title +:+ "](" +:+ path +:+ ")"); Some title;
           Some path], suf).
Proof.
  intros Ht Hne Hp.
  apply (match_at_intro inline_re _ _
           (MState (rev_onto ("![" +:+ title +:+ "](" +:+ path +:+ ")") bef)
              suf [None; Some title; Some path])
           ("![" +:+ title +:+ "](" +:+ path +:+ ")")).
  2: { cbn [rest]. by rewrite !str_app_assoc. }
  change (replicate (S (ngroups inline_re)) None)
    with ([None; None; None] : list (option string)).
  unfold inline_re, star, plus. cbn [go]. rewrite !go_Lit.
  cbn [rest before groups]. rewrite startswith_app, drop_app_length.
  apply rep_greedy_max; [done | cbn; lia | done |].
  rewrite go_Lit. unfold set_group. cbn [rest before groups].
  rewrite startswith_app, drop_app_length, consumed_app.
  apply rep_greedy_max; [done | by apply length_nonempty | done |].
  unfold Chr. cbn [go rest before groups String.append].
  change (is_char ")" ")") with true. cbn iota.
  rewrite consumed_app.
  repeat first [rewrite !rev_onto_app | progress cbn [rev_onto]]. done.
Qed.

(** One line of text with a reference the resolver does not support. *)
Lemma inline_rules_raise fs (pre title path post : string) blobs :
  str_all plain pre = true ->
  str_all plain title = true -> str_all (not_char "]") title = true ->
  path <> "" -> str_all plain path = true ->
  str_all (not_char ")") path = true ->
  str_all plain post = true ->
  endswith_any image_suffixes (lower path) = false ->
  endswith_any source_suffixes (lower path) = false ->
  apply_rules (rules fs)
    (NL +:+ (pre +:+ "![" +:+ title +:+ "](" +:+ path +:+ ")" +:+ post)
     +:+ NL) blobs
  = Raise (RuntimeError ("Cannot inline <" +:+ path +:+ ">")).
Proof.
  intros Hpre Ht Ht' Hne Hp Hp' Hpost Hi Hs. unfold rules.
  skip_pass "`"%char. do 4 skip_pass "<"%char. skip_pass ":"%char.
  do 3 (erewrite apply_rules_skip_block by first [reflexivity | count_plain]).
  apply apply_rules_raise. cbn [pattern replacement]. unfold sub.
  rewrite !str_app_assoc. unfold NL at 1. cbn [String.append].
  eapply sub_from_step_raise; [no_match_here |].
  eapply sub_from_prefix_raise; [reflexivity | inert_segment |].
  match goal with
  | |- sub_from _ _ 0 _ ?d _ = _ =>
      replace d
        with (("![" +:+ title +:+ "](" +:+ path +:+ ")") +:+ (post +:+ NL))
        by str_norm
  end.
  eapply sub_from_match_raise.
  - done.
  - rewrite !str_app_assoc. by apply inline_match.
  - cbn [apply_repl]. by apply inline_unsupported.
Qed.

(** * The claims *)

(** C1 (amended). A document of one line that has the text
    [**bold** and *italic*] between two stretches of ordinary characters
    (none of the characters that a rule looks for, no digit, no line break)
    is converted to one paragraph in which that text reads
    [<b>bold</b> and <i>italic</i>], the rest unchanged.  The order of the
    two rules matters: run on the text in the other order, italics first,
    the single stars pair up across the double ones and the bold rule finds
    nothing left. *)
Theorem bold_before_italic fs (pre post : string) blobs0 :
  str_all plain pre = true -> str_all plain post = true ->
  run (markup fs (pre +:+ "**bold** and *italic*" +:+ post)) blobs0
  = Ok ("<p>" +:+ pre +:+ "<b>bold</b> and <i>italic</i>" +:+ post
        +:+ "</p>" +:+ NL)
  /\ apply_rules [Rule "\*(.+?)\*" (span_re "*" "*") (Template italics);
                  Rule "\*\*(.+?)\*\*" (span_re "**" "**") (Template bold)]
       "**bold** and *italic*" []
     = Ok ("<i>*bold</i><i> and </i>italic*", []).
Proof.
  intros Hpre Hpost. split; [| by vm_compute].
  unfold run, markup, clear, bind.
  rewrite bold_italic_rules by done. unfold resolve.
  replace (NL +:+ "<p>" +:+ pre +:+ "<b>bold</b> and <i>italic</i>" +:+ post
           +:+ "</p>" +:+ NL)
    with (NL +:+ "<p>"
          +:+ (pre +:+ "<b>bold</b> and <i>italic</i>" +:+ post)
          +:+ "</p>" +:+ NL)
    by (by rewrite !str_app_assoc).
  rewrite strip_paragraph.
  replace ("<p>" +:+ (pre +:+ "<b>bold</b> and <i>italic</i>" +:+ post)
           +:+ "</p>")
    with ("<p>" +:+ pre +:+ "<b>bold</b> and <i>italic</i>" +:+ post
          +:+ "</p>")
    by (by rewrite !str_app_assoc).
  rewrite format_plain; [by rewrite !str_app_assoc |].
  rewrite !str_all_app.
  repeat (apply andb_true_intro; split);
    first [ by apply plain_no_brace | by vm_compute ].
Qed.

Lemma bold_before_italic_witness :
  run (markup no_files ("see " +:+ "**bold** and *italic*" +:+ " here")) []
  = Ok ("<p>" +:+ "see " +:+ "<b>bold</b> and <i>italic</i>" +:+ " here"
        +:+ "</p>" +:+ NL).
Proof.
  apply (bold_before_italic no_files "see " " here" []); vm_compute;
    reflexivity.
Defined.

(** C1, counterexample.  The text on a line of its own inside a fenced
    block is kept as it is: the output has the stars and no bold or italic
    element. *)
Lemma bold_italic_inside_fence :
  run (markup no_files
         ("```" +:+ NL +:+ "**bold** and *italic*" +:+ NL +:+ "```")) []
  = Ok (tpl 1 22 "**bold** and *italic*" +:+ NL)
  /\ contains "<b>bold</b> and <i>italic</i>"
       (tpl 1 22 "**bold** and *italic*" +:+ NL) = false.
Proof. split; vm_compute; reflexivity. Qed.




(** C3 (amended). The slug of a heading text is obtained character by
    character: an ASCII letter gives its lowercase, a digit itself, the
    space, the hyphen, the underscore and the slash a hyphen, and every
    other character, the other whitespace characters included, nothing;
    and the heading rule puts that slug in the [id] attribute. *)
Theorem slugify_char_by_char (text : string) :
  translate slugify text = str_flat_map slug_char text
  /\ forall g0 hashes blobs,
       heading [g0; Some hashes; Some text] blobs
       = Ok ("<h" +:+ str_of_nat (String.length hashes) +:+ " id=" +:+ DQ
             +:+ str_flat_map slug_char text +:+ DQ +:+ ">" +:+ text
             +:+ "</h" +:+ str_of_nat (String.length hashes) +:+ ">", blobs).
Proof.
  split; [apply translate_slugify |].
  intros g0 hashes blobs. unfold heading. cbn [match_groups tail].
  by rewrite translate_slugify.
Qed.

(** C3, as stated, fails on a whitespace character other than the space:
    the tabulation is a whitespace character, the claim maps it to a
    hyphen, the translator drops it. *)
Lemma slugify_drops_tab :
  is_space "009" = true
  /\ str_flat_map slug_char_claimed ("a" +:+ String "009" "b") = "a-b"
  /\ translate slugify ("a" +:+ String "009" "b") = "ab"
  /\ run (markup no_files ("# a" +:+ String "009" "b")) []
     = Ok ("<h1 id=" +:+ DQ +:+ "ab" +:+ DQ +:+ ">a" +:+ String "009" "b</h1>"
           +:+ NL).
Proof. repeat split; vm_compute; reflexivity. Qed.

(** C4 (amended). For a reference whose lowercased path ends with none of
    the strings png, jpg, jpeg, gif, svg, py, js, the resolver raises the
    [RuntimeError] whose message names the path, whatever the files and the
    vault, and returns no HTML; and a document of one line of ordinary
    characters with such a reference in it is not converted: [markup] raises
    that error. *)
Theorem unsupported_inline_raises fs g0 (title src : string) blobs :
  endswith_any image_suffixes (lower src) = false ->
  endswith_any source_suffixes (lower src) = false ->
  inline fs [g0; Some title; Some src] blobs
  = Raise (RuntimeError ("Cannot inline <" +:+ src +:+ ">"))
  /\ forall (pre post : string) blobs0,
       str_all plain pre = true ->
       str_all plain title = true -> str_all (not_char "]") title = true ->
       src <> "" -> str_all plain src = true ->
       str_all (not_char ")") src = true ->
       str_all plain post = true ->
       run (markup fs (pre +:+ "![" +:+ title +:+ "](" +:+ src +:+ ")"
                       +:+ post)) blobs0
       = Raise (RuntimeError ("Cannot inline <" +:+ src +:+ ">")).
Proof.
  intros Hi Hs. split; [by apply inline_unsupported |].
  intros pre post blobs0 Hpre Ht Ht' Hne Hp Hp' Hpost.
  unfold run, markup, clear, bind. by rewrite inline_rules_raise.
Qed.

Lemma unsupported_inline_raises_witness :
  inline no_files [None; Some "x"; Some "file.pdf"] []
  = Raise (RuntimeError "Cannot inline <file.pdf>")
  /\ run (markup no_files ("see " +:+ "![" +:+ "x" +:+ "](" +:+ "file.pdf"
                           +:+ ")" +:+ " here")) []
     = Raise (RuntimeError "Cannot inline <file.pdf>").
Proof.
  destruct (unsupported_inline_raises no_files None "x" "file.pdf" []
              eq_refl eq_refl) as [H1 H2].
  split; [exact H1 |].
  apply (H2 "see " " here" []); first [discriminate | vm_compute; reflexivity].
Defined.

(** C4, as stated, fails: the extension of [lib.mjs] is [mjs], in neither
    set, and the resolver takes the source-code branch: it reads the file
    and renders it, or fails on the missing file. *)
Lemma inline_mjs_takes_source_branch :
  extension_in image_suffixes "lib.mjs" = false
  /\ extension_in source_suffixes "lib.mjs" = false
  /\ run (markup (fun _ => Some "x = 1") "![m](lib.mjs)") []
     = Ok (tpl 1 6 "x = 1" +:+ NL)
  /\ run (markup no_files "![m](lib.mjs)") []
     = Raise (FileNotFoundError "lib.mjs").
Proof. repeat split; vm_compute; reflexivity. Qed.

(** C5 (amended). The resolver returns the image tag, with the path as
    [src] and the reference text as [title], exactly when the lowercased
    path ends with one of the strings png, jpg, jpeg, gif, svg (a suffix
    test: no dot is asked for); for every other path its result, if any, is
    a placeholder token. *)
Theorem inline_image_iff_suffix fs g0 (title src : string) blobs :
  ((exists blobs',
      inline fs [g0; Some title; Some src] blobs
      = Ok (img_tag src title, blobs'))
   <-> endswith_any image_suffixes (lower src) = true)
  /\ (endswith_any image_suffixes (lower src) = true ->
      inline fs [g0; Some title; Some src] blobs
      = Ok (img_tag src title, blobs))
  /\ (endswith_any image_suffixes (lower src) = false ->
      forall out blobs',
        inline fs [g0; Some title; Some src] blobs = Ok (out, blobs') ->
        startswith "{" out = true).
Proof.
  split; [| split].
  - split.
    + intros [blobs' H].
      destruct (endswith_any image_suffixes (lower src)) eqn:E; [done |].
      by apply (inline_not_image _ _ _ _ _ _ _ E) in H.
    + intros H. exists blobs. by apply inline_image.
  - apply inline_image.
  - intros H out blobs'. by apply inline_not_image.
Qed.

(** C5, as stated, fails: the extension of [file.apng] is [apng], which is
    not in the image set, and the resolver takes the image branch. *)
Lemma inline_apng_is_image :
  extension_in image_suffixes "file.apng" = false
  /\ inline no_files [None; Some "x"; Some "file.apng"] []
     = Ok (img_tag "file.apng" "x", []).
Proof. split; vm_compute; reflexivity. Qed.






(** C8 (amended). A document with three item lines [- a], [- b], [- c]
    between two blank lines, after one paragraph and before another, where
    the items and the paragraphs are not empty and are made of ordinary
    characters, is converted to the first paragraph, one list and the
    second paragraph: the list container is opened once, before the first
    item, and closed once, after the third, and each item is one [<li>]
    element. *)
Theorem three_items_one_list fs (x a b c y : string) blobs0 :
  x <> "" -> str_all plain x = true ->
  a <> "" -> str_all plain a = true ->
  b <> "" -> str_all plain b = true ->
  c <> "" -> str_all plain c = true ->
  y <> "" -> str_all plain y = true ->
  exists out,
    run (markup fs (x +:+ NL +:+ NL +:+ "- " +:+ a +:+ NL +:+ "- " +:+ b
                    +:+ NL +:+ "- " +:+ c +:+ NL +:+ NL +:+ y)) blobs0
    = Ok out
    /\ out = "<p>" +:+ x +:+ "</p>" +:+ NL +:+ NL +:+ "<ul>" +:+ NL
             +:+ "<li>" +:+ a +:+ "</li>" +:+ NL
             +:+ "<li>" +:+ b +:+ "</li>" +:+ NL
             +:+ "<li>" +:+ c +:+ "</li>" +:+ NL +:+ "</ul>" +:+ NL +:+ NL
             +:+ "<p>" +:+ y +:+ "</p>" +:+ NL
    /\ count "<ul>" out = 1 /\ count "<li>" out = 3
    /\ count "</ul>" out = 1.
Proof.
  intros Hx' Hx Ha' Ha Hb' Hb Hc' Hc Hy' Hy.
  eexists. split; [| split; [reflexivity |]].
  - unfold run, markup, clear, bind.
    replace (NL +:+ (x +:+ NL +:+ NL +:+ "- " +:+ a +:+ NL +:+ "- " +:+ b
                     +:+ NL +:+ "- " +:+ c +:+ NL +:+ NL +:+ y) +:+ NL)
      with (NL +:+ x +:+ NL +:+ NL +:+ "- " +:+ a +:+ NL +:+ "- " +:+ b
            +:+ NL +:+ "- " +:+ c +:+ NL +:+ NL +:+ y +:+ NL)
      by (by rewrite !str_app_assoc).
    rewrite list_rules by done. unfold resolve.
    pose (body := x +:+ "</p>" +:+ NL +:+ NL +:+ "<ul>" +:+ NL
                  +:+ "<li>" +:+ a +:+ "</li>" +:+ NL
                  +:+ "<li>" +:+ b +:+ "</li>" +:+ NL
                  +:+ "<li>" +:+ c +:+ "</li>" +:+ NL +:+ "</ul>" +:+ NL
                  +:+ NL +:+ "<p>" +:+ y).
    match goal with
    | |- context [strip ?d] =>
        replace d with (NL +:+ "<p>" +:+ body +:+ "</p>" +:+ NL)
          by (subst body; by rewrite !str_app_assoc)
    end.
    rewrite strip_paragraph, format_plain.
    + f_equal. subst body. by rewrite !str_app_assoc.
    + subst body. rewrite !str_all_app.
      repeat (apply andb_true_intro; split);
        first [ by apply plain_no_brace | by vm_compute ].
  - repeat split; count_occurrences.
Qed.

Lemma three_items_one_list_witness :
  exists out,
    run (markup no_files
           ("Before" +:+ NL +:+ NL +:+ "- " +:+ "one" +:+ NL +:+ "- " +:+ "two"
            +:+ NL +:+ "- " +:+ "three" +:+ NL +:+ NL +:+ "After")) []
    = Ok out
    /\ out = "<p>" +:+ "Before" +:+ "</p>" +:+ NL +:+ NL +:+ "<ul>" +:+ NL
             +:+ "<li>" +:+ "one" +:+ "</li>" +:+ NL
             +:+ "<li>" +:+ "two" +:+ "</li>" +:+ NL
             +:+ "<li>" +:+ "three" +:+ "</li>" +:+ NL +:+ "</ul>" +:+ NL
             +:+ NL +:+ "<p>" +:+ "After" +:+ "</p>" +:+ NL
    /\ count "<ul>" out = 1 /\ count "<li>" out = 3
    /\ count "</ul>" out = 1.
Proof.
  apply (three_items_one_list no_files "Before" "one" "two" "three" "After");
    first [ discriminate | vm_compute; reflexivity ].
Defined.

(** C8, counterexample.  Three item lines between two blank lines inside a
    fenced block are kept as they are: the output has no list container and
    no item element. *)
Lemma items_inside_fence :
  run (markup no_files
         ("```" +:+ NL +:+ NL +:+ "- a" +:+ NL +:+ "- b" +:+ NL +:+ "- c"
          +:+ NL +:+ NL +:+ "```")) []
  = Ok (tpl 3 4 ("- a" +:+ NL +:+ "- b" +:+ NL +:+ "- c") +:+ NL)
  /\ count "<ul>" (tpl 3 4 ("- a" +:+ NL +:+ "- b" +:+ NL +:+ "- c") +:+ NL)
     = 0
  /\ count "<li>" (tpl 3 4 ("- a" +:+ NL +:+ "- b" +:+ NL +:+ "- c") +:+ NL)
     = 0.
Proof. repeat split; vm_compute; reflexivity. Qed.

(** C9 (amended). A document of two lines, [x[1]] and [[1]: y], where [x]
    and [y] are made of ordinary characters, [x] is not empty and [y] is
    not empty and does not end in whitespace, is converted to a paragraph
    with [x] and an anchor of id [1text] and href [#1foot], followed by a
    line with an anchor of id [1foot] and href [#1text] and then [y].  The
    order of the two rules matters: run on the definition line in the other
    order, the reference rule takes the marker and leaves the colon in the
    text. *)
Theorem footnote_anchors_cross_reference fs (x y : string) blobs0 :
  x <> "" -> str_all plain x = true ->
  y <> "" -> str_all plain y = true -> rstrip y = y ->
  run (markup fs (x +:+ "[1]" +:+ NL +:+ "[1]: " +:+ y)) blobs0
  = Ok ("<p>" +:+ x +:+ note_anchor "1text" "#1foot" "1" +:+ "</p>" +:+ NL
        +:+ note_anchor "1foot" "#1text" "1" +:+ " " +:+ y +:+ NL)
  /\ apply_rules [Rule "\[(\d+)\]" note_text_re (Template note_text);
                  Rule "\[(\d+)\]:" note_foot_re (Template note_foot)]
       "[1]: source" []
     = Ok (note_anchor "1text" "#1foot" "1" +:+ ": source", []).
Proof.
  intros Hx' Hx Hy' Hy Hy''. split; [| by vm_compute].
  unfold run, markup, clear, bind.
  replace (NL +:+ (x +:+ "[1]" +:+ NL +:+ "[1]: " +:+ y) +:+ NL)
    with (NL +:+ x +:+ "[1]" +:+ NL +:+ "[1]: " +:+ y +:+ NL)
    by (by rewrite !str_app_assoc).
  rewrite footnote_rules by done. unfold resolve, strip.
  pose (head := "<p>" +:+ x +:+ note_anchor "1text" "#1foot" "1" +:+ "</p>"
                +:+ NL +:+ note_anchor "1foot" "#1text" "1" +:+ " ").
  match goal with
  | |- context [rstrip (lstrip ?d)] =>
      replace (lstrip d) with (head +:+ (y +:+ NL))
        by (subst head; by rewrite !str_app_assoc)
  end.
  rewrite rstrip_app; rewrite rstrip_newline, Hy''; [| done].
  rewrite format_plain.
  - f_equal. subst head. by rewrite !str_app_assoc.
  - subst head. rewrite !str_all_app.
    repeat (apply andb_true_intro; split);
      first [ by apply plain_no_brace | by vm_compute ].
Qed.

Lemma footnote_anchors_cross_reference_witness :
  run (markup no_files ("text" +:+ "[1]" +:+ NL +:+ "[1]: " +:+ "source")) []
  = Ok ("<p>" +:+ "text" +:+ note_anchor "1text" "#1foot" "1" +:+ "</p>"
        +:+ NL +:+ note_anchor "1foot" "#1text" "1" +:+ " " +:+ "source"
        +:+ NL).
Proof.
  apply (footnote_anchors_cross_reference no_files "text" "source" []);
    first [ discriminate | vm_compute; reflexivity ].
Defined.

(** C9, counterexample.  The two lines inside a fenced block are kept as
    they are: the output has neither anchor. *)
Lemma footnote_inside_fence :
  run (markup no_files
         ("```" +:+ NL +:+ "text[1]" +:+ NL +:+ "[1]: source" +:+ NL
          +:+ "```")) []
  = Ok (tpl 2 12 ("text[1]" +:+ NL +:+ "[1]: source") +:+ NL)
  /\ contains ("id=" +:+ DQ +:+ "1text" +:+ DQ)
       (tpl 2 12 ("text[1]" +:+ NL +:+ "[1]: source") +:+ NL) = false
  /\ contains ("id=" +:+ DQ +:+ "1foot" +:+ DQ)
       (tpl 2 12 ("text[1]" +:+ NL +:+ "[1]: source") +:+ NL) = false.
Proof. repeat split; vm_compute; reflexivity. Qed.

(** C10. A document in which the fenced-code rule finds a block whose
    content (group 1, the text between the triple backticks) is all
    whitespace is not converted: the code-area transform raises the
    [ValueError] of [max] over no lines, whatever the rest of the document,
    the files and the vault left by an earlier call. *)
Theorem blank_fence_raises fs (text : string) blobs0 gs (g : string) :
  In gs (finditer codearea_re (NL +:+ text +:+ NL)) ->
  group 1 gs = Some g ->
  str_all is_space g = true ->
  run (markup fs text) blobs0 = Raise (ValueError MaxOfEmpty).
Proof.
  intros Hin Hg Hspace. apply markup_first_pass. unfold sub.
  apply sub_from_raises.
  - intros gs' Hin' blobs.
    apply finditer_from_inv in Hin' as (b & r0 & r1 & Hm).
    apply codearea_match_inv in Hm as (g' & _ & _ & ->).
    apply codearea_outcomes.
  - exists gs. split; [done |]. intros blobs.
    apply finditer_from_inv in Hin as (b & r0 & r1 & Hm).
    apply codearea_match_inv in Hm as (g' & _ & _ & ->).
    rewrite group_1 in Hg. injection Hg as ->. by apply codearea_blank.
Qed.

Lemma blank_fence_raises_witness :
  In [Some "``` ```"; Some " "] (finditer codearea_re (NL +:+ "``` ```" +:+ NL))
  /\ run (markup no_files "``` ```") [] = Raise (ValueError MaxOfEmpty).
Proof.
  split; [left; vm_compute; reflexivity |].
  apply (blank_fence_raises no_files "``` ```" []
           [Some "``` ```"; Some " "] " ");
    [left; vm_compute; reflexivity | reflexivity | reflexivity].
Defined.

(** * Further properties of the program *)

(** ** The vault *)

(** X1. Preserving a fragment and resolving the token it returns gives the
    fragment back, and the tokens handed out before still resolve to their
    fragments: the vault only grows at its end. *)
Theorem preserve_then_resolve (blob : string) (blobs : list string) :
  (N.of_nat (length blobs) <= PY_SSIZE_T_MAX)%N ->
  exists token,
    preserve blob blobs = Ok (token, blobs ++ [blob])
    /\ format token (blobs ++ [blob]) = Ok blob
    /\ forall i earlier,
         blobs !! i = Some earlier ->
         format ("{" +:+ str_of_nat i +:+ "}") (blobs ++ [blob]) = Ok earlier.
Proof.
  intros Hn. eexists. split; [apply preserve_token |]. split.
  - rewrite format_token by done.
    by rewrite lookup_app_r, Nat.sub_diag by done.
  - intros i earlier Hi.
    assert (i < length blobs) as Hlt by (by eapply lookup_lt_Some).
    rewrite format_token by lia.
    by rewrite lookup_app_l, Hi by done.
Qed.

Lemma preserve_then_resolve_witness :
  exists token,
    preserve "<pre>b</pre>" ["a"] = Ok (token, ["a"] ++ ["<pre>b</pre>"])
    /\ format token (["a"] ++ ["<pre>b</pre>"]) = Ok "<pre>b</pre>"
    /\ forall i earlier,
         ["a"] !! i = Some earlier ->
         format ("{" +:+ str_of_nat i +:+ "}") (["a"] ++ ["<pre>b</pre>"])
         = Ok earlier.
Proof.
  apply (preserve_then_resolve "<pre>b</pre>" ["a"]). vm_compute. discriminate.
Defined.

(** ** The slugifier *)

Lemma slug_char_alphabet (c : ascii) :
  str_all (fun x => is_ascii_lower x || is_digit x || Ascii.eqb x "-")
    (slug_char c) = true
  /\ String.length (slug_char c) <= 1.
Proof.
  split.
  - refine (forall_ascii (fun c => str_all _ (slug_char c)) _ c).
    vm_compute. reflexivity.
  - apply Nat.leb_le.
    refine (forall_ascii (fun c => String.length (slug_char c) <=? 1) _ c).
    vm_compute. reflexivity.
Qed.

(** X2. A slug has lowercase ASCII letters, digits and hyphens only, and is
    never longer than the text it is made from. *)
Theorem slug_alphabet (text : string) :
  str_all (fun x => is_ascii_lower x || is_digit x || Ascii.eqb x "-")
    (translate slugify text) = true
  /\ String.length (translate slugify text) <= String.length text.
Proof.
  rewrite translate_slugify.
  induction text as [|c text [IH1 IH2]]; [done |].
  cbn [str_flat_map String.length]. rewrite str_all_app, str_length_app.
  destruct (slug_char_alphabet c) as [-> ?]. split; [done | lia].
Qed.

(** X3. Slugifying is idempotent: the slug of a slug is the slug. *)
Theorem slug_idempotent (text : string) :
  translate slugify (translate slugify text) = translate slugify text.
Proof.
  rewrite !translate_slugify.
  assert (forall a b, str_flat_map slug_char (a +:+ b)
                      = str_flat_map slug_char a +:+ str_flat_map slug_char b)
    as Happ.
  { intros a b. induction a as [|x a IH]; [done |].
    cbn [String.append str_flat_map]. by rewrite IH, str_app_assoc. }
  induction text as [|c text IH]; [done |].
  cbn [str_flat_map]. rewrite Happ, IH. f_equal.
  apply String.eqb_eq.
  refine (forall_ascii
    (fun c => String.eqb (str_flat_map slug_char (slug_char c)) (slug_char c))
    _ c).
  vm_compute. reflexivity.
Qed.


(** ** Inlined source files *)

Lemma whole_text_match (content : string) :
  match_at (Grp 1 (star anything)) "" content
  = Some ([Some content; Some content], "").
Proof.
  apply (match_at_intro _ _ _
           (MState (rev_onto content "") "" [None; Some content]) content);
    [| by rewrite str_app_nil_r].
  unfold star. cbn [go ngroups Nat.max replicate rest before groups].
  rewrite <- (str_app_nil_r content) at 1.
  apply rep_greedy_max; [apply anything_all | lia | done |].
  unfold set_group. cbn [rest before groups].
  rewrite (consumed_eq _ _ content) by (by rewrite str_app_nil_r). done.
Qed.

Lemma strip_nonspace (s : string) :
  str_all is_space s = false -> strip s <> "".
Proof.
  unfold strip. induction s as [|c s IH]; [done |].
  cbn [str_all lstrip]. destruct (is_space c) eqn:E; [done |].
  intros _. cbn [rstrip]. rewrite E. by destruct (rstrip s).
Qed.

(** X5. A reference whose lowercased path ends with [py] or [js], and with
    no image suffix, inlines the file of that path, read under the name as
    written: a missing file is a [FileNotFoundError], a file that is empty
    or all whitespace a [ValueError] (the widest line of no lines), and any
    other file is stored in the vault as a code container around its
    trimmed text, for which the reference's title plays no part. *)
Theorem inline_source_file fs g0 (title src : string) blobs :
  endswith_any image_suffixes (lower src) = false ->
  endswith_any source_suffixes (lower src) = true ->
  inline fs [g0; Some title; Some src] blobs
  = match fs src with
    | None => Raise (FileNotFoundError src)
    | Some content =>
        if str_all is_space content
        then Raise (ValueError MaxOfEmpty)
        else Ok ("{" +:+ str_of_nat (length blobs) +:+ "}",
                 blobs ++ [code_container (strip content)])
    end.
Proof.
  intros Hi Hs. unfold inline. cbn [match_groups tail]. rewrite Hi, Hs.
  destruct (fs src) as [content|]; [| done].
  rewrite whole_text_match.
  destruct (str_all is_space content) eqn:E.
  - by apply codearea_blank.
  - by apply codearea_renders, strip_nonspace.
Qed.

Lemma inline_source_file_witness :
  inline (fun _ => Some "x = 1") [None; Some "t"; Some "Lib.PY"] []
  = Ok ("{0}", [tpl 1 6 "x = 1"]).
Proof.
  exact (inline_source_file (fun _ => Some "x = 1") None "t" "Lib.PY" []
           eq_refl eq_refl).
Defined.

(** ** Documents of lines of text *)

Lemma join_unlines (ls : list string) :
  ls <> [] -> join NL ls +:+ NL = unlines ls.
Proof.
  induction ls as [|l ls IH]; [done |]. intros _.
  destruct ls as [|l' ls]; [cbn [join unlines]; by rewrite str_app_nil_r |].
  change (join NL (l :: l' :: ls)) with (l +:+ NL +:+ join NL (l' :: ls)).
  change (unlines (l :: l' :: ls)) with (l +:+ NL +:+ unlines (l' :: ls)).
  rewrite <- IH by done. by rewrite !str_app_assoc.
Qed.

Lemma unlines_app (a b : list string) :
  unlines (a ++ b) = unlines a +:+ unlines b.
Proof.
  induction a as [|l a IH]; [done |]. cbn [app unlines].
  by rewrite IH, !str_app_assoc.
Qed.

Lemma str_all_unlines (p : ascii -> bool) (ls : list string) :
  p nl = true -> Forall (fun l => str_all p l = true) ls ->
  str_all p (unlines ls) = true.
Proof.
  intros Hnl. induction 1 as [|l ls Hl _ IH]; [done |].
  cbn [unlines]. rewrite !str_all_app, Hl, IH. cbn. by rewrite Hnl.
Qed.

Lemma first_block_line (marker : re) (c : ascii) :
  first (block_line_re marker) c = is_char nl c.
Proof.
  unfold block_line_re. cbn [first empty_ok any_as Chr andb orb].
  by rewrite !orb_false_r.
Qed.

Lemma stops_app_nonempty (p : ascii -> bool) (a t : string) :
  a <> "" -> stops p a -> stops p (a +:+ t).
Proof. by destruct a. Qed.

(** A block rule finds nothing in a document none of whose lines begins
    like its marker. *)
Lemma block_lines_none (marker : re) rp (ls : list string) blobs :
  empty_ok marker = false ->
  Forall (fun l => str_all (not_char nl) l = true
                   /\ stops (first marker) (l +:+ NL)) ls ->
  forall bef,
    sub_from (block_line_re marker) rp 0 bef (NL +:+ unlines ls) blobs
    = Ok (NL +:+ unlines ls, blobs).
Proof.
  intros He. induction 1 as [|l ls [Hl Hs] _ IH]; intros bef.
  - cbn [unlines NL String.append].
    eapply sub_from_step_ok; [by apply block_line_second |].
    by apply sub_from_end_ok.
  - cbn [unlines]. unfold NL at 1 3. cbn [String.append].
    eapply sub_from_step_ok.
    { apply block_line_second; [done |].
      rewrite <- str_app_assoc. apply stops_app_nonempty; [| done].
      by destruct l. }
    eapply sub_from_prefix_ok; [done | | apply IH].
    eapply str_all_impl; [| exact Hl]. intros c Hc.
    rewrite first_block_line. exact Hc.
Qed.

Lemma text_line_plain (l : string) :
  text_line l = true -> str_all plain l = true.
Proof. unfold text_line. by intros [? _]%andb_true_iff. Qed.

Lemma text_line_wrapped (l : string) :
  text_line l = true -> par_line l = wrapped l.
Proof.
  intros H%text_line_plain. destruct l as [|c l]; [done |].
  by rewrite par_line_whole.
Qed.

Lemma wrapped_nonempty (l : string) :
  l <> "" -> wrapped l = "<p>" +:+ l +:+ "</p>".
Proof. by destruct l. Qed.

Lemma text_line_stops (marker : re) (l : string) :
  forallb (fun c => implb (plain c && negb (Ascii.eqb " " c))
                      (negb (first marker c))) all_ascii = true ->
  first marker nl = false ->
  text_line l = true -> stops (first marker) (l +:+ NL).
Proof.
  intros Hm Hnl. unfold text_line. intros [Hp Hs]%andb_true_iff.
  destruct l as [|c l]; [exact Hnl |].
  cbn [str_all startswith] in *. apply andb_true_iff in Hp as [Hc _].
  rewrite andb_true_r in Hs. cbn [String.append stops].
  apply negb_true_iff.
  apply (by_ascii (fun c => plain c && negb (Ascii.eqb " " c)) _ Hm).
  by rewrite Hc, Hs.
Qed.

Ltac skip_absent H c :=
  rewrite (apply_rules_skip c)
    by (rewrite (count_char_absent _ c _ H eq_refl); vm_compute; lia).

Ltac block_rule_none H :=
  rewrite apply_rules_none
    by (cbn [pattern replacement]; apply block_lines_none; [reflexivity |];
        eapply Forall_impl; [exact H |]; intros l Hl; split;
        [ by apply plain_no_newline, text_line_plain
        | apply text_line_stops;
          [vm_compute; reflexivity | reflexivity | done] ]).

(** All the rules over lines of text: each line that is not empty is
    wrapped in a paragraph element on its own. *)
Lemma text_lines_rules fs (ls : list string) blobs :
  Forall (fun l => text_line l = true) ls ->
  apply_rules (rules fs) (NL +:+ unlines ls) blobs
  = Ok (NL +:+ unlines (wrapped <$> ls), blobs).
Proof.
  intros H.
  assert (str_all (fun c => plain c || Ascii.eqb c nl) (NL +:+ unlines ls)
          = true) as Hdoc.
  { rewrite str_all_app. apply andb_true_intro. split; [done |].
    apply str_all_unlines; [done |].
    eapply Forall_impl; [exact H |]. intros l Hl%text_line_plain.
    eapply str_all_impl; [| exact Hl]. intros c ->. done. }
  assert (str_all (fun c => plain c || Ascii.eqb c nl || one_of "<>" c)
            (NL +:+ unlines (wrapped <$> ls)) = true) as Hout.
  { rewrite str_all_app. apply andb_true_intro. split; [done |].
    apply str_all_unlines; [done |]. apply Forall_fmap.
    eapply Forall_impl; [exact H |]. intros l Hl%text_line_plain.
    unfold compose. destruct (decide (l = "")) as [->|Hne]; [done |].
    rewrite wrapped_nonempty by done. rewrite !str_all_app.
    apply andb_true_intro. split; [done |].
    apply andb_true_intro. split; [| done].
    eapply str_all_impl; [| exact Hl]. by intros x ->. }
  unfold rules.
  skip_absent Hdoc "`"%char. do 4 skip_absent Hdoc "<"%char.
  skip_absent Hdoc ":"%char.
  do 3 block_rule_none H.
  skip_absent Hdoc "!"%char. skip_absent Hdoc ">"%char.
  skip_absent Hdoc "#"%char. skip_absent Hdoc "-"%char.
  do 2 skip_absent Hdoc "["%char.
  erewrite apply_rules_step.
  2: { cbn [pattern replacement]. apply paragraph_pass.
       eapply Forall_impl; [exact H |]. intros l Hl.
       by apply plain_no_newline, text_line_plain. }
  replace (par_line <$> ls) with (wrapped <$> ls).
  2: { apply Forall_fmap_ext. eapply Forall_impl; [exact H |].
       intros l Hl. by rewrite text_line_wrapped. }
  do 2 skip_absent Hout "*"%char. skip_absent Hout "_"%char.
  skip_absent Hout "~"%char. skip_absent Hout "`"%char.
  rewrite apply_rules_skip_first.
  2: done.
  2: { eapply str_all_impl; [| exact Hout]. apply by_ascii.
       vm_compute. reflexivity. }
  skip_absent Hout "-"%char. skip_absent Hout ":"%char.
  skip_absent Hout "["%char.
  reflexivity.
Qed.

Lemma strip_wrapped_lines (ls : list string) (a z : string) :
  head ls = Some a -> a <> "" -> last ls = Some z -> z <> "" ->
  strip (NL +:+ unlines (wrapped <$> ls)) +:+ NL = unlines (wrapped <$> ls).
Proof.
  intros Ha Hane Hz Hzne. unfold strip.
  assert (lstrip (NL +:+ unlines (wrapped <$> ls)) = unlines (wrapped <$> ls))
    as ->.
  { destruct ls as [|a' tl]; [done |]. injection Ha as ->.
    cbn [fmap list_fmap unlines]. by rewrite wrapped_nonempty. }
  apply last_Some in Hz as [init ->].
  rewrite fmap_app, unlines_app. cbn [fmap list_fmap unlines].
  rewrite wrapped_nonempty by done.
  replace (("<p>" +:+ z +:+ "</p>") +:+ NL +:+ "")
    with (("<p>" +:+ z) +:+ ("</p>" +:+ NL))
    by (by rewrite !str_app_assoc, str_app_nil_r).
  assert (rstrip (("<p>" +:+ z) +:+ ("</p>" +:+ NL)) = ("<p>" +:+ z) +:+ "</p>")
    as E by (by rewrite rstrip_app by (by vm_compute)).
  rewrite rstrip_app; rewrite E; [by rewrite !str_app_assoc | done].
Qed.

(** X6. A document of lines of ordinary characters, none starting with a
    space, the first and the last not empty, is converted line by line:
    every line that is not empty becomes a paragraph element of its own
    (consecutive lines are not joined into one paragraph) and the empty
    lines stay. *)
Theorem lines_become_paragraphs fs (ls : list string) (a z : string) blobs0 :
  Forall (fun l => text_line l = true) ls ->
  head ls = Some a -> a <> "" -> last ls = Some z -> z <> "" ->
  run (markup fs (join NL ls)) blobs0 = Ok (unlines (wrapped <$> ls)).
Proof.
  intros H Ha Hane Hz Hzne. unfold run, markup, clear, bind.
  rewrite join_unlines by (by destruct ls).
  rewrite text_lines_rules by done. unfold resolve.
  pose proof (strip_wrapped_lines ls a z Ha Hane Hz Hzne) as Hs.
  rewrite format_plain; [by rewrite Hs |].
  assert (str_all (fun c => negb (is_brace c)) (unlines (wrapped <$> ls))
          = true) as Hb.
  { apply str_all_unlines; [done |]. apply Forall_fmap.
    eapply Forall_impl; [exact H |]. intros l Hl%text_line_plain.
    unfold compose. destruct (decide (l = "")) as [->|Hne]; [done |].
    rewrite wrapped_nonempty by done. rewrite !str_all_app.
    apply andb_true_intro. split; [done |].
    apply andb_true_intro. split; [| done]. by apply plain_no_brace. }
  rewrite <- Hs, str_all_app in Hb. by apply andb_true_iff in Hb as [? _].
Qed.

Lemma lines_become_paragraphs_witness :
  run (markup no_files (join NL ["One line."; "Another."; ""; "Last one"])) []
  = Ok (unlines (wrapped <$> ["One line."; "Another."; ""; "Last one"])).
Proof.
  apply (lines_become_paragraphs no_files _ "One line." "Last one");
    [ repeat constructor | reflexivity | discriminate | reflexivity
    | discriminate ].
Defined.

(** ** Spans in a line of text *)

Ltac try_skip :=
  first [ skip_pass "`"%char | skip_pass "<"%char | skip_pass ":"%char
        | skip_pass "!"%char | skip_pass ">"%char | skip_pass "#"%char
        | skip_pass "-"%char | skip_pass "["%char | skip_pass "*"%char
        | skip_pass "_"%char | skip_pass "~"%char ].

Ltac skip_block :=
  erewrite apply_rules_skip_block by first [reflexivity | count_plain].

Ltac not_marker :=
  eapply str_all_impl; [| eassumption]; apply by_ascii; vm_compute;
  reflexivity.

(** The rules over one line with one span [op m cl] in it. *)
Ltac span_rules op cl tpl ot ct c0 pre m post :=
  unfold rules;
  do 6 try_skip; do 3 skip_block; do 6 try_skip;
  erewrite apply_rules_step;
    [| cbn [pattern replacement]; apply paragraph_pass_one_line;
       [ destruct pre; [done | done]
       | rewrite !str_all_app; repeat (apply andb_true_intro; split);
           first [by apply plain_no_newline | vm_compute; reflexivity]
       | by apply startswith_any_plain ] ];
  replace (NL +:+ "<p>" +:+ (pre +:+ op +:+ m +:+ cl +:+ post) +:+ "</p>"
           +:+ NL)
    with ((NL +:+ "<p>" +:+ pre) +:+ op +:+ m +:+ cl
          +:+ (post +:+ "</p>" +:+ NL))
    by (by rewrite !str_app_assoc);
  repeat first
    [ try_skip
    | erewrite apply_rules_step;
        [| cbn [pattern replacement];
           apply (span_pass op cl tpl c0 c0);
             [ done | first_plain | done | done
             | by apply plain_no_newline | not_marker | count_plain ] ];
      change (expand tpl _) with (ot +:+ m +:+ ct) ];
  rewrite apply_rules_skip_first by (done || first_plain);
  do 3 try_skip;
  cbn [apply_rules ret]; by rewrite !str_app_assoc.

Lemma bold_rules fs (pre m post : string) blobs :
  str_all plain pre = true -> m <> "" -> str_all plain m = true ->
  str_all plain post = true ->
  apply_rules (rules fs)
    (NL +:+ (pre +:+ "**" +:+ m +:+ "**" +:+ post) +:+ NL) blobs
  = Ok (NL +:+ "<p>" +:+ pre +:+ "<b>" +:+ m +:+ "</b>" +:+ post +:+ "</p>"
        +:+ NL, blobs).
Proof.
  intros Hpre Hne Hm Hpost.
  span_rules "**" "**" bold "<b>" "</b>" "*"%char pre m post.
Qed.

Lemma italics_rules fs (pre m post : string) blobs :
  str_all plain pre = true -> m <> "" -> str_all plain m = true ->
  str_all plain post = true ->
  apply_rules (rules fs)
    (NL +:+ (pre +:+ "*" +:+ m +:+ "*" +:+ post) +:+ NL) blobs
  = Ok (NL +:+ "<p>" +:+ pre +:+ "<i>" +:+ m +:+ "</i>" +:+ post +:+ "</p>"
        +:+ NL, blobs).
Proof.
  intros Hpre Hne Hm Hpost.
  span_rules "*" "*" italics "<i>" "</i>" "*"%char pre m post.
Qed.

Lemma underline_rules fs (pre m post : string) blobs :
  str_all plain pre = true -> m <> "" -> str_all plain m = true ->
  str_all plain post = true ->
  apply_rules (rules fs)
    (NL +:+ (pre +:+ "__" +:+ m +:+ "__" +:+ post) +:+ NL) blobs
  = Ok (NL +:+ "<p>" +:+ pre +:+ "<u>" +:+ m +:+ "</u>" +:+ post +:+ "</p>"
        +:+ NL, blobs).
Proof.
  intros Hpre Hne Hm Hpost.
  span_rules "__" "__" underline "<u>" "</u>" "_"%char pre m post.
Qed.

Lemma strike_rules fs (pre m post : string) blobs :
  str_all plain pre = true -> m <> "" -> str_all plain m = true ->
  str_all plain post = true ->
  apply_rules (rules fs)
    (NL +:+ (pre +:+ "~~" +:+ m +:+ "~~" +:+ post) +:+ NL) blobs
  = Ok (NL +:+ "<p>" +:+ pre +:+ "<del>" +:+ m +:+ "</del>" +:+ post
        +:+ "</p>" +:+ NL, blobs).
Proof.
  intros Hpre Hne Hm Hpost.
  span_rules "~~" "~~" strike "<del>" "</del>" "~"%char pre m post.
Qed.

Lemma code_rules fs (pre m post : string) blobs :
  str_all plain pre = true -> m <> "" -> str_all plain m = true ->
  str_all plain post = true ->
  apply_rules (rules fs)
    (NL +:+ (pre +:+ "`" +:+ m +:+ "`" +:+ post) +:+ NL) blobs
  = Ok (NL +:+ "<p>" +:+ pre +:+ "<code>" +:+ m +:+ "</code>" +:+ post
        +:+ "</p>" +:+ NL, blobs).
Proof.
  intros Hpre Hne Hm Hpost.
  span_rules "`" "`" code "<code>" "</code>" "`"%char pre m post.
Qed.

Lemma resolve_paragraph (doc body : string) blobs :
  doc = NL +:+ "<p>" +:+ body +:+ "</p>" +:+ NL ->
  str_all (fun c => negb (is_brace c)) body = true ->
  resolve doc blobs = Ok ("<p>" +:+ body +:+ "</p>" +:+ NL, blobs).
Proof.
  intros -> Hb. unfold resolve.
  rewrite strip_paragraph, format_plain; [by rewrite !str_app_assoc |].
  rewrite !str_all_app, Hb. done.
Qed.

Ltac one_paragraph L body :=
  unfold run, markup, clear, bind; rewrite L by done;
  rewrite (resolve_paragraph _ body);
  [ by rewrite !str_app_assoc
  | by rewrite !str_app_assoc
  | rewrite !str_all_app; repeat (apply andb_true_intro; split);
      first [by apply plain_no_brace | by vm_compute] ].

(** X7. In a line of ordinary characters, a stretch [m] of ordinary
    characters between two double stars is rendered as a [<b>] element,
    between two single stars as [<i>], between two double underscores as
    [<u>], between two double tildes as [<del>] and between two backticks
    as [<code>]; the markers are dropped and the line is one paragraph. *)
Theorem spans_are_rendered fs (pre m post : string) blobs0 :
  str_all plain pre = true -> m <> "" -> str_all plain m = true ->
  str_all plain post = true ->
  run (markup fs (pre +:+ "**" +:+ m +:+ "**" +:+ post)) blobs0
  = Ok ("<p>" +:+ pre +:+ "<b>" +:+ m +:+ "</b>" +:+ post +:+ "</p>" +:+ NL)
  /\ run (markup fs (pre +:+ "*" +:+ m +:+ "*" +:+ post)) blobs0
     = Ok ("<p>" +:+ pre +:+ "<i>" +:+ m +:+ "</i>" +:+ post +:+ "</p>"
           +:+ NL)
  /\ run (markup fs (pre +:+ "__" +:+ m +:+ "__" +:+ post)) blobs0
     = Ok ("<p>" +:+ pre +:+ "<u>" +:+ m +:+ "</u>" +:+ post +:+ "</p>"
           +:+ NL)
  /\ run (markup fs (pre +:+ "~~" +:+ m +:+ "~~" +:+ post)) blobs0
     = Ok ("<p>" +:+ pre +:+ "<del>" +:+ m +:+ "</del>" +:+ post +:+ "</p>"
           +:+ NL)
  /\ run (markup fs (pre +:+ "`" +:+ m +:+ "`" +:+ post)) blobs0
     = Ok ("<p>" +:+ pre +:+ "<code>" +:+ m +:+ "</code>" +:+ post +:+ "</p>"
           +:+ NL).
Proof.
  intros Hpre Hne Hm Hpost. repeat split.
  - one_paragraph bold_rules (pre +:+ "<b>" +:+ m +:+ "</b>" +:+ post).
  - one_paragraph italics_rules (pre +:+ "<i>" +:+ m +:+ "</i>" +:+ post).
  - one_paragraph underline_rules (pre +:+ "<u>" +:+ m +:+ "</u>" +:+ post).
  - one_paragraph strike_rules (pre +:+ "<del>" +:+ m +:+ "</del>" +:+ post).
  - one_paragraph code_rules (pre +:+ "<code>" +:+ m +:+ "</code>" +:+ post).
Qed.

Lemma spans_are_rendered_witness :
  run (markup no_files ("a " +:+ "~~" +:+ "gone" +:+ "~~" +:+ " b")) []
  = Ok ("<p>" +:+ "a " +:+ "<del>" +:+ "gone" +:+ "</del>" +:+ " b" +:+ "</p>"
        +:+ NL).
Proof.
  apply (spans_are_rendered no_files "a " "gone" " b" []);
    first [discriminate | vm_compute; reflexivity].
Defined.

(** ** Patterns that look behind *)

Lemma go_guard (r : re) :
  forall st k c b,
    before st = String c b -> guard r c = false -> go r st k = None.
Proof.
  induction r as [|p|greedy lo hi p|r1 IH1 r2 _|r1 _ r2 _|n r1 _|n
                  |w r1 _|r1 _]; intros st k c b Hb Hg; try done.
  - cbn [go]. by apply (IH1 _ _ c b).
  - destruct w as [|[|w]]; [done | | done]. destruct r1; try done.
    cbn [guard] in Hg. cbn [go unread]. rewrite Hb. cbn [go rest].
    by rewrite Hg.
Qed.

Lemma match_at_guard (r : re) (c : ascii) (bef rst : string) :
  guard r c = false -> match_at r (String c bef) rst = None.
Proof. intros H. unfold match_at. by rewrite (go_guard r _ _ c bef). Qed.

Lemma match_at_guard_rev (r : re) (seg : string) :
  forall c acc rst,
    guard r c = false ->
    str_all (fun x => negb (guard r x)) seg = true ->
    match_at r (rev_onto seg (String c acc)) rst = None.
Proof.
  induction seg as [|x seg IH]; intros c acc rst Hc Hs.
  - by apply match_at_guard.
  - cbn [str_all] in Hs. apply andb_true_iff in Hs as [Hx Hs].
    cbn [rev_onto]. apply IH; [by apply negb_true_iff | done].
Qed.

Lemma no_match_in_guard (r : re) (seg : string) :
  forall c bef suf,
    guard r c = false ->
    str_all (fun x => negb (guard r x)) seg = true ->
    no_match_in r (String c bef) seg suf.
Proof.
  induction seg as [|x seg IH]; intros c bef suf Hc Hs; [done |].
  cbn [str_all] in Hs. apply andb_true_iff in Hs as [Hx Hs].
  cbn [no_match_in]. split; [by apply match_at_guard |].
  apply IH; [by apply negb_true_iff | done].
Qed.

Lemma sub_from_guard_ok r rp (seg suf : string) (c : ascii) bef blobs out
    blobs' :
  guard r c = false ->
  str_all (fun x => negb (guard r x)) seg = true ->
  sub_from r rp 0 (rev_onto seg (String c bef)) suf blobs = Ok (out, blobs') ->
  sub_from r rp 0 (String c bef) (seg +:+ suf) blobs
  = Ok (seg +:+ out, blobs').
Proof.
  intros Hc Hs H. rewrite sub_from_prefix by (by apply no_match_in_guard).
  unfold bind. by rewrite H.
Qed.

(** Walking a pattern over one line, with the look-behind criterion. *)
Ltac segment_all :=
  match goal with
  | H : str_all ?p ?s = true |- str_all _ ?s = true =>
      apply (str_all_impl p _ s);
      [apply by_ascii; vm_compute; reflexivity | exact H]
  end.

Ltac no_match_there :=
  first
    [ apply match_at_first; [reflexivity | vm_compute; reflexivity]
    | apply match_at_guard; vm_compute; reflexivity
    | apply match_at_guard_rev; [vm_compute; reflexivity | segment_all]
    | apply block_line_at_start
    | apply block_line_second;
      [reflexivity | first [exact I | cbn [stops]; vm_compute; reflexivity]]
    | lazymatch goal with
      | |- match_at _ _ (String nl (?y +:+ _)) = None =>
          apply (block_line_last _ _ y);
          match goal with
          | H : str_all ?p y = true |- _ =>
              apply (count_char_absent p _ _ H); reflexivity
          end
      end
    | lazymatch goal with
      | |- match_at _ _ (String _ _) = None => vm_compute; reflexivity
      end ].

Ltac stride_step :=
  lazymatch goal with
  | |- sub_from _ _ 0 _ (String _ _) _ = _ =>
      eapply sub_from_step_ok; [no_match_there |]
  | |- sub_from _ _ 0 _ (_ +:+ _) _ = _ =>
      first [ eapply sub_from_prefix_ok; [reflexivity | segment_all |]
            | eapply sub_from_guard_ok;
              [vm_compute; reflexivity | segment_all |] ]
  | |- sub_from _ _ 0 _ "" _ = _ => apply sub_from_end_ok; reflexivity
  end.

Ltac stride := repeat stride_step.

Ltac count_any :=
  repeat first [rewrite !count_char_app | progress cbn [count_char]];
  repeat match goal with
  | H : str_all ?p ?s = true |- context [count_char ?c ?s] =>
      rewrite (count_char_absent p c s H eq_refl)
  end;
  vm_compute; lia.

Ltac skip_any c := rewrite (apply_rules_skip c) by count_any.

Ltac flat_form :=
  cbv beta delta [sub NL DQ note_anchor];
  repeat first [rewrite !str_app_assoc | progress cbn [String.append]].

Ltac all_parts :=
  rewrite ?str_all_app; repeat (apply andb_true_intro; split);
  first [segment_all | vm_compute; reflexivity].

(** A pass that rewrites nothing: too few of some character, or a block
    rule on one line, or no character that can start a match, or no match
    at any place. *)
Ltac idle_pass :=
  first
    [ skip_any nl | skip_any "`"%char | skip_any "<"%char
    | skip_any ":"%char | skip_any "!"%char | skip_any ">"%char
    | skip_any "#"%char | skip_any "-"%char | skip_any "["%char
    | skip_any "*"%char | skip_any "_"%char | skip_any "~"%char
    | skip_any "("%char
    | erewrite apply_rules_skip_block by first [reflexivity | count_any]
    | rewrite apply_rules_skip_first by first [done | all_parts]
    | rewrite apply_rules_none
        by (cbn [pattern replacement]; flat_form; eapply ok_eq;
            [stride | str_norm]) ].

(** A pass with one match: the walk goes to it, [M] is the lemma of the
    match of the text [m]. *)
Ltac pass_with_match m M :=
  cbn [pattern replacement]; flat_form; eapply ok_eq;
  [ stride; eapply (sub_from_match_ok _ _ _ m _);
    [ done | eapply M | vm_compute; reflexivity | ];
    cbv beta delta [NL DQ]; cbn [rev_onto String.append]; stride
  | ].

Ltac finish_rules :=
  cbn [apply_rules ret]; eapply ok_eq;
  [reflexivity | first [reflexivity | f_equal; str_norm]].

Lemma lit_match (w bef suf : string) :
  match_at (Lit w) bef (w +:+ suf) = Some ([Some w], suf).
Proof.
  apply (match_at_intro (Lit w) _ _ (MState (rev_onto w bef) suf [None]) w);
    [| done].
  rewrite ngroups_Lit, go_Lit. cbn [rest before groups replicate].
  by rewrite startswith_app, drop_app_length.
Qed.

Lemma em_dash_rules fs (pre post : string) blobs :
  str_all plain pre = true -> str_all plain post = true ->
  apply_rules (rules fs) (NL +:+ (pre +:+ "--" +:+ post) +:+ NL) blobs
  = Ok (NL +:+ "<p>" +:+ pre +:+ "&mdash;" +:+ post +:+ "</p>" +:+ NL,
        blobs).
Proof.
  intros Hpre Hpost. unfold rules. do 15 idle_pass.
  erewrite apply_rules_step;
    [| cbn [pattern replacement]; apply paragraph_pass_one_line;
       [ by destruct pre
       | rewrite !str_all_app; repeat (apply andb_true_intro; split);
           first [by apply plain_no_newline | vm_compute; reflexivity]
       | by apply startswith_any_plain ] ].
  do 6 idle_pass.
  erewrite apply_rules_step;
    [| pass_with_match "--" (lit_match "--"); str_norm ].
  do 2 idle_pass. finish_rules.
Qed.

Lemma resolve_element (doc body : string) blobs :
  doc = NL +:+ "<" +:+ body +:+ ">" +:+ NL ->
  str_all (fun c => negb (is_brace c)) body = true ->
  resolve doc blobs = Ok ("<" +:+ body +:+ ">" +:+ NL, blobs).
Proof.
  intros -> Hb. unfold resolve, strip.
  change (lstrip (NL +:+ "<" +:+ body +:+ ">" +:+ NL))
    with (("<" +:+ body) +:+ (">" +:+ NL)).
  rewrite rstrip_app by (by vm_compute).
  change (rstrip (">" +:+ NL)) with ">".
  rewrite format_plain; [by rewrite !str_app_assoc |].
  rewrite !str_all_app, Hb. done.
Qed.

Ltac braces_free :=
  rewrite ?str_all_app; repeat (apply andb_true_intro; split);
  first [segment_all | by vm_compute].

(** From the rules to [markup], for a document that comes out as one
    element. *)
Ltac through_markup L R body :=
  unfold run, markup, clear, bind; rewrite L by done;
  rewrite (R _ body);
  [ first [done | f_equal; str_norm] | str_norm | braces_free ].

Ltac wrap_paragraph :=
  erewrite apply_rules_step;
    [| cbn [pattern replacement]; apply paragraph_pass_one_line;
       [ intros E; apply (f_equal String.length) in E;
         rewrite ?str_length_app in E; cbn in E; lia
       | all_parts
       | first [ by apply startswith_any_plain
               | by vm_compute ] ] ].

(** X8. In a line of ordinary characters two hyphens together are rendered
    as an em dash. *)
Theorem em_dash_rendered fs (pre post : string) blobs0 :
  str_all plain pre = true -> str_all plain post = true ->
  run (markup fs (pre +:+ "--" +:+ post)) blobs0
  = Ok ("<p>" +:+ pre +:+ "&mdash;" +:+ post +:+ "</p>" +:+ NL).
Proof.
  intros Hpre Hpost.
  through_markup em_dash_rules resolve_paragraph
    (pre +:+ "&mdash;" +:+ post).
Qed.

Lemma em_dash_rendered_witness :
  run (markup no_files ("wait " +:+ "--" +:+ " what")) []
  = Ok ("<p>" +:+ "wait " +:+ "&mdash;" +:+ " what" +:+ "</p>" +:+ NL).
Proof.
  apply (em_dash_rendered no_files "wait " " what" []); vm_compute;
    reflexivity.
Defined.

(** ** Lines that are one element *)

Lemma paragraph_keeps_element (doc l : string) blobs :
  doc = NL +:+ "<" +:+ l +:+ NL ->
  str_all (not_char nl) l = true ->
  sub paragraph_re (Function paragraph) doc blobs = Ok (doc, blobs).
Proof.
  intros -> Hl.
  pose proof (paragraph_pass [String "<" l] blobs) as H.
  cbn [unlines fmap list_fmap] in H. rewrite par_line_tag in H.
  rewrite !(str_app_nil_r NL) in H. apply H.
  by repeat constructor.
Qed.

Ltac keep_element l :=
  erewrite apply_rules_step;
    [| cbn [pattern replacement]; apply (paragraph_keeps_element _ l);
       [str_norm | all_parts] ].

Lemma quote_match (bef t rest' : string) :
  t <> "" -> str_all (not_char nl) t = true ->
  match_at quote_re (String nl bef) ("> " +:+ t +:+ NL +:+ rest')
  = Some ([Some ("> " +:+ t); Some t], NL +:+ rest').
Proof.
  intros Hne Ht.
  apply (match_at_intro quote_re _ _
           (MState (rev_onto ("> " +:+ t) (String nl bef)) (NL +:+ rest')
              [None; Some t]) ("> " +:+ t)); [| done].
  change (replicate (S (ngroups quote_re)) None)
    with ([None; None] : list (option string)).
  unfold quote_re, plus, Chr.
  cbn [go unread rest before groups Lit String.append].
  change (is_char nl nl) with true. change (is_char ">" ">") with true.
  change (is_char " " " ") with true. cbn iota.
  unfold Chr. cbn [go rest before groups].
  change (is_char ">" ">") with true. change (is_char " " " ") with true.
  cbn iota.
  apply rep_greedy_max; [done | by apply length_nonempty | done |].
  unfold set_group. cbn [rest before groups]. rewrite consumed_app.
  cbn [go rest before groups NL String.append].
  change (is_char nl nl) with true. cbn iota. done.
Qed.

Lemma quote_rules fs (t : string) blobs :
  t <> "" -> str_all plain t = true ->
  apply_rules (rules fs) (NL +:+ ("> " +:+ t) +:+ NL) blobs
  = Ok (NL +:+ "<blockquote>" +:+ t +:+ "</blockquote>" +:+ NL, blobs).
Proof.
  intros Hne Ht. unfold rules. do 10 idle_pass.
  erewrite apply_rules_step;
    [| pass_with_match ("> " +:+ t) quote_match;
       [done | by apply plain_no_newline | str_norm] ].
  do 4 idle_pass. keep_element ("blockquote>" +:+ t +:+ "</blockquote>").
  do 9 idle_pass. finish_rules.
Qed.

(** X9. A line that starts with [> ] followed by ordinary characters is
    rendered as a block quotation of the rest of the line, with no
    paragraph around it. *)
Theorem quote_line_rendered fs (t : string) blobs0 :
  t <> "" -> str_all plain t = true ->
  run (markup fs ("> " +:+ t)) blobs0
  = Ok ("<blockquote>" +:+ t +:+ "</blockquote>" +:+ NL).
Proof.
  intros Hne Ht.
  through_markup quote_rules resolve_element
    ("blockquote>" +:+ t +:+ "</blockquote").
Qed.

Lemma quote_line_rendered_witness :
  run (markup no_files ("> " +:+ "so it goes")) []
  = Ok ("<blockquote>" +:+ "so it goes" +:+ "</blockquote>" +:+ NL).
Proof.
  apply (quote_line_rendered no_files "so it goes" []);
    first [discriminate | vm_compute; reflexivity].
Defined.

(** ** Headings *)

Lemma heading_match (bef hashes t rest' : string) :
  hashes <> "" -> str_all (is_char "#") hashes = true ->
  t <> "" -> str_all (not_char nl) t = true ->
  match_at heading_re (String nl bef) (hashes +:+ " " +:+ t +:+ NL +:+ rest')
  = Some ([Some (hashes +:+ " " +:+ t); Some hashes; Some t], NL +:+ rest').
Proof.
  intros Hh' Hh Hne Ht.
  apply (match_at_intro heading_re _ _
           (MState (rev_onto (hashes +:+ " " +:+ t) (String nl bef))
              (NL +:+ rest') [None; Some hashes; Some t])
           (hashes +:+ " " +:+ t)).
  2: { cbn [rest]. by rewrite !str_app_assoc. }
  change (replicate (S (ngroups heading_re)) None)
    with ([None; None; None] : list (option string)).
  unfold heading_re, plus. cbn [go unread rest before groups].
  unfold Chr at 1. cbn [go rest before groups].
  change (is_char nl nl) with true. cbn iota.
  apply rep_greedy_max; [done | by apply length_nonempty | done |].
  unfold set_group. cbn [rest before groups]. rewrite consumed_app.
  unfold Chr at 1. cbn [go rest before groups String.append].
  change (is_char " " " ") with true. cbn iota.
  apply rep_greedy_max; [done | by apply length_nonempty | done |].
  cbn [rest before groups]. rewrite consumed_app.
  unfold Chr. cbn [go rest before groups NL String.append].
  change (is_char nl nl) with true. cbn iota.
  cbn [list_insert]. rewrite !rev_onto_app. done.
Qed.

Lemma heading_output g0 (hashes t : string) blobs :
  heading [g0; Some hashes; Some t] blobs
  = Ok ("<h" +:+ str_of_nat (String.length hashes) +:+ " id=" +:+ DQ
        +:+ translate slugify t +:+ DQ +:+ ">" +:+ t +:+ "</h"
        +:+ str_of_nat (String.length hashes) +:+ ">", blobs).
Proof. reflexivity. Qed.

(** The slug of ordinary characters has lowercase letters and hyphens
    only. *)
Lemma slug_of_plain (t : string) :
  str_all plain t = true ->
  str_all (fun x => is_ascii_lower x || Ascii.eqb x "-") (translate slugify t)
  = true.
Proof.
  rewrite translate_slugify. induction t as [|c t IH]; [done |].
  cbn [str_all str_flat_map]. intros [Hc Ht]%andb_true_iff.
  rewrite str_all_app, (IH Ht), andb_true_r.
  revert c Hc. apply by_ascii. vm_compute. reflexivity.
Qed.

(** Two of the same character together, as a pattern, in a stretch that
    does not have them. *)
Lemma no_match_in_pair (c : ascii) (seg : string) :
  forall bef suf,
    contains (String c (String c "")) seg = false ->
    stops (is_char c) suf ->
    no_match_in (Lit (String c (String c ""))) bef seg suf.
Proof.
  induction seg as [|x seg IH]; intros bef suf Hc Hs; [done |].
  cbn [contains] in Hc. apply orb_false_iff in Hc as [Hx Hc].
  cbn [no_match_in]. split; [| by apply IH].
  unfold match_at. rewrite go_Lit. cbn [rest before groups].
  replace (startswith (String c (String c "")) (String x seg +:+ suf))
    with false; [done |].
  symmetry. cbn [startswith String.append] in *.
  destruct (Ascii.eqb c x); [| done]. cbn [andb] in *.
  destruct seg as [|y seg]; cbn [startswith String.append] in *.
  - destruct suf as [|z suf]; [done |]. cbn [stops] in Hs.
    unfold is_char in Hs. by rewrite Hs.
  - by rewrite andb_true_r in Hx |- *.
Qed.

Lemma sub_from_pair_ok (c : ascii) rp (seg suf bef : string) blobs out
    blobs' :
  contains (String c (String c "")) seg = false ->
  stops (is_char c) suf ->
  sub_from (Lit (String c (String c ""))) rp 0 (rev_onto seg bef) suf blobs
  = Ok (out, blobs') ->
  sub_from (Lit (String c (String c ""))) rp 0 bef (seg +:+ suf) blobs
  = Ok (seg +:+ out, blobs').
Proof.
  intros Hc Hs H. rewrite sub_from_prefix by (by apply no_match_in_pair).
  unfold bind. by rewrite H.
Qed.

(** A pass with one match of the text [m], followed by [suf]: the walk
    goes to the match, [M] proves it and [C] computes its replacement. *)
Ltac pass_at m suf M C :=
  cbn [pattern replacement]; flat_form; eapply ok_eq;
  [ stride;
    match goal with
    | |- sub_from _ _ 0 _ ?d _ = _ =>
        replace d with (m +:+ suf) by str_norm
    end;
    eapply sub_from_match_ok; [ | M | C | ];
    [ intros E; apply (f_equal String.length) in E;
      rewrite ?str_length_app in E; cbn in E; lia
    | cbv beta delta [NL DQ note_anchor]; cbn [rev_onto String.append];
      stride ]
  | ].

Lemma heading_rules fs (hashes t : string) blobs :
  hashes <> "" -> str_all (is_char "#") hashes = true ->
  t <> "" -> str_all plain t = true ->
  contains "--" (translate slugify t) = false ->
  apply_rules (rules fs) (NL +:+ (hashes +:+ " " +:+ t) +:+ NL) blobs
  = Ok (NL +:+ "<h" +:+ str_of_nat (String.length hashes) +:+ " id=" +:+ DQ
        +:+ translate slugify t +:+ DQ +:+ ">" +:+ t +:+ "</h"
        +:+ str_of_nat (String.length hashes) +:+ ">" +:+ NL, blobs).
Proof.
  intros Hh' Hh Hne Ht Hdd.
  pose proof (slug_of_plain t Ht) as Hslug.
  pose proof (str_of_nat_digits (String.length hashes)) as Hn.
  remember (translate slugify t) as slug eqn:Eslug.
  remember (str_of_nat (String.length hashes)) as n eqn:En.
  unfold rules. do 11 idle_pass.
  erewrite apply_rules_step.
  2: { pass_at (hashes +:+ " " +:+ t) NL
         ltac:(rewrite !str_app_assoc; apply heading_match;
               [done | done | done | by apply plain_no_newline])
         ltac:(cbn [apply_repl]; rewrite heading_output, <- Eslug, <- En;
               reflexivity).
       str_norm. }
  do 3 idle_pass.
  keep_element ("h" +:+ n +:+ " id=" +:+ DQ +:+ slug +:+ DQ +:+ ">" +:+ t
                +:+ "</h" +:+ n +:+ ">").
  do 6 idle_pass.
  rewrite apply_rules_none.
  2: { cbn [pattern replacement]. flat_form. eapply ok_eq; [| str_norm].
       stride. unfold em_dash_re.
       eapply (sub_from_pair_ok "-"%char); [done | done |]. stride. }
  do 2 idle_pass. finish_rules.
Qed.

(** X10. A line of one or more hashes, a space and a title of ordinary
    characters whose slug has no two hyphens together is rendered as a
    heading element: its level is the number of hashes, whatever it is (no
    level is refused), its [id] the slug of the title and its text the
    title as written. *)
Theorem heading_rendered fs (hashes t : string) blobs0 :
  hashes <> "" -> str_all (is_char "#") hashes = true ->
  t <> "" -> str_all plain t = true ->
  contains "--" (translate slugify t) = false ->
  run (markup fs (hashes +:+ " " +:+ t)) blobs0
  = Ok ("<h" +:+ str_of_nat (String.length hashes) +:+ " id=" +:+ DQ
        +:+ translate slugify t +:+ DQ +:+ ">" +:+ t +:+ "</h"
        +:+ str_of_nat (String.length hashes) +:+ ">" +:+ NL).
Proof.
  intros Hh' Hh Hne Ht Hdd.
  unfold run, markup, clear, bind. rewrite heading_rules by done.
  pose proof (slug_of_plain t Ht) as Hslug.
  pose proof (str_of_nat_digits (String.length hashes)) as Hn.
  remember (translate slugify t) as slug eqn:Eslug.
  remember (str_of_nat (String.length hashes)) as n eqn:En.
  rewrite (resolve_element _
             ("h" +:+ n +:+ " id=" +:+ DQ +:+ slug +:+ DQ +:+ ">" +:+ t
              +:+ "</h" +:+ n));
    [ f_equal; str_norm | str_norm | braces_free ].
Qed.

Lemma heading_rendered_witness :
  run (markup no_files ("#######" +:+ " " +:+ "Deep Title")) []
  = Ok ("<h7 id=" +:+ DQ +:+ "deep-title" +:+ DQ +:+ ">Deep Title</h7>"
        +:+ NL).
Proof.
  apply (heading_rendered no_files "#######" "Deep Title" []);
    first [discriminate | vm_compute; reflexivity].
Defined.

(** ** Links *)

Lemma rep_opt_take {A} (p : ascii -> bool) (k : string -> string -> option A)
    (c : ascii) (bef s : string) x :
  p c = true -> k (String c bef) s = Some x ->
  rep true p 0 (Some 1) k bef (String c s) = Some x.
Proof.
  intros Hc Hk. cbn [rep more_allowed pred fmap option_fmap option_map].
  rewrite Hc. cbn [andb].
  destruct s as [|d s]; cbn [rep more_allowed]; rewrite ?andb_false_r;
    by rewrite Hk.
Qed.

Lemma rep_opt_skip {A} (p : ascii -> bool) (k : string -> string -> option A)
    (bef s : string) :
  stops p s -> rep true p 0 (Some 1) k bef s = k bef s.
Proof.
  intros Hs. destruct s as [|c s]; cbn [rep]; [done |].
  cbn [stops] in Hs. by rewrite Hs.
Qed.

Lemma anchor_match (secure : bool) (bef u suf : string) :
  u <> "" -> str_all (not_char ">") u = true ->
  match_at anchor_re bef
    ("<" +:+ ("http" +:+ (if secure then "s" else "") +:+ "://" +:+ u)
     +:+ ">" +:+ suf)
  = Some ([Some ("<" +:+ ("http" +:+ (if secure then "s" else "") +:+ "://"
                          +:+ u) +:+ ">");
           Some ("http" +:+ (if secure then "s" else "") +:+ "://" +:+ u)],
          suf).
Proof.
  intros Hne Hu.
  apply (match_at_intro anchor_re _ _
           (MState (rev_onto ("<" +:+ ("http" +:+ (if secure then "s" else "")
                                       +:+ "://" +:+ u) +:+ ">") bef) suf
              [None; Some ("http" +:+ (if secure then "s" else "") +:+ "://"
                           +:+ u)])
           ("<" +:+ ("http" +:+ (if secure then "s" else "") +:+ "://" +:+ u)
            +:+ ">")).
  2: { cbn [rest]. by rewrite !str_app_assoc. }
  change (replicate (S (ngroups anchor_re)) None)
    with ([None; None] : list (option string)).
  unfold anchor_re, opt, plus_lazy.
  cbn [go]. unfold Chr at 1. cbn [go rest before groups String.append].
  change (is_char "<" "<") with true. cbn iota.
  rewrite go_Lit.
  cbn [rest before groups startswith String.append Ascii.eqb Bool.eqb andb
       drop String.length rev_onto].
  cbn [go rest before groups].
  assert (forall b0,
    go (Lit "://") (MState b0 ("://" +:+ u +:+ ">" +:+ suf) [None; None])
      (fun st1 =>
         rep false (not_char ">") 1 None
           (fun b s =>
              go (Chr ">")
                (set_group 1
                   (consumed
                      (MState (String "<" bef)
                         ("http" +:+ (if secure then "s" else "") +:+ "://"
                          +:+ u +:+ ">" +:+ suf) [None; None])
                      (MState b s (groups st1)))
                   (MState b s (groups st1))) Some)
           (before st1) (rest st1))
    = Some (MState (String ">" (rev_onto u (rev_onto "://" b0))) suf
              [None; Some ("http" +:+ (if secure then "s" else "") +:+ "://"
                           +:+ u)])) as Hrest.
  { intros b0. rewrite go_Lit. cbn [rest before groups].
    rewrite startswith_app, drop_app_length.
    apply rep_lazy_first; [done | by apply length_nonempty | |].
    - intros m1 m2 -> Hm2 _. unfold Chr. cbn [go rest set_group].
      destruct m2 as [|x m2]; [done |].
      rewrite str_all_app in Hu. apply andb_true_iff in Hu as [_ Hx].
      cbn [str_all] in Hx. apply andb_true_iff in Hx as [Hx _].
      unfold not_char in Hx. apply negb_true_iff in Hx.
      cbn [String.append]. unfold is_char. by rewrite Hx.
    - unfold Chr, set_group. cbn [go rest before groups String.append].
      change (is_char ">" ">") with true. cbn iota.
      rewrite (consumed_eq _ _
                 ("http" +:+ (if secure then "s" else "") +:+ "://" +:+ u));
        [done |].
      cbn [rest]. by rewrite !str_app_assoc. }
  destruct secure.
  - apply rep_opt_take; [done |]. cbn [String.append] in Hrest |- *.
    rewrite Hrest. cbn [rev_onto]. by rewrite rev_onto_app.
  - rewrite rep_opt_skip by done. cbn [String.append] in Hrest |- *.
    rewrite Hrest. cbn [rev_onto]. by rewrite rev_onto_app.
Qed.

Lemma startswith_any_plain_ne (s t : string) :
  s <> "" -> str_all plain s = true ->
  startswith_any ["<"; "{"] (s +:+ t) = false.
Proof.
  intros Hne Hs. destruct s as [|c s]; [done |].
  cbn [str_all] in Hs. apply andb_true_iff in Hs as [Hc _].
  pose proof (by_ascii plain
    (fun c => negb (Ascii.eqb "<" c) && negb (Ascii.eqb "{" c))
    ltac:(vm_compute; reflexivity) c Hc) as H.
  apply andb_true_iff in H as [H1%negb_true_iff H2%negb_true_iff].
  cbn [String.append startswith_any existsb startswith]. by rewrite H1, H2.
Qed.

Ltac wrap_text_line :=
  erewrite apply_rules_step;
    [| cbn [pattern replacement]; apply paragraph_pass_one_line;
       [ intros E; apply (f_equal String.length) in E;
         rewrite ?str_length_app in E; cbn in E; lia
       | all_parts
       | by apply startswith_any_plain_ne ] ].

(** The match at hand is the one of the lemma [L], up to the grouping of
    the concatenations. *)
Ltac match_by L :=
  idtac;
  match goal with
  | |- match_at _ ?b _ = Some (_, ?sf) =>
      let H := fresh in
      pose proof (L b sf) as H;
      cbv beta delta [NL DQ note_anchor] in H |- *;
      repeat first [rewrite !str_app_assoc in H
                   | progress cbn [String.append] in H];
      repeat first [rewrite !str_app_assoc | progress cbn [String.append]];
      exact H
  end.

Lemma anchor_rules fs (secure : bool) (pre u post : string) blobs :
  pre <> "" -> str_all plain pre = true ->
  u <> "" -> str_all plain u = true -> str_all plain post = true ->
  apply_rules (rules fs)
    (NL +:+ (pre +:+ "<" +:+ "http" +:+ (if secure then "s" else "")
             +:+ "://" +:+ u +:+ ">" +:+ post) +:+ NL) blobs
  = Ok (NL +:+ "<p>" +:+ pre +:+ "<a href=" +:+ DQ +:+ "http"
        +:+ (if secure then "s" else "") +:+ "://" +:+ u +:+ DQ +:+ ">"
        +:+ "http" +:+ (if secure then "s" else "") +:+ "://" +:+ u
        +:+ "</a>" +:+ post +:+ "</p>" +:+ NL, blobs).
Proof.
  intros Hpre' Hpre Hne Hu Hpost.
  assert (str_all (not_char ">") u = true) as Hu' by segment_all.
  unfold rules. destruct secure.
  - do 15 idle_pass. wrap_text_line. do 7 idle_pass.
    erewrite apply_rules_step.
    2: { pass_at ("<" +:+ ("http" +:+ "s" +:+ "://" +:+ u) +:+ ">")
           (post +:+ "</p>" +:+ NL)
           ltac:(match_by (fun b sf => anchor_match true b u sf Hne Hu'))
           ltac:(vm_compute; reflexivity).
         str_norm. }
    idle_pass. finish_rules.
  - do 15 idle_pass. wrap_text_line. do 7 idle_pass.
    erewrite apply_rules_step.
    2: { pass_at ("<" +:+ ("http" +:+ "" +:+ "://" +:+ u) +:+ ">")
           (post +:+ "</p>" +:+ NL)
           ltac:(match_by (fun b sf => anchor_match false b u sf Hne Hu'))
           ltac:(vm_compute; reflexivity).
         str_norm. }
    idle_pass. finish_rules.
Qed.

(** X11. In a line of ordinary characters that does not start with it, an
    address [http://...] or [https://...] of ordinary characters between
    angle brackets is rendered as a link to that address, with the address
    as its text. *)
Theorem bare_address_rendered fs (secure : bool) (pre u post : string) blobs0 :
  pre <> "" -> str_all plain pre = true ->
  u <> "" -> str_all plain u = true -> str_all plain post = true ->
  run (markup fs (pre +:+ "<" +:+ "http" +:+ (if secure then "s" else "")
                  +:+ "://" +:+ u +:+ ">" +:+ post)) blobs0
  = Ok ("<p>" +:+ pre +:+ "<a href=" +:+ DQ +:+ "http"
        +:+ (if secure then "s" else "") +:+ "://" +:+ u +:+ DQ +:+ ">"
        +:+ "http" +:+ (if secure then "s" else "") +:+ "://" +:+ u
        +:+ "</a>" +:+ post +:+ "</p>" +:+ NL).
Proof.
  intros Hpre' Hpre Hne Hu Hpost.
  destruct secure.
  - through_markup (anchor_rules fs true) resolve_paragraph
      (pre +:+ "<a href=" +:+ DQ +:+ "https://" +:+ u +:+ DQ +:+ ">"
       +:+ "https://" +:+ u +:+ "</a>" +:+ post).
  - through_markup (anchor_rules fs false) resolve_paragraph
      (pre +:+ "<a href=" +:+ DQ +:+ "http://" +:+ u +:+ DQ +:+ ">"
       +:+ "http://" +:+ u +:+ "</a>" +:+ post).
Qed.

Lemma bare_address_rendered_witness :
  run (markup no_files ("see " +:+ "<" +:+ "http" +:+ "s" +:+ "://"
                        +:+ "example.org/a" +:+ ">" +:+ "")) []
  = Ok ("<p>" +:+ "see " +:+ "<a href=" +:+ DQ +:+ "http" +:+ "s" +:+ "://"
        +:+ "example.org/a" +:+ DQ +:+ ">" +:+ "http" +:+ "s" +:+ "://"
        +:+ "example.org/a" +:+ "</a>" +:+ "" +:+ "</p>" +:+ NL).
Proof.
  apply (bare_address_rendered no_files true "see " "example.org/a" "" []);
    first [discriminate | vm_compute; reflexivity].
Defined.

Lemma note_foot_miss (bef rst : string) :
  stops is_digit rst -> match_at note_foot_re bef (String "[" rst) = None.
Proof.
  intros Hs. unfold match_at, note_foot_re, plus, Chr.
  cbn [go rest before groups]. change (is_char "[" "[") with true. cbn iota.
  destruct rst as [|c rst]; cbn [rep]; [done |].
  cbn [stops] in Hs. by rewrite Hs.
Qed.

Lemma note_text_miss (bef rst : string) :
  stops is_digit rst -> match_at note_text_re bef (String "[" rst) = None.
Proof.
  intros Hs. unfold match_at, note_text_re, plus, Chr.
  cbn [go rest before groups]. change (is_char "[" "[") with true. cbn iota.
  destruct rst as [|c rst]; cbn [rep]; [done |].
  cbn [stops] in Hs. by rewrite Hs.
Qed.

Lemma stops_plain_digit (t rst : string) :
  t <> "" -> str_all plain t = true -> stops is_digit (t +:+ rst).
Proof.
  intros Hne Ht. destruct t as [|c t]; [done |]. clear Hne.
  cbn [str_all] in Ht. apply andb_true_iff in Ht as [Hc _].
  cbn [String.append stops].
  apply negb_true_iff. revert c Hc. apply by_ascii. vm_compute. reflexivity.
Qed.

Lemma reference_match (bef t u suf : string) :
  t <> "" -> str_all (not_char "]") t = true ->
  u <> "" -> str_all (not_char ")") u = true ->
  match_at reference_re bef ("[" +:+ t +:+ "](" +:+ u +:+ ")" +:+ suf)
  = Some ([Some ("[" +:+ t +:+ "](" +:+ u +:+ ")"); Some t; Some u], suf).
Proof.
  intros Hne Ht Hue Hu.
  apply (match_at_intro reference_re _ _
           (MState (rev_onto ("[" +:+ t +:+ "](" +:+ u +:+ ")") bef) suf
              [None; Some t; Some u])
           ("[" +:+ t +:+ "](" +:+ u +:+ ")")).
  2: { cbn [rest]. by rewrite !str_app_assoc. }
  change (replicate (S (ngroups reference_re)) None)
    with ([None; None; None] : list (option string)).
  unfold reference_re, plus_lazy.
  cbn [go]. unfold Chr at 1. cbn [go rest before groups String.append].
  change (is_char "[" "[") with true. cbn iota.
  apply rep_lazy_first; [done | by apply length_nonempty | |].
  - intros m1 m2 -> Hm2 _. rewrite go_Lit. unfold set_group.
    cbn [rest before groups].
    destruct m2 as [|x m2]; [done |].
    rewrite str_all_app in Ht. apply andb_true_iff in Ht as [_ Hx].
    cbn [str_all] in Hx. apply andb_true_iff in Hx as [Hx _].
    unfold not_char in Hx. apply negb_true_iff in Hx.
    cbn [String.append startswith]. by rewrite Hx.
  - rewrite go_Lit. unfold set_group. cbn [rest before groups].
    rewrite consumed_app.
    change (startswith "](" ("](" +:+ u +:+ ")" +:+ suf)) with true.
    cbn iota. change (drop (String.length "](") ("](" +:+ u +:+ ")" +:+ suf))
      with (u +:+ ")" +:+ suf).
    cbn [go rest before groups].
    apply rep_lazy_first; [done | by apply length_nonempty | |].
    + intros m1 m2 -> Hm2 _. unfold Chr. cbn [go rest set_group].
      destruct m2 as [|x m2]; [done |].
      rewrite str_all_app in Hu. apply andb_true_iff in Hu as [_ Hx].
      cbn [str_all] in Hx. apply andb_true_iff in Hx as [Hx _].
      unfold not_char in Hx. apply negb_true_iff in Hx.
      cbn [String.append]. unfold is_char. by rewrite Hx.
    + unfold Chr, set_group. cbn [go rest before groups String.append].
      change (is_char ")" ")") with true. cbn iota.
      rewrite (consumed_eq _ _ u) by reflexivity. cbn [list_insert].
      repeat first [ rewrite rev_onto_app
                   | progress cbn [rev_onto String.append list_insert] ].
      done.
Qed.

Lemma startswith_any_bracket (pre rst : string) :
  str_all plain pre = true ->
  startswith_any ["<"; "{"] (pre +:+ String "[" rst) = false.
Proof. intros H. by apply startswith_any_plain. Qed.

Lemma reference_rules fs (pre t u post : string) blobs :
  str_all plain pre = true ->
  t <> "" -> str_all plain t = true -> str_all (not_char "]") t = true ->
  u <> "" -> str_all plain u = true -> str_all (not_char ")") u = true ->
  str_all plain post = true ->
  apply_rules (rules fs)
    (NL +:+ (pre +:+ "[" +:+ t +:+ "](" +:+ u +:+ ")" +:+ post) +:+ NL) blobs
  = Ok (NL +:+ "<p>" +:+ pre +:+ "<a href=" +:+ DQ +:+ u +:+ DQ +:+ ">" +:+ t
        +:+ "</a>" +:+ post +:+ "</p>" +:+ NL, blobs).
Proof.
  intros Hpre Hne Ht Ht' Hue Hu Hu' Hpost.
  unfold rules. do 13 idle_pass.
  rewrite apply_rules_none.
  2: { cbn [pattern replacement]. flat_form. eapply ok_eq; [| str_norm].
       stride. eapply sub_from_step_ok;
         [apply note_foot_miss; by apply stops_plain_digit |].
       stride. }
  rewrite apply_rules_none.
  2: { cbn [pattern replacement]. flat_form. eapply ok_eq; [| str_norm].
       stride. eapply sub_from_step_ok;
         [apply note_text_miss; by apply stops_plain_digit |].
       stride. }
  erewrite apply_rules_step.
  2: { cbn [pattern replacement]. apply paragraph_pass_one_line;
         [ intros E; apply (f_equal String.length) in E;
           rewrite ?str_length_app in E; cbn in E; lia
         | all_parts
         | by apply startswith_any_bracket ]. }
  do 8 idle_pass.
  erewrite apply_rules_step.
  2: { pass_at ("[" +:+ t +:+ "](" +:+ u +:+ ")") (post +:+ "</p>" +:+ NL)
         ltac:(match_by (fun b sf => reference_match b t u sf Hne Ht' Hue Hu'))
         ltac:(vm_compute; reflexivity).
       str_norm. }
  finish_rules.
Qed.

(** X12. In a line of ordinary characters a text in square brackets
    followed by an address in round brackets is rendered as a link to the
    address with the text as its content, when the text has no closing
    square bracket and the address no closing round bracket. *)
Theorem reference_rendered fs (pre t u post : string) blobs0 :
  str_all plain pre = true ->
  t <> "" -> str_all plain t = true -> str_all (not_char "]") t = true ->
  u <> "" -> str_all plain u = true -> str_all (not_char ")") u = true ->
  str_all plain post = true ->
  run (markup fs (pre +:+ "[" +:+ t +:+ "](" +:+ u +:+ ")" +:+ post)) blobs0
  = Ok ("<p>" +:+ pre +:+ "<a href=" +:+ DQ +:+ u +:+ DQ +:+ ">" +:+ t
        +:+ "</a>" +:+ post +:+ "</p>" +:+ NL).
Proof.
  intros Hpre Hne Ht Ht' Hue Hu Hu' Hpost.
  through_markup reference_rules resolve_paragraph
    (pre +:+ "<a href=" +:+ DQ +:+ u +:+ DQ +:+ ">" +:+ t +:+ "</a>"
     +:+ post).
Qed.

Lemma reference_rendered_witness :
  run (markup no_files ("see " +:+ "[" +:+ "the site" +:+ "](" +:+ "/a/b.html"
                        +:+ ")" +:+ " (mirror)")) []
  = Ok ("<p>" +:+ "see " +:+ "<a href=" +:+ DQ +:+ "/a/b.html" +:+ DQ +:+ ">"
        +:+ "the site" +:+ "</a>" +:+ " (mirror)" +:+ "</p>" +:+ NL).
Proof.
  apply (reference_rendered no_files "see " "the site" "/a/b.html"
           " (mirror)" []);
    first [discriminate | vm_compute; reflexivity].
Defined.

(** ** Verbatim regions *)

Lemma verbatim_match (tag bef c suf : string) :
  c <> "" -> str_all (not_char "<") c = true ->
  match_at (verbatim_re tag) bef
    ("<" +:+ tag +:+ c +:+ "</" +:+ tag +:+ ">" +:+ suf)
  = Some ([Some ("<" +:+ tag +:+ c +:+ "</" +:+ tag +:+ ">"); Some tag;
           Some c], suf).
Proof.
  intros Hne Hc.
  apply (match_at_intro (verbatim_re tag) _ _
           (MState (rev_onto ("<" +:+ tag +:+ c +:+ "</" +:+ tag +:+ ">") bef)
              suf [None; Some tag; Some c])
           ("<" +:+ tag +:+ c +:+ "</" +:+ tag +:+ ">")).
  2: { cbn [rest]. by rewrite !str_app_assoc. }
  assert (ngroups (verbatim_re tag) = 2) as ->.
  { unfold verbatim_re, plus_lazy, Chr. cbn [ngroups].
    by rewrite !ngroups_Lit. }
  unfold verbatim_re. cbn [replicate go]. unfold Chr at 1. cbn [go rest before groups String.append].
  change (is_char "<" "<") with true. cbn iota.
  rewrite go_Lit. cbn [rest before groups].
  rewrite startswith_app, drop_app_length.
  unfold set_group at 1. cbn [rest before groups]. rewrite consumed_app.
  unfold plus_lazy. cbn [go rest before groups].
  apply rep_lazy_first; [apply anything_all | by apply length_nonempty | |].
  - intros m1 m2 -> Hm2 _. rewrite go_Lit. unfold set_group.
    cbn [rest before groups].
    destruct m2 as [|x m2]; [done |].
    rewrite str_all_app in Hc. apply andb_true_iff in Hc as [_ Hx].
    cbn [str_all] in Hx. apply andb_true_iff in Hx as [Hx _].
    unfold not_char in Hx. apply negb_true_iff in Hx.
    cbn [String.append startswith]. by rewrite Hx.
  - rewrite go_Lit. unfold set_group. cbn [rest before groups].
    rewrite consumed_app.
    cbn [startswith String.append Ascii.eqb Bool.eqb andb drop String.length].
    cbn [go rest before groups].
    change (<[2:=Some c]> (<[1:=Some tag]> [None; None; None]) !! 1)
      with (Some (Some tag)).
    cbn iota. rewrite startswith_app, drop_app_length.
    unfold Chr. cbn [go rest before groups String.append].
    change (is_char ">" ">") with true. cbn iota.
    repeat first [ rewrite rev_onto_app
                 | progress cbn [rev_onto String.append list_insert] ].
    done.
Qed.


Ltac verbatim_case tag c Hne Hc' :=
  idle_pass;
  repeat (rewrite apply_rules_none
            by (cbn [pattern replacement]; flat_form; eapply ok_eq;
                [stride | str_norm]));
  erewrite apply_rules_step;
    [| pass_at ("<" +:+ tag +:+ c +:+ "</" +:+ tag +:+ ">") NL
         ltac:(match_by (fun b sf => verbatim_match tag b c sf Hne Hc'))
         ltac:(vm_compute; reflexivity);
       reflexivity ];
  vm_compute; reflexivity.

Lemma verbatim_rules fs (tag c : string) :
  In tag ["svg"; "pre"; "style"; "script"] ->
  c <> "" ->
  str_all (fun x => not_char "<" x && not_char "`" x) c = true ->
  apply_rules (rules fs)
    (NL +:+ ("<" +:+ tag +:+ c +:+ "</" +:+ tag +:+ ">") +:+ NL) []
  = Ok (NL +:+ "{0}" +:+ NL, ["<" +:+ tag +:+ c +:+ "</" +:+ tag +:+ ">"]).
Proof.
  intros Hin Hne Hc.
  assert (str_all (not_char "<") c = true) as Hc' by segment_all.
  unfold rules. cbn [In] in Hin.
  destruct Hin as [<-|[<-|[<-|[<-|[]]]]].
  - verbatim_case "svg" c Hne Hc'.
  - verbatim_case "pre" c Hne Hc'.
  - verbatim_case "style" c Hne Hc'.
  - verbatim_case "script" c Hne Hc'.
Qed.

(** X13. A document that is one region opened by [<svg], [<pre>],
    [<style] or [<script] and closed by the matching closing tag comes out
    as it went in, whatever its content means to the other rules (stars,
    hashes, braces, line breaks), when the content is not empty and has no
    opening angle bracket and no backtick. *)
Theorem verbatim_region_kept fs (tag c : string) blobs0 :
  In tag ["svg"; "pre"; "style"; "script"] ->
  c <> "" ->
  str_all (fun x => not_char "<" x && not_char "`" x) c = true ->
  run (markup fs ("<" +:+ tag +:+ c +:+ "</" +:+ tag +:+ ">")) blobs0
  = Ok ("<" +:+ tag +:+ c +:+ "</" +:+ tag +:+ ">" +:+ NL).
Proof.
  intros Hin Hne Hc. unfold run, markup, clear, bind.
  rewrite verbatim_rules by done. unfold resolve.
  change (strip (NL +:+ "{0}" +:+ NL)) with ("{" +:+ str_of_nat 0 +:+ "}").
  rewrite format_token by done. cbn [lookup list_lookup].
  by rewrite !str_app_assoc.
Qed.

Lemma verbatim_region_kept_witness :
  run (markup no_files
         ("<" +:+ "pre" +:+ (">" +:+ "# **x** {y}" +:+ NL +:+ NL +:+ "- z")
          +:+ "</" +:+ "pre" +:+ ">")) []
  = Ok ("<" +:+ "pre" +:+ (">" +:+ "# **x** {y}" +:+ NL +:+ NL +:+ "- z")
        +:+ "</" +:+ "pre" +:+ ">" +:+ NL).
Proof.
  apply (verbatim_region_kept no_files "pre"
           (">" +:+ "# **x** {y}" +:+ NL +:+ NL +:+ "- z") []);
    [ right; left; reflexivity | discriminate | vm_compute; reflexivity ].
Defined.

(** ** The files a conversion reads *)

Lemma bind_ext {A B} (m1 m2 : M A) (k1 k2 : A -> M B) blobs :
  m1 blobs = m2 blobs ->
  (forall a blobs', k1 a blobs' = k2 a blobs') ->
  bind m1 k1 blobs = bind m2 k2 blobs.
Proof.
  intros Hm Hk. unfold bind. rewrite Hm.
  by destruct (m2 blobs) as [[a blobs']| |].
Qed.

Lemma sub_from_ext (r : re) (f g : list (option string) -> M string) :
  (forall gs blobs, f gs blobs = g gs blobs) ->
  forall rst skip bef blobs,
    sub_from r (Function f) skip bef rst blobs
    = sub_from r (Function g) skip bef rst blobs.
Proof.
  intros Hfg. induction rst as [|c rst IH]; intros skip bef blobs.
  - destruct skip; [| done]. cbn [sub_from].
    destruct (match_at r bef "") as [[gs rst1]|]; [| done].
    cbn [apply_repl]. by apply bind_ext.
  - destruct skip as [|n]; [| apply IH]. cbn [sub_from].
    destruct (match_at r bef (String c rst)) as [[gs rst1]|].
    + cbn [apply_repl]. apply bind_ext; [apply Hfg |].
      intros new blobs'. destruct (_ - _); by apply bind_ext.
    + by apply bind_ext.
Qed.

Lemma inline_reads_sources (fs1 fs2 : string -> option string) gs blobs :
  (forall p, endswith_any source_suffixes (lower p) = true -> fs1 p = fs2 p) ->
  inline fs1 gs blobs = inline fs2 gs blobs.
Proof.
  intros H. unfold inline.
  destruct (match_groups gs) as [|[title|] [|[src|] [|? ?]]]; try done.
  destruct (endswith_any image_suffixes (lower src)); [done |].
  destruct (endswith_any source_suffixes (lower src)) eqn:E; [| done].
  by rewrite (H src E).
Qed.

Lemma apply_rules_reads_sources (fs1 fs2 : string -> option string)
    (doc : string) blobs :
  (forall p, endswith_any source_suffixes (lower p) = true -> fs1 p = fs2 p) ->
  apply_rules (rules fs1) doc blobs = apply_rules (rules fs2) doc blobs.
Proof.
  intros H. unfold rules.
  do 9 (cbn [apply_rules]; apply bind_ext; [done |]; clear doc blobs;
        intros doc blobs).
  cbn [apply_rules]. apply bind_ext; [| done].
  cbn [pattern replacement]. unfold sub. apply sub_from_ext.
  intros gs blobs'. by apply inline_reads_sources.
Qed.

Lemma markup_agree (fs1 fs2 : string -> option string) (text : string)
    blobs :
  (forall p, endswith_any source_suffixes (lower p) = true -> fs1 p = fs2 p) ->
  markup fs1 text blobs = markup fs2 text blobs.
Proof.
  intros H. unfold markup. apply bind_ext; [done |]. intros _ blobs'.
  apply bind_ext; [| done]. by apply apply_rules_reads_sources.
Qed.

(** X14. A conversion reads no file but the ones whose name ends, in any
    letter case, in [py] or [js]: on two stores that agree on those files
    it gives the same result, whatever the text. *)
Theorem markup_reads_only_sources (fs1 fs2 : string -> option string)
    (text : string) blobs :
  (forall p, endswith_any source_suffixes (lower p) = true -> fs1 p = fs2 p) ->
  markup fs1 text blobs = markup fs2 text blobs.
Proof. apply markup_agree. Qed.

Lemma markup_reads_only_sources_witness :
  markup (write "notes.txt" "new" (write "x.py" "print(1)" no_files))
    "![a](x.py) ![b](notes.txt)" []
  = markup (write "x.py" "print(1)" no_files)
      "![a](x.py) ![b](notes.txt)" [].
Proof.
  apply (markup_reads_only_sources
           (write "notes.txt" "new" (write "x.py" "print(1)" no_files))
           (write "x.py" "print(1)" no_files)
           "![a](x.py) ![b](notes.txt)" []).
  intros p Hp. unfold write at 1. unfold str_eqb.
  destruct (String.eqb p "notes.txt") eqn:E; [| reflexivity].
  apply String.eqb_eq in E. subst p. vm_compute in Hp. discriminate Hp.
Defined.

(** ** [to_html] *)

Lemma str_rev_map (f : ascii -> ascii) (s : string) :
  str_rev (str_map f s) = str_map f (str_rev s).
Proof.
  unfold str_rev. change "" with (str_map f "") at 1.
  generalize "" as acc. induction s as [|c s IH]; intros acc; [done |].
  cbn [str_map rev_onto]. apply (IH (String c acc)).
Qed.

Lemma html_not_source (path : string) :
  endswith ".html" path = true ->
  endswith_any source_suffixes (lower path) = false.
Proof.
  unfold endswith_any, source_suffixes, endswith, lower.
  rewrite str_rev_map. intros [t ->]%startswith_spec. by vm_compute.
Qed.

Lemma html_not_template (tpath hpath : string) :
  endswith ".tpl" tpath = true -> endswith ".html" hpath = true ->
  tpath <> hpath.
Proof.
  unfold endswith. intros [t E]%startswith_spec Hh ->.
  rewrite E in Hh. by vm_compute in Hh.
Qed.

Lemma html_not_markdown (mpath hpath : string) :
  endswith ".md" mpath = true -> endswith ".html" hpath = true ->
  mpath <> hpath.
Proof.
  unfold endswith. intros [t E]%startswith_spec Hh ->.
  rewrite E in Hh. by vm_compute in Hh.
Qed.

Lemma write_other (path content : string) fs (p : string) :
  p <> path -> write path content fs p = fs p.
Proof.
  intros H. unfold write, str_eqb.
  destruct (String.eqb p path) eqn:E; [| done].
  by apply String.eqb_eq in E.
Qed.

Lemma write_same (path content : string) fs :
  write path content fs path = Some content.
Proof. unfold write, str_eqb. by rewrite String.eqb_refl. Qed.

(** The conversion inside [to_html] does not see that the output file has
    been emptied. *)
Lemma markup_before_output fs (hpath text : string) blobs :
  endswith ".html" hpath = true ->
  run (markup (write hpath "" fs) text) blobs = run (markup fs text) [].
Proof.
  intros Hh. unfold run.
  rewrite (markup_agree (write hpath "" fs) fs); [done |].
  intros p Hp. apply write_other. intros ->.
  by rewrite html_not_source in Hp.
Qed.

Lemma format_hole (a hole b html : string) :
  In hole ["{}"; "{0}"] ->
  str_all (fun c => negb (is_brace c)) a = true ->
  str_all (fun c => negb (is_brace c)) b = true ->
  format (a +:+ hole +:+ b) [html] = Ok (a +:+ html +:+ b).
Proof.
  intros Hin Ha Hb. unfold format. rewrite build_string_plain by done.
  assert (forall an, build_string [html] Text an b = Ok b) as Hrest.
  { intros an. rewrite <- (str_app_nil_r b) at 1.
    rewrite build_string_plain by done. cbn [build_string prepend].
    by rewrite str_app_nil_r. }
  cbn [In] in Hin. destruct Hin as [<-|[<-|[]]].
  - cbn [String.append build_string Ascii.eqb Bool.eqb].
    cbv beta iota. unfold output_markup. cbn -[build_string String.append].
    by rewrite Hrest.
  - change ("{0}" +:+ b) with ("{" +:+ str_of_nat 0 +:+ "}" +:+ b).
    rewrite build_string_token. unfold after_field.
    rewrite output_markup_index.
    change (N.of_nat 0 <=? PY_SSIZE_T_MAX)%N with true.
    cbn -[build_string String.append]. by rewrite Hrest.
Qed.

(** X15. When the three names have the right endings, the template is
    text without braces around one field [{}] or [{0}], both input files
    exist, the output can be created and the conversion of the text
    succeeds, [to_html] returns, the output file holds the template with
    the converted text in the place of the field, and no other file has
    changed. *)
Theorem to_html_writes_page fs creatable (tpath mpath hpath : string) blobs
    (a hole b text html : string) :
  endswith ".tpl" tpath = true -> endswith ".md" mpath = true ->
  endswith ".html" hpath = true ->
  fs tpath = Some (a +:+ hole +:+ b) -> In hole ["{}"; "{0}"] ->
  str_all (fun c => negb (is_brace c)) a = true ->
  str_all (fun c => negb (is_brace c)) b = true ->
  fs mpath = Some text -> creatable hpath = true ->
  run (markup fs text) [] = Ok html ->
  exists fs',
    to_html fs creatable tpath mpath hpath blobs = (Returned, fs')
    /\ fs' hpath = Some (a +:+ html +:+ b)
    /\ forall p, p <> hpath -> fs' p = fs p.
Proof.
  intros Ht Hm Hh Etpl Hin Ha Hb Emd Hc Hrun.
  pose proof (html_not_template _ _ Ht Hh) as Hth.
  pose proof (html_not_markdown _ _ Hm Hh) as Hmh.
  exists (write hpath (a +:+ html +:+ b) (write hpath "" fs)).
  split; [| split].
  - unfold to_html. rewrite Ht, Hm, Hh, Etpl, Emd, Hc. cbn [negb].
    cbv zeta. rewrite !write_other by done. rewrite Emd, Etpl.
    rewrite markup_before_output by done. rewrite Hrun.
    by rewrite format_hole.
  - apply write_same.
  - intros p Hp. by rewrite !write_other.
Qed.

Lemma to_html_writes_page_witness :
  exists fs',
    to_html
      (write "page.tpl" ("<body>" +:+ "{}" +:+ "</body>")
         (write "notes.md" "Hello" (write "notes.html" "old page" no_files)))
      (fun _ => true) "page.tpl" "notes.md" "notes.html" ["stale"]
    = (Returned, fs')
    /\ fs' "notes.html" = Some ("<body>" +:+ ("<p>Hello</p>" +:+ NL)
                                +:+ "</body>")
    /\ forall p, p <> "notes.html" ->
         fs' p
         = write "page.tpl" ("<body>" +:+ "{}" +:+ "</body>")
             (write "notes.md" "Hello"
                (write "notes.html" "old page" no_files)) p.
Proof.
  apply (to_html_writes_page _ (fun _ => true) "page.tpl" "notes.md"
           "notes.html" ["stale"] "<body>" "{}" "</body>" "Hello"
           ("<p>Hello</p>" +:+ NL));
    first [ reflexivity | left; reflexivity | vm_compute; reflexivity ].
Defined.

(** X16. When the three names have the right endings, both input files
    exist and the output can be created, but the conversion of the text
    raises an exception, [to_html] raises it after the output file has been
    emptied: what the file held before is lost, and no other file has
    changed. *)
Theorem failed_conversion_empties_output fs creatable
    (tpath mpath hpath : string) blobs (template text : string) (e : exn) :
  endswith ".tpl" tpath = true -> endswith ".md" mpath = true ->
  endswith ".html" hpath = true ->
  fs tpath = Some template -> fs mpath = Some text ->
  creatable hpath = true ->
  run (markup fs text) [] = Raise e ->
  exists fs',
    to_html fs creatable tpath mpath hpath blobs = (Exception e, fs')
    /\ fs' hpath = Some ""
    /\ forall p, p <> hpath -> fs' p = fs p.
Proof.
  intros Ht Hm Hh Etpl Emd Hc Hrun.
  pose proof (html_not_markdown _ _ Hm Hh) as Hmh.
  exists (write hpath "" fs). split; [| split].
  - unfold to_html. rewrite Ht, Hm, Hh, Etpl, Emd, Hc. cbn [negb].
    cbv zeta. rewrite !write_other by done. rewrite Emd.
    rewrite markup_before_output by done. by rewrite Hrun.
  - apply write_same.
  - intros p Hp. by rewrite write_other.
Qed.

Lemma failed_conversion_empties_output_witness :
  exists fs',
    to_html
      (write "page.tpl" "{}"
         (write "notes.md" "![a](b.txt)"
            (write "notes.html" "old page" no_files)))
      (fun _ => true) "page.tpl" "notes.md" "notes.html" []
    = (Exception (RuntimeError "Cannot inline <b.txt>"), fs')
    /\ fs' "notes.html" = Some ""
    /\ forall p, p <> "notes.html" ->
         fs' p
         = write "page.tpl" "{}"
             (write "notes.md" "![a](b.txt)"
                (write "notes.html" "old page" no_files)) p.
Proof.
  apply (failed_conversion_empties_output _ (fun _ => true) "page.tpl"
           "notes.md" "notes.html" [] "{}" "![a](b.txt)"
           (RuntimeError "Cannot inline <b.txt>"));
    first [ reflexivity | vm_compute; reflexivity ].
Defined.

(** ** Blocks of lines *)

Section BlockRun.

Variable marker : re.
Variable f : list (option string) -> M string.
Variable render : bool -> string -> bool -> string.
(** [mark mk t]: the marker reads [mk] in front of the text [t]. *)
Variable mark : string -> string -> Prop.

Hypothesis marker_flat : ngroups marker = 0.
Hypothesis marker_reads :
  forall mk t, mark mk t ->
    forall s b g k (x : mstate),
      k (MState (rev_onto mk b) (t +:+ s) g) = Some x ->
      go marker (MState b (mk +:+ t +:+ s) g) k = Some x.
Hypothesis f_renders :
  forall g0 cb text ca blobs,
    f [g0; Some (String cb ""); Some text; Some (String ca "")] blobs
    = Ok (render (Ascii.eqb cb nl) text (Ascii.eqb ca nl), blobs).

Lemma block_match (cb ca : ascii) (bef mk t rest' : string) :
  mark mk t -> t <> "" -> str_all dot t = true ->
  match_at (block_line_re marker) (String cb bef)
    (NL +:+ mk +:+ t +:+ NL +:+ String ca rest')
  = Some ([Some (NL +:+ mk +:+ t); Some (String cb ""); Some t;
           Some (String ca "")], NL +:+ String ca rest').
Proof.
  intros Hmk Hne Ht.
  apply (match_at_intro (block_line_re marker) _ _
           (MState (rev_onto (NL +:+ mk +:+ t) (String cb bef))
              (NL +:+ String ca rest')
              [None; Some (String cb ""); Some t; Some (String ca "")])
           (NL +:+ mk +:+ t)).
  2: { cbn [rest]. by rewrite !str_app_assoc. }
  assert (ngroups (block_line_re marker) = 3) as ->.
  { unfold block_line_re, any_as, plus, Chr. cbn [ngroups].
    by rewrite marker_flat. }
  unfold block_line_re. cbn [replicate go unread rest before groups].
  rewrite go_any_as.
  cbn [groups NL String.append]. unfold Chr at 1.
  cbn [go rest before groups]. change (is_char nl nl) with true. cbn iota.
  apply (marker_reads mk t Hmk).
  unfold plus. cbn [go rest before groups].
  apply rep_greedy_max; [done | by apply length_nonempty | done |].
  unfold set_group. cbn [rest before groups].
  rewrite (consumed_eq _ _ t) by (cbn [rest]; reflexivity).
  unfold Chr. cbn [go rest before groups].
  change (is_char nl nl) with true. cbn iota. rewrite go_any_as.
  cbn [rest before groups rev_onto list_insert].
  repeat first [ rewrite rev_onto_app
               | progress cbn [rev_onto String.append list_insert] ].
  done.
Qed.

Lemma block_match_whole (cb ca : ascii) (bef mk t rest' : string) :
  mark mk t -> t <> "" -> str_all dot t = true ->
  match_at (block_line_re marker) (String cb bef)
    ((NL +:+ mk +:+ t) +:+ NL +:+ String ca rest')
  = Some ([Some (NL +:+ mk +:+ t); Some (String cb ""); Some t;
           Some (String ca "")], NL +:+ String ca rest').
Proof.
  intros Hmk Hne Ht. rewrite <- (block_match cb ca bef mk t rest') by done.
  by rewrite !str_app_assoc.
Qed.

Lemma dot_not_newline (c : ascii) : dot c = true -> Ascii.eqb c nl = false.
Proof.
  unfold dot, not_char. intros H%negb_true_iff.
  by rewrite Ascii.eqb_sym.
Qed.

(** A run of block lines that ends at an empty line: every line is
    rewritten, the first as the first when the line before the run is
    empty, the last as the last. *)
Lemma block_run (tl : string) blobs :
  (forall bef,
     sub_from (block_line_re marker) (Function f) 0 bef (NL +:+ NL +:+ tl)
       blobs
     = Ok (NL +:+ NL +:+ tl, blobs)) ->
  forall items,
    items <> [] ->
    Forall (fun it : string * string =>
              mark it.1 it.2 /\ it.1 <> "" /\ str_all dot it.1 = true
              /\ it.2 <> "" /\ str_all dot it.2 = true) items ->
    forall cb bef,
      sub_from (block_line_re marker) (Function f) 0 (String cb bef)
        (block_src items +:+ NL +:+ NL +:+ tl) blobs
      = Ok (block_out render (Ascii.eqb cb nl) items +:+ NL +:+ NL +:+ tl,
            blobs).
Proof.
  intros Htail. induction items as [|[mk t] items IH]; [done |].
  intros _ Hok cb bef.
  apply Forall_cons in Hok as [(Hm & Hmk & Hmkd & Ht & Htd) Hok].
  cbn [fst snd] in *. cbn [block_src block_out].
  destruct items as [|[mk2 t2] items].
  - cbn [block_src block_out].
    replace ((NL +:+ mk +:+ t +:+ "") +:+ NL +:+ NL +:+ tl)
      with ((NL +:+ mk +:+ t) +:+ NL +:+ String nl tl)
      by (by rewrite str_app_nil_r, !str_app_assoc).
    eapply ok_eq.
    + eapply sub_from_match_ok;
        [ done | by apply block_match_whole
        | cbn [apply_repl]; rewrite f_renders; reflexivity
        | apply (Htail _) ].
    + rewrite Ascii.eqb_refl. by rewrite str_app_nil_r.
  - apply Forall_cons in Hok as Hok'.
    destruct Hok' as [(_ & Hmk2 & Hmkd2 & _ & _) _]. cbn [fst snd] in *.
    destruct mk2 as [|ca mk2]; [done |].
    cbn [str_all] in Hmkd2. apply andb_true_iff in Hmkd2 as [Hca _].
    apply dot_not_newline in Hca.
    destruct (rev_onto_last dot t
                (rev_onto mk (rev_onto NL (String cb bef))) Ht Htd)
      as (cl & bl & El & Hcl).
    apply dot_not_newline in Hcl.
    specialize (IH ltac:(done) Hok cl bl). rewrite Hcl in IH.
    cbn [block_src] in IH |- *.
    replace ((NL +:+ mk +:+ t
              +:+ NL +:+ String ca mk2 +:+ t2 +:+ block_src items)
             +:+ NL +:+ NL +:+ tl)
      with ((NL +:+ mk +:+ t) +:+ NL
            +:+ String ca (mk2 +:+ t2 +:+ block_src items +:+ NL +:+ NL
                           +:+ tl))
      by str_norm.
    eapply ok_eq.
    + eapply sub_from_match_ok;
        [ done | by apply block_match_whole
        | cbn [apply_repl]; rewrite f_renders; reflexivity | ].
      rewrite !rev_onto_app, El.
      etransitivity; [| apply IH]. f_equal. str_norm.
    + rewrite Hca. str_norm.
Qed.

Hypothesis marker_strict : empty_ok marker = false.
Hypothesis marker_line : first marker nl = false.

Lemma block_prefix rp (l suf bef : string) blobs out blobs' :
  str_all (not_char nl) l = true ->
  sub_from (block_line_re marker) rp 0 (rev_onto l bef) suf blobs
  = Ok (out, blobs') ->
  sub_from (block_line_re marker) rp 0 bef (l +:+ suf) blobs
  = Ok (l +:+ out, blobs').
Proof.
  intros Hl. apply sub_from_prefix_ok; [done |].
  eapply str_all_impl; [| exact Hl]. intros c Hc.
  rewrite first_block_line. exact Hc.
Qed.

(** The block rule over a paragraph line, an empty line, a run of block
    lines, an empty line and a last line. *)
Lemma block_pass (x y : string) (items : list (string * string)) blobs :
  str_all (not_char nl) x = true ->
  str_all (not_char nl) y = true -> stops (first marker) (y +:+ NL) ->
  items <> [] ->
  Forall (fun it : string * string =>
            mark it.1 it.2 /\ it.1 <> "" /\ str_all dot it.1 = true
            /\ it.2 <> "" /\ str_all dot it.2 = true) items ->
  sub (block_line_re marker) (Function f)
    (NL +:+ x +:+ NL +:+ block_src items +:+ NL +:+ NL +:+ y +:+ NL) blobs
  = Ok (NL +:+ x +:+ NL +:+ block_out render true items +:+ NL +:+ NL +:+ y
        +:+ NL, blobs).
Proof.
  intros Hx Hy Hys Hne Hok. unfold sub.
  change (NL +:+ x +:+ NL +:+ block_src items +:+ NL +:+ NL +:+ y +:+ NL)
    with (String nl (x +:+ NL +:+ block_src items +:+ NL +:+ NL +:+ y
                     +:+ NL)).
  eapply ok_eq.
  - eapply sub_from_step_ok; [apply block_line_at_start |].
    apply block_prefix; [done |].
    destruct items as [|[mk t] items]; [done |].
    change (NL +:+ block_src ((mk, t) :: items) +:+ NL +:+ NL +:+ y +:+ NL)
      with (String nl (block_src ((mk, t) :: items) +:+ NL +:+ NL +:+ y
                       +:+ NL)).
    eapply sub_from_step_ok; [by apply block_line_second |].
    apply block_run; [| done | done].
    intros bef. unfold NL. cbn [String.append].
    eapply sub_from_step_ok; [by apply block_line_second |].
    eapply sub_from_step_ok; [by apply block_line_second |].
    rewrite <- (str_app_nil_r (String nl "")).
    change (String nl "" +:+ "") with (NL +:+ "").
    apply block_prefix; [done |]. unfold NL. cbn [String.append].
    eapply sub_from_step_ok; [by apply block_line_second |].
    apply sub_from_end_ok. unfold block_line_re. done.
  - cbn [String.append]. reflexivity.
Qed.

End BlockRun.

(** A rule that looks behind for a newline finds nothing in a document none
    of whose lines begins like its pattern. *)
Lemma line_rule_none (r : re) rp (ls : list string) blobs :
  empty_ok r = false ->
  (forall c, guard r c = is_char nl c) ->
  first r nl = false ->
  Forall (fun l => str_all (not_char nl) l = true
                   /\ stops (first r) (l +:+ NL)) ls ->
  sub r rp (NL +:+ unlines ls) blobs = Ok (NL +:+ unlines ls, blobs).
Proof.
  intros He Hg Hnl Hls. unfold sub, NL. cbn [String.append].
  eapply sub_from_step_ok; [by apply match_at_first |].
  generalize (String nl "") as bef.
  induction Hls as [|l ls [Hl Hs] _ IH]; intros bef.
  - by apply sub_from_end_ok.
  - cbn [unlines]. destruct l as [|c l].
    + cbn [String.append NL].
      eapply sub_from_step_ok; [by apply match_at_first |]. apply IH.
    + cbn [String.append stops str_all] in *.
      apply andb_true_iff in Hl as [Hc Hl].
      eapply sub_from_step_ok; [by apply match_at_first |].
      eapply sub_from_guard_ok.
      * rewrite Hg. unfold not_char in Hc. unfold is_char.
        by apply negb_true_iff.
      * eapply str_all_impl; [| exact Hl]. intros a Ha. rewrite Hg.
        exact Ha.
      * unfold NL. cbn [String.append].
        eapply sub_from_step_ok; [by apply match_at_first |]. apply IH.
Qed.

(** ** The rules around a block *)

(** The first six rules need a backtick, an opening angle bracket or a
    colon. *)
Lemma early_rules fs (doc : string) blobs :
  str_all (fun c => negb (one_of "`<:" c)) doc = true ->
  apply_rules (rules fs) doc blobs = apply_rules (skipn 6 (rules fs)) doc blobs.
Proof.
  intros Hdoc. unfold rules.
  skip_absent Hdoc "`"%char. do 4 skip_absent Hdoc "<"%char.
  skip_absent Hdoc ":"%char. reflexivity.
Qed.

Lemma par_line_alphabet (p : ascii -> bool) (l : string) :
  p "<"%char = true -> p ">"%char = true -> p "p"%char = true ->
  p "/"%char = true ->
  str_all p l = true -> str_all p (par_line l) = true.
Proof.
  intros H1 H2 H3 H4 Hl. unfold par_line. destruct l as [|c l]; [done |].
  destruct (startswith_any _ _); [done |].
  rewrite !str_all_app, Hl. cbn [str_all]. by rewrite H1, H2, H3, H4.
Qed.

(** The rules after the block rules, over lines of ordinary characters and
    tags none of which begins with a closing angle bracket: the paragraph
    rule is the only one that rewrites. *)
Lemma late_rules fs (ls : list string) blobs :
  Forall (fun l => str_all (fun c => plain c || one_of "<>" c) l = true
                   /\ stops (is_char ">") (l +:+ NL)) ls ->
  apply_rules (skipn 9 (rules fs)) (NL +:+ unlines ls) blobs
  = Ok (NL +:+ unlines (par_line <$> ls), blobs).
Proof.
  intros H.
  assert (forall ls' : list string,
            Forall (fun l => str_all (fun c => plain c || one_of "<>" c) l
                             = true) ls' ->
            str_all (fun c => plain c || Ascii.eqb c nl || one_of "<>" c)
              (NL +:+ unlines ls') = true) as Halpha.
  { intros ls' H'. rewrite str_all_app. apply andb_true_intro.
    split; [done |]. apply str_all_unlines; [done |].
    eapply Forall_impl; [exact H' |]. intros l Hl.
    eapply str_all_impl; [| exact Hl]. apply by_ascii. by vm_compute. }
  assert (Forall (fun l => str_all (not_char nl) l = true) ls) as Hnl.
  { eapply Forall_impl; [exact H |]. intros l [Hl _].
    eapply str_all_impl; [| exact Hl]. apply by_ascii. by vm_compute. }
  pose proof (Halpha ls ltac:(eapply Forall_impl; [exact H |]; by intros l [? _]))
    as Hdoc.
  pose proof (Halpha (par_line <$> ls)
                ltac:(apply Forall_fmap; eapply Forall_impl; [exact H |];
                      intros l [? _]; by apply par_line_alphabet)) as Hout.
  unfold rules. cbn [skipn].
  skip_absent Hdoc "!"%char.
  rewrite apply_rules_none.
  2: { cbn [pattern replacement]. apply line_rule_none; [done | done | done |].
       eapply Forall_impl; [exact H |]. intros l [Hl Hs]. split.
       - eapply str_all_impl; [| exact Hl]. apply by_ascii. by vm_compute.
       - unfold stops in *. destruct (l +:+ NL) as [|c s]; [done |].
         rewrite <- Hs. unfold quote_re, Chr.
         cbn [first empty_ok Lit andb orb]. by rewrite ?orb_false_r. }
  skip_absent Hdoc "#"%char. skip_absent Hdoc "-"%char.
  do 2 skip_absent Hdoc "["%char.
  erewrite apply_rules_step.
  2: { cbn [pattern replacement]. by apply paragraph_pass. }
  do 2 skip_absent Hout "*"%char. skip_absent Hout "_"%char.
  skip_absent Hout "~"%char. skip_absent Hout "`"%char.
  rewrite apply_rules_skip_first.
  2: done.
  2: { eapply str_all_impl; [| exact Hout]. apply by_ascii.
       vm_compute. reflexivity. }
  skip_absent Hout "-"%char. skip_absent Hout ":"%char.
  skip_absent Hout "["%char.
  reflexivity.
Qed.

(** ** Lists of any length *)

Lemma block_src_unlines (items : list (string * string)) :
  block_src items +:+ NL
  = NL +:+ unlines ((fun it : string * string => it.1 +:+ it.2) <$> items).
Proof.
  induction items as [|[mk t] items IH]; [done |].
  rewrite fmap_cons.
  change (block_src ((mk, t) :: items))
    with (NL +:+ mk +:+ t +:+ block_src items).
  change (unlines (?a :: ?l)) with (a +:+ NL +:+ unlines l).
  cbv beta. change ((mk, t).1) with mk. change ((mk, t).2) with t.
  by rewrite !str_app_assoc, IH.
Qed.

Lemma doc_of_block (x y : string) (items : list (string * string)) :
  NL +:+ unlines ([x; ""] ++ ((fun it : string * string => it.1 +:+ it.2)
                              <$> items) ++ [""; y])
  = NL +:+ x +:+ NL +:+ block_src items +:+ NL +:+ NL +:+ y +:+ NL.
Proof.
  rewrite !unlines_app.
  change (unlines [x; ""]) with (x +:+ NL +:+ "" +:+ NL +:+ "").
  change (unlines [""; y]) with ("" +:+ NL +:+ y +:+ NL +:+ "").
  rewrite <- (str_app_assoc (block_src items) NL), block_src_unlines.
  str_norm.
Qed.

Lemma block_out_list (tag : string) (items : list (string * string)) :
  items <> [] ->
  block_out (render_list tag) false items
  = unlines ((fun it : string * string => list_item it.2) <$> items)
    +:+ "</" +:+ tag +:+ ">".
Proof.
  induction items as [|[mk t] items IH]; [done |]. intros _.
  rewrite fmap_cons.
  change (unlines (?a :: ?l)) with (a +:+ NL +:+ unlines l).
  cbv beta. change ((mk, t).2) with t.
  destruct items as [|it items].
  - unfold block_out, render_list, list_item. rewrite fmap_nil.
    change (unlines []) with "". str_norm.
  - change (block_out (render_list tag) false ((mk, t) :: it :: items))
      with (render_list tag false t false
            +:+ block_out (render_list tag) false (it :: items)).
    rewrite IH by done. unfold render_list, list_item. str_norm.
Qed.

Lemma out_of_list (tag x y : string) (items : list (string * string)) :
  items <> [] ->
  NL +:+ x +:+ NL +:+ block_out (render_list tag) true items +:+ NL +:+ NL
  +:+ y +:+ NL
  = NL +:+ unlines ([x; ""; "<" +:+ tag +:+ ">"]
                    ++ ((fun it : string * string => list_item it.2)
                        <$> items)
                    ++ ["</" +:+ tag +:+ ">"; ""; y]).
Proof.
  intros Hne. destruct items as [|[mk t] items]; [done |].
  rewrite !unlines_app, fmap_cons. cbn [unlines fst snd].
  destruct items as [|it items].
  - unfold block_out, render_list, list_item. rewrite fmap_nil.
    cbn [unlines]. str_norm.
  - change (block_out (render_list tag) true ((mk, t) :: it :: items))
      with (render_list tag true t false
            +:+ block_out (render_list tag) false (it :: items)).
    rewrite block_out_list by done. unfold render_list, list_item. str_norm.
Qed.

Lemma ordered_item (cb ca : ascii) g0 (text : string) blobs :
  ordered_list_item
    [g0; Some (String cb ""); Some text; Some (String ca "")] blobs
  = Ok (render_list "ol" (Ascii.eqb cb nl) text (Ascii.eqb ca nl), blobs).
Proof.
  unfold ordered_list_item, str_eqb, render_list.
  cbn [match_groups tail NL String.eqb ret].
  by destruct (Ascii.eqb cb nl), (Ascii.eqb ca nl).
Qed.

Lemma unordered_item_list (cb ca : ascii) g0 (text : string) blobs :
  unordered_list_item
    [g0; Some (String cb ""); Some text; Some (String ca "")] blobs
  = Ok (render_list "ul" (Ascii.eqb cb nl) text (Ascii.eqb ca nl), blobs).
Proof.
  unfold unordered_list_item, str_eqb, render_list.
  cbn [match_groups tail NL String.eqb ret].
  by destruct (Ascii.eqb cb nl), (Ascii.eqb ca nl).
Qed.

Lemma ordered_marker_reads (mk t : string) :
  (exists n, n <> "" /\ str_all is_digit n = true /\ mk = n +:+ ") ") ->
  forall s b g k (x : mstate),
    k (MState (rev_onto mk b) (t +:+ s) g) = Some x ->
    go (plus is_digit · Cls (one_of ")") · Chr " ")%re
      (MState b (mk +:+ t +:+ s) g) k = Some x.
Proof.
  intros (n & Hn & Hd & ->) s b g k x Hk.
  unfold plus. cbn [go rest before groups]. rewrite str_app_assoc.
  apply rep_greedy_max; [done | by apply length_nonempty | done |].
  unfold Chr. cbn [go rest before groups String.append].
  change (one_of ")" ")") with true. change (is_char " " " ") with true.
  cbn iota. rewrite rev_onto_app in Hk. exact Hk.
Qed.

Lemma unordered_marker_reads (mk t : string) :
  mk = "- " \/ mk = "* " ->
  forall s b g k (x : mstate),
    k (MState (rev_onto mk b) (t +:+ s) g) = Some x ->
    go (Cls (one_of "-*") · Chr " ")%re (MState b (mk +:+ t +:+ s) g) k
    = Some x.
Proof.
  intros [-> | ->] s b g k x Hk; unfold Chr;
    cbn [go rest before groups String.append];
    [ change (one_of "-*" "-") with true | change (one_of "-*" "*") with true ];
    change (is_char " " " ") with true; cbn iota; exact Hk.
Qed.

Lemma stops_impl (p q : ascii -> bool) (s : string) :
  (forall c, p c = true -> q c = true) -> stops q s -> stops p s.
Proof.
  intros H. destruct s as [|c s]; [done |]. cbn [stops]. intros Hq.
  destruct (p c) eqn:E; [| done]. by rewrite (H c E) in Hq.
Qed.

Lemma text_line_start (l : string) :
  text_line l = true ->
  stops (fun c => negb (plain c || is_digit c || Ascii.eqb c nl)
                  || Ascii.eqb c " ") (l +:+ NL).
Proof.
  unfold text_line. intros [Hp Hs]%andb_true_iff.
  destruct l as [|c l]; [done |].
  cbn [str_all startswith] in *. apply andb_true_iff in Hp as [Hc _].
  rewrite andb_true_r in Hs. cbn [String.append stops].
  apply negb_true_iff in Hs. rewrite Ascii.eqb_sym in Hs.
  by rewrite Hc, Hs.
Qed.

Ltac lines_all :=
  repeat first
    [ apply Forall_app; split
    | apply Forall_cons; split
    | apply Forall_nil ].

(** A block rule finds nothing in a document none of whose lines begins
    with a character its marker can begin with. *)
Lemma block_rule_idle (marker : re) (q : ascii -> bool) rp (ls : list string)
    blobs :
  empty_ok marker = false ->
  forallb (fun c => implb (first marker c) (q c)) all_ascii = true ->
  Forall (fun l => str_all (not_char nl) l = true /\ stops q (l +:+ NL)) ls ->
  sub (block_line_re marker) rp (NL +:+ unlines ls) blobs
  = Ok (NL +:+ unlines ls, blobs).
Proof.
  intros He Hq Hls. apply block_lines_none; [done |].
  eapply Forall_impl; [exact Hls |]. intros l [Hl Hs]. split; [done |].
  eapply stops_impl; [| exact Hs]. by apply by_ascii.
Qed.

(** The lines of a block between two paragraph lines: all over the
    alphabet [p], none starting with a character of [q]. *)
Lemma block_src_lines (p q : ascii -> bool) (x y : string)
    (items : list (string * string)) :
  str_all p x = true -> stops q (x +:+ NL) ->
  str_all p y = true -> stops q (y +:+ NL) ->
  q nl = false ->
  Forall (fun it : string * string =>
            str_all p it.1 = true /\ str_all p it.2 = true
            /\ stops q ((it.1 +:+ it.2) +:+ NL)) items ->
  Forall (fun l => str_all p l = true /\ stops q (l +:+ NL))
    ([x; ""] ++ ((fun it : string * string => it.1 +:+ it.2) <$> items)
     ++ [""; y]).
Proof.
  intros Hx Hxs Hy Hys Hq Hitems.
  lines_all; try done.
  apply Forall_fmap. eapply Forall_impl; [exact Hitems |].
  intros [mk t] (Hmk & Ht & Hs). unfold compose. cbn [fst snd] in *.
  split; [| done]. by rewrite str_all_app, Hmk.
Qed.

(** The lines a list rule leaves: ordinary characters and tags, each line
    empty or starting with an ordinary character or a tag. *)
Lemma list_out_lines (tag x y : string) (items : list (string * string)) :
  str_all plain tag = true ->
  text_line x = true -> text_line y = true ->
  Forall (fun it : string * string => str_all plain it.2 = true) items ->
  Forall (fun l => str_all (fun c => plain c || one_of "<>" c) l = true
                   /\ stops (fun c => negb (plain c || Ascii.eqb c "<"
                                            || Ascii.eqb c nl)) (l +:+ NL))
    ([x; ""; "<" +:+ tag +:+ ">"]
     ++ ((fun it : string * string => list_item it.2) <$> items)
     ++ ["</" +:+ tag +:+ ">"; ""; y]).
Proof.
  intros Htag Hx Hy Hitems.
  assert (forall l, str_all plain l = true ->
            str_all (fun c => plain c || one_of "<>" c) l = true) as Hp.
  { intros l Hl. eapply str_all_impl; [| exact Hl]. by intros c ->. }
  assert (forall l, text_line l = true ->
            stops (fun c => negb (plain c || Ascii.eqb c "<"
                                  || Ascii.eqb c nl)) (l +:+ NL)) as Hs.
  { intros l Hl%text_line_plain. destruct l as [|c l]; [done |].
    cbn [str_all] in Hl. apply andb_true_iff in Hl as [Hc _].
    cbn [String.append stops]. by rewrite Hc. }
  lines_all; try done;
    try (split; [by apply Hp, text_line_plain | by apply Hs]).
  - split; [| done]. rewrite !str_all_app, (Hp tag Htag). done.
  - apply Forall_fmap. eapply Forall_impl; [exact Hitems |].
    intros [mk t] Ht. unfold compose, list_item. cbn [fst snd] in *.
    split; [| done]. rewrite !str_all_app, (Hp t Ht). done.
  - split; [| done]. rewrite !str_all_app, (Hp tag Htag). done.
Qed.

Lemma list_par_lines (tag x y : string) (items : list (string * string)) :
  text_line x = true -> text_line y = true ->
  par_line <$> ([x; ""; "<" +:+ tag +:+ ">"]
                ++ ((fun it : string * string => list_item it.2) <$> items)
                ++ ["</" +:+ tag +:+ ">"; ""; y])
  = [wrapped x; ""; "<" +:+ tag +:+ ">"]
    ++ ((fun it : string * string => list_item it.2) <$> items)
    ++ ["</" +:+ tag +:+ ">"; ""; wrapped y].
Proof.
  intros Hx Hy. rewrite !fmap_app. cbn [fmap list_fmap].
  rewrite (text_line_wrapped x), (text_line_wrapped y) by done.
  f_equal. f_equal. rewrite <- list_fmap_compose. by apply list_fmap_ext.
Qed.

Lemma ordered_rules fs (x y : string) (items : list (string * string)) blobs :
  text_line x = true -> text_line y = true -> items <> [] ->
  Forall (fun it : string * string =>
            it.1 <> "" /\ str_all is_digit it.1 = true
            /\ it.2 <> "" /\ str_all plain it.2 = true) items ->
  apply_rules (rules fs)
    (NL +:+ unlines ([x; ""]
                     ++ ((fun it : string * string =>
                            it.1 +:+ ") " +:+ it.2) <$> items)
                     ++ [""; y])) blobs
  = Ok (NL +:+ unlines ([wrapped x; ""; "<ol>"]
                        ++ ((fun it : string * string => list_item it.2)
                            <$> items)
                        ++ ["</ol>"; ""; wrapped y]), blobs).
Proof.
  intros Hx Hy Hne Hitems.
  pose proof (text_line_plain x Hx) as Hxp.
  pose proof (text_line_plain y Hy) as Hyp.
  pose (items' := (fun it : string * string => (it.1 +:+ ") ", it.2))
                  <$> items).
  assert (((fun it : string * string => it.1 +:+ ") " +:+ it.2) <$> items)
          = ((fun it : string * string => it.1 +:+ it.2) <$> items')) as ->.
  { unfold items'. rewrite <- list_fmap_compose. apply list_fmap_ext.
    intros i [n t] _. unfold compose. cbn [fst snd]. by rewrite str_app_assoc. }
  assert (((fun it : string * string => list_item it.2) <$> items)
          = ((fun it : string * string => list_item it.2) <$> items')) as ->.
  { unfold items'. by rewrite <- list_fmap_compose. }
  assert (items' <> []) as Hne' by (unfold items'; by destruct items).
  assert (Forall (fun it : string * string =>
                    str_all (fun c => plain c || is_digit c) it.1 = true
                    /\ str_all plain it.2 = true
                    /\ stops (fun c => negb (plain c || is_digit c
                                             || Ascii.eqb c nl)
                                       || Ascii.eqb c " ")
                         ((it.1 +:+ it.2) +:+ NL)) items') as Hsrc.
  { unfold items'. apply Forall_fmap. eapply Forall_impl; [exact Hitems |].
    intros [n t] (Hn & Hd & Ht & Hp). unfold compose. cbn [fst snd] in *.
    split; [| split; [done |]].
    - rewrite str_all_app. apply andb_true_intro. split; [| done].
      eapply str_all_impl; [| exact Hd]. intros c ->. by rewrite orb_true_r.
    - destruct n as [|c n]; [done |]. cbn [str_all] in Hd.
      apply andb_true_iff in Hd as [Hc _]. cbn [String.append stops].
      apply negb_true_iff. clear Hn. revert c Hc. apply by_ascii.
      by vm_compute. }
  assert (Forall (fun it : string * string =>
                    (exists n, n <> "" /\ str_all is_digit n = true
                               /\ it.1 = n +:+ ") ")
                    /\ it.1 <> "" /\ str_all dot it.1 = true
                    /\ it.2 <> "" /\ str_all dot it.2 = true) items')
    as Hmark.
  { unfold items'. apply Forall_fmap. eapply Forall_impl; [exact Hitems |].
    intros [n t] (Hn & Hd & Ht & Hp). unfold compose. cbn [fst snd] in *.
    split; [by exists n |]. split; [by destruct n |].
    split; [| split; [done | by apply plain_no_newline]].
    rewrite str_all_app. apply andb_true_intro. split; [| done].
    eapply str_all_impl; [| exact Hd]. apply by_ascii. by vm_compute. }
  pose proof (block_src_lines (fun c => plain c || is_digit c) _ x y items'
                ltac:(eapply str_all_impl; [| exact Hxp]; by intros c ->)
                (text_line_start x Hx)
                ltac:(eapply str_all_impl; [| exact Hyp]; by intros c ->)
                (text_line_start y Hy) eq_refl
                ltac:(eapply Forall_impl; [exact Hsrc |];
                      intros it (H1 & H2 & H3);
                      split; [done | split; [| done]];
                      eapply str_all_impl; [| exact H2]; by intros c ->))
    as Hlines.
  assert (Forall (fun l => str_all (not_char nl) l = true
                   /\ stops (fun c => negb (plain c || is_digit c
                                            || Ascii.eqb c nl)
                                      || Ascii.eqb c " ") (l +:+ NL))
            ([x; ""] ++ ((fun it : string * string => it.1 +:+ it.2)
                         <$> items') ++ [""; y])) as Hidle.
  { eapply Forall_impl; [exact Hlines |]. intros l [Hl Hs]. split; [| done].
    eapply str_all_impl; [| exact Hl]. apply by_ascii. by vm_compute. }
  rewrite early_rules.
  2: { rewrite str_all_app. apply andb_true_intro. split; [done |].
       apply str_all_unlines; [done |].
       eapply Forall_impl; [exact Hlines |]. intros l [Hl _].
       eapply str_all_impl; [| exact Hl]. apply by_ascii. by vm_compute. }
  unfold rules. cbn [skipn].
  rewrite apply_rules_none.
  2: { cbn [pattern replacement].
       eapply block_rule_idle; [done | | exact Hidle]. by vm_compute. }
  rewrite apply_rules_none.
  2: { cbn [pattern replacement].
       eapply block_rule_idle; [done | | exact Hidle]. by vm_compute. }
  erewrite apply_rules_step.
  2: { cbn [pattern replacement]. rewrite doc_of_block. unfold ordered_re.
       apply (block_pass _ _ (render_list "ol")
                (fun mk _ => exists n, n <> "" /\ str_all is_digit n = true
                                       /\ mk = n +:+ ") "));
         [ done
         | intros mk t Hmk; by apply ordered_marker_reads
         | intros; apply ordered_item
         | done | done
         | by apply plain_no_newline | by apply plain_no_newline
         | | done | done ].
       clear -Hyp. destruct y as [|c y]; [done |]. cbn [str_all] in Hyp.
       apply andb_true_iff in Hyp as [Hc _]. cbn [String.append stops].
       apply negb_true_iff. revert c Hc. apply by_ascii. by vm_compute. }
  rewrite out_of_list by done.
  change (apply_rules ?rs ?d ?b) with (apply_rules (skipn 9 (rules fs)) d b).
  rewrite late_rules.
  - by rewrite list_par_lines.
  - eapply Forall_impl.
    + apply (list_out_lines "ol" x y items'); [done | done | done |].
      eapply Forall_impl; [exact Hsrc |]. by intros it (_ & ? & _).
    + intros l [Hl Hs]. split; [done |].
      eapply stops_impl; [| exact Hs]. apply by_ascii. by vm_compute.
Qed.

Lemma strip_lines (ls : list string) (a z : string) :
  head ls = Some ("<" +:+ a) -> last ls = Some (z +:+ ">") ->
  strip (NL +:+ unlines ls) +:+ NL = unlines ls.
Proof.
  intros Ha Hz. unfold strip.
  assert (lstrip (NL +:+ unlines ls) = unlines ls) as ->.
  { destruct ls as [|a' tl]; [done |]. injection Ha as ->. done. }
  apply last_Some in Hz as [init ->].
  rewrite unlines_app. cbn [unlines].
  replace (unlines init +:+ (z +:+ ">") +:+ NL +:+ "")
    with ((unlines init +:+ z) +:+ (">" +:+ NL))
    by (by rewrite !str_app_assoc, str_app_nil_r).
  rewrite rstrip_app by (by vm_compute).
  change (rstrip (">" +:+ NL)) with ">". by rewrite !str_app_assoc.
Qed.

(** The end of [markup] for a document of lines without braces, the first
    starting and the last ending with a tag. *)
Lemma resolve_lines (ls : list string) (a z : string) blobs :
  head ls = Some ("<" +:+ a) -> last ls = Some (z +:+ ">") ->
  Forall (fun l => str_all (fun c => negb (is_brace c)) l = true) ls ->
  resolve (NL +:+ unlines ls) blobs = Ok (unlines ls, blobs).
Proof.
  intros Ha Hz Hb. unfold resolve.
  pose proof (strip_lines ls a z Ha Hz) as Hs.
  assert (str_all (fun c => negb (is_brace c)) (unlines ls) = true) as Hu
    by (by apply str_all_unlines).
  rewrite format_plain; [by rewrite Hs |].
  rewrite <- Hs, str_all_app in Hu. by apply andb_true_iff in Hu as [? _].
Qed.

Lemma list_lines_no_brace (tag x y : string)
    (items : list (string * string)) :
  str_all plain tag = true -> str_all plain x = true ->
  str_all plain y = true ->
  Forall (fun it : string * string => str_all plain it.2 = true) items ->
  Forall (fun l => str_all (fun c => negb (is_brace c)) l = true)
    (["<p>" +:+ x +:+ "</p>"; ""; "<" +:+ tag +:+ ">"]
     ++ ((fun it : string * string => list_item it.2) <$> items)
     ++ ["</" +:+ tag +:+ ">"; ""; "<p>" +:+ y +:+ "</p>"]).
Proof.
  intros Htag Hx Hy Hitems.
  lines_all; try done;
    try (rewrite !str_all_app; repeat (apply andb_true_intro; split);
         first [by apply plain_no_brace | done]).
  apply Forall_fmap. eapply Forall_impl; [exact Hitems |].
  intros [mk t] Ht. unfold compose, list_item. cbn [fst snd] in *.
  rewrite !str_all_app; repeat (apply andb_true_intro; split);
    first [by apply plain_no_brace | done].
Qed.

(** X17. A paragraph line, an empty line, any number of lines each made of
    a number, a closing bracket, a space and a text of ordinary characters,
    an empty line and a last paragraph line are converted to the first
    paragraph, one [<ol>] element with one [<li>] element for each numbered
    line, in order, and the last paragraph.  The numbers written in the
    source do not appear in the output. *)
Theorem numbered_lines_one_list fs (x y : string)
    (items : list (string * string)) blobs0 :
  x <> "" -> text_line x = true -> y <> "" -> text_line y = true ->
  items <> [] ->
  Forall (fun it : string * string =>
            it.1 <> "" /\ str_all is_digit it.1 = true
            /\ it.2 <> "" /\ str_all plain it.2 = true) items ->
  run (markup fs
         (join NL ([x; ""]
                   ++ ((fun it : string * string =>
                          it.1 +:+ ") " +:+ it.2) <$> items)
                   ++ [""; y]))) blobs0
  = Ok (unlines (["<p>" +:+ x +:+ "</p>"; ""; "<ol>"]
                 ++ ((fun it : string * string => list_item it.2) <$> items)
                 ++ ["</ol>"; ""; "<p>" +:+ y +:+ "</p>"])).
Proof.
  intros Hxne Hx Hyne Hy Hne Hitems. unfold run, markup, clear, bind.
  rewrite join_unlines by done. rewrite ordered_rules by done.
  rewrite !wrapped_nonempty by done.
  rewrite (resolve_lines _ ("p>" +:+ x +:+ "</p>") ("<p>" +:+ y +:+ "</p"));
    [done | done | | ].
  - change ["</ol>"; ""; "<p>" +:+ y +:+ "</p>"]
      with (["</ol>"; ""] ++ ["<p>" +:+ y +:+ "</p>"]).
    rewrite !app_assoc, last_snoc. f_equal. str_norm.
  - apply (list_lines_no_brace "ol"); [done | by apply text_line_plain
                                       | by apply text_line_plain |].
    eapply Forall_impl; [exact Hitems |]. by intros it (_ & _ & _ & ?).
Qed.

Lemma numbered_lines_one_list_witness :
  run (markup no_files
         (join NL (["Steps"; ""]
                   ++ ((fun it : string * string =>
                          it.1 +:+ ") " +:+ it.2)
                       <$> [("1", "mix"); ("7", "bake"); ("7", "cool");
                            ("10", "eat")])
                   ++ [""; "Done."]))) []
  = Ok (unlines (["<p>" +:+ "Steps" +:+ "</p>"; ""; "<ol>"]
                 ++ ((fun it : string * string => list_item it.2)
                     <$> [("1", "mix"); ("7", "bake"); ("7", "cool");
                          ("10", "eat")])
                 ++ ["</ol>"; ""; "<p>" +:+ "Done." +:+ "</p>"])).
Proof.
  apply (numbered_lines_one_list no_files "Steps" "Done."
           [("1", "mix"); ("7", "bake"); ("7", "cool"); ("10", "eat")] []);
    first [ discriminate | reflexivity
          | repeat first
              [ apply Forall_nil_2
              | apply Forall_cons_2;
                [ cbn [fst snd];
                  split; [discriminate |];
                  split; [reflexivity |];
                  split; [discriminate | reflexivity] |] ] ].
Defined.

Lemma plain_start (p : ascii -> bool) (y : string) :
  forallb (fun c => implb (p c) (negb (plain c))) all_ascii = true ->
  p nl = false ->
  str_all plain y = true -> stops p (y +:+ NL).
Proof.
  intros Hp Hnl Hy. destruct y as [|c y]; [exact Hnl |].
  cbn [str_all] in Hy. apply andb_true_iff in Hy as [Hc _].
  cbn [String.append stops]. destruct (p c) eqn:E; [| done].
  pose proof (by_ascii _ _ Hp c E) as H%negb_true_iff. congruence.
Qed.

Lemma unordered_rules fs (x y : string) (items : list (string * string))
    blobs :
  text_line x = true -> text_line y = true -> items <> [] ->
  Forall (fun it : string * string =>
            (it.1 = "-" \/ it.1 = "*")
            /\ it.2 <> "" /\ str_all plain it.2 = true) items ->
  apply_rules (rules fs)
    (NL +:+ unlines ([x; ""]
                     ++ ((fun it : string * string =>
                            it.1 +:+ " " +:+ it.2) <$> items)
                     ++ [""; y])) blobs
  = Ok (NL +:+ unlines ([wrapped x; ""; "<ul>"]
                        ++ ((fun it : string * string => list_item it.2)
                            <$> items)
                        ++ ["</ul>"; ""; wrapped y]), blobs).
Proof.
  intros Hx Hy Hne Hitems.
  pose proof (text_line_plain x Hx) as Hxp.
  pose proof (text_line_plain y Hy) as Hyp.
  pose (items' := (fun it : string * string => (it.1 +:+ " ", it.2))
                  <$> items).
  assert (((fun it : string * string => it.1 +:+ " " +:+ it.2) <$> items)
          = ((fun it : string * string => it.1 +:+ it.2) <$> items')) as ->.
  { unfold items'. rewrite <- list_fmap_compose. apply list_fmap_ext.
    intros i [n t] _. unfold compose. cbn [fst snd]. by rewrite str_app_assoc. }
  assert (((fun it : string * string => list_item it.2) <$> items)
          = ((fun it : string * string => list_item it.2) <$> items')) as ->.
  { unfold items'. by rewrite <- list_fmap_compose. }
  assert (items' <> []) as Hne' by (unfold items'; by destruct items).
  assert (Forall (fun it : string * string =>
                    str_all (fun c => plain c || one_of "-*" c) it.1 = true
                    /\ str_all (fun c => plain c || one_of "-*" c) it.2
                       = true
                    /\ stops (is_char " ") ((it.1 +:+ it.2) +:+ NL)) items')
    as Hsrc.
  { unfold items'. apply Forall_fmap. eapply Forall_impl; [exact Hitems |].
    intros [n t] (Hn & Ht & Hp). unfold compose. cbn [fst snd] in *.
    split; [by destruct Hn as [-> | ->] |].
    split; [| by destruct Hn as [-> | ->]].
    eapply str_all_impl; [| exact Hp]. by intros c ->. }
  assert (Forall (fun it : string * string =>
                    (it.1 = "- " \/ it.1 = "* ")
                    /\ it.1 <> "" /\ str_all dot it.1 = true
                    /\ it.2 <> "" /\ str_all dot it.2 = true) items')
    as Hmark.
  { unfold items'. apply Forall_fmap. eapply Forall_impl; [exact Hitems |].
    intros [n t] (Hn & Ht & Hp). unfold compose. cbn [fst snd] in *.
    split; [destruct Hn as [-> | ->]; [by left | by right] |].
    split; [by destruct Hn as [-> | ->] |].
    split; [by destruct Hn as [-> | ->] |].
    split; [done | by apply plain_no_newline]. }
  assert (forall l, text_line l = true -> stops (is_char " ") (l +:+ NL))
    as Hstart.
  { intros l Hl. eapply stops_impl; [| apply (text_line_start l Hl)].
    apply by_ascii. by vm_compute. }
  pose proof (block_src_lines (fun c => plain c || one_of "-*" c) _ x y items'
                ltac:(eapply str_all_impl; [| exact Hxp]; by intros c ->)
                (Hstart x Hx)
                ltac:(eapply str_all_impl; [| exact Hyp]; by intros c ->)
                (Hstart y Hy) eq_refl Hsrc) as Hlines.
  rewrite early_rules.
  2: { rewrite str_all_app. apply andb_true_intro. split; [done |].
       apply str_all_unlines; [done |].
       eapply Forall_impl; [exact Hlines |]. intros l [Hl _].
       eapply str_all_impl; [| exact Hl]. apply by_ascii. by vm_compute. }
  unfold rules. cbn [skipn].
  rewrite apply_rules_none.
  2: { cbn [pattern replacement].
       eapply (block_rule_idle _ (is_char " ")); [done | by vm_compute |].
       eapply Forall_impl; [exact Hlines |]. intros l [Hl Hs].
       split; [| done]. eapply str_all_impl; [| exact Hl].
       apply by_ascii. by vm_compute. }
  erewrite apply_rules_step.
  2: { cbn [pattern replacement]. rewrite doc_of_block. unfold unordered_re.
       apply (block_pass _ _ (render_list "ul")
                (fun mk _ => mk = "- " \/ mk = "* "));
         [ done
         | intros mk t Hmk; by apply unordered_marker_reads
         | intros; apply unordered_item_list
         | done | done
         | by apply plain_no_newline | by apply plain_no_newline
         | | done | done ].
       apply plain_start; [by vm_compute | done | done]. }
  rewrite out_of_list by done.
  assert (Forall (fun it : string * string => str_all plain it.2 = true)
            items') as Htexts.
  { unfold items'. apply Forall_fmap. eapply Forall_impl; [exact Hitems |].
    by intros [n t] (_ & _ & ?). }
  pose proof (list_out_lines "ul" x y items' eq_refl Hx Hy Htexts) as Hout.
  rewrite apply_rules_none.
  2: { cbn [pattern replacement].
       eapply block_rule_idle; [done | | ].
       2: { eapply Forall_impl; [exact Hout |]. intros l [Hl Hs].
            split; [| exact Hs]. eapply str_all_impl; [| exact Hl].
            apply by_ascii. by vm_compute. }
       by vm_compute. }
  change (apply_rules ?rs ?d ?b) with (apply_rules (skipn 9 (rules fs)) d b).
  rewrite late_rules.
  - by rewrite list_par_lines.
  - eapply Forall_impl; [exact Hout |].
    intros l [Hl Hs]. split; [done |].
    eapply stops_impl; [| exact Hs]. apply by_ascii. by vm_compute.
Qed.

(** X18. A paragraph line, an empty line, any number of lines each made of
    a hyphen or a star, a space and a text of ordinary characters, an empty
    line and a last paragraph line are converted to the first paragraph,
    one [<ul>] element with one [<li>] element for each item line, in
    order, and the last paragraph; the two markers can be mixed in one
    list. *)
Theorem item_lines_one_list fs (x y : string)
    (items : list (string * string)) blobs0 :
  x <> "" -> text_line x = true -> y <> "" -> text_line y = true ->
  items <> [] ->
  Forall (fun it : string * string =>
            (it.1 = "-" \/ it.1 = "*")
            /\ it.2 <> "" /\ str_all plain it.2 = true) items ->
  run (markup fs
         (join NL ([x; ""]
                   ++ ((fun it : string * string =>
                          it.1 +:+ " " +:+ it.2) <$> items)
                   ++ [""; y]))) blobs0
  = Ok (unlines (["<p>" +:+ x +:+ "</p>"; ""; "<ul>"]
                 ++ ((fun it : string * string => list_item it.2) <$> items)
                 ++ ["</ul>"; ""; "<p>" +:+ y +:+ "</p>"])).
Proof.
  intros Hxne Hx Hyne Hy Hne Hitems. unfold run, markup, clear, bind.
  rewrite join_unlines by done. rewrite unordered_rules by done.
  rewrite !wrapped_nonempty by done.
  rewrite (resolve_lines _ ("p>" +:+ x +:+ "</p>") ("<p>" +:+ y +:+ "</p"));
    [done | done | | ].
  - change ["</ul>"; ""; "<p>" +:+ y +:+ "</p>"]
      with (["</ul>"; ""] ++ ["<p>" +:+ y +:+ "</p>"]).
    rewrite !app_assoc, last_snoc. f_equal. str_norm.
  - apply (list_lines_no_brace "ul"); [done | by apply text_line_plain
                                       | by apply text_line_plain |].
    eapply Forall_impl; [exact Hitems |]. by intros it (_ & _ & ?).
Qed.

Lemma item_lines_one_list_witness :
  run (markup no_files
         (join NL (["To buy"; ""]
                   ++ ((fun it : string * string =>
                          it.1 +:+ " " +:+ it.2)
                       <$> [("-", "eggs"); ("*", "milk")])
                   ++ [""; "Soon."]))) []
  = Ok (unlines (["<p>" +:+ "To buy" +:+ "</p>"; ""; "<ul>"]
                 ++ ((fun it : string * string => list_item it.2)
                     <$> [("-", "eggs"); ("*", "milk")])
                 ++ ["</ul>"; ""; "<p>" +:+ "Soon." +:+ "</p>"])).
Proof.
  apply (item_lines_one_list no_files "To buy" "Soon."
           [("-", "eggs"); ("*", "milk")] []);
    first [ discriminate | reflexivity
          | repeat first
              [ apply Forall_nil_2
              | apply Forall_cons_2;
                [ cbn [fst snd];
                  split; [first [by left | by right] |];
                  split; [discriminate | reflexivity] |] ] ].
Defined.

(** ** Block quotations *)

Lemma blockquote_item (cb ca : ascii) g0 (text : string) blobs :
  blockquote [g0; Some (String cb ""); Some text; Some (String ca "")] blobs
  = Ok (render_quote (Ascii.eqb cb nl) text (Ascii.eqb ca nl), blobs).
Proof.
  unfold blockquote, str_eqb, render_quote.
  cbn [match_groups tail NL String.eqb ret].
  by destruct (Ascii.eqb cb nl), (Ascii.eqb ca nl).
Qed.

Lemma blockquote_marker_reads (mk t : string) :
  str_all (is_char " ") mk = true /\ 4 <= String.length mk
  /\ stops (is_char " ") (t +:+ NL) /\ t <> "" ->
  forall s b g k (x : mstate),
    k (MState (rev_onto mk b) (t +:+ s) g) = Some x ->
    go (at_least 4 (is_char " ")) (MState b (mk +:+ t +:+ s) g) k = Some x.
Proof.
  intros (Hmk & Hlen & Hs & Hne) s b g k x Hk.
  unfold at_least. cbn [go rest before groups].
  apply rep_greedy_max; [done | done | | done].
  destruct t; [done |]. exact Hs.
Qed.

Lemma block_out_quote_rest (items : list (string * string)) :
  items <> [] ->
  "<br/>" +:+ block_out render_quote false items +:+ NL
  = unlines (quote_lines false (snd <$> items)).
Proof.
  induction items as [|[mk t] items IH]; [done |]. intros _.
  destruct items as [|it items].
  - unfold block_out, render_quote. cbn [fmap list_fmap quote_lines unlines snd].
    str_norm.
  - change (block_out render_quote false ((mk, t) :: it :: items))
      with (render_quote false t false
            +:+ block_out render_quote false (it :: items)).
    rewrite !fmap_cons.
    change (quote_lines false ((mk, t).2 :: it.2 :: (snd <$> items)))
      with (("<br/>" +:+ t)
            :: quote_lines false (it.2 :: (snd <$> items))).
    cbn [unlines]. rewrite <- fmap_cons, <- IH by done.
    unfold render_quote. str_norm.
Qed.

Lemma block_out_quote (items : list (string * string)) :
  items <> [] ->
  block_out render_quote true items +:+ NL
  = NL +:+ unlines (quote_lines true (snd <$> items)).
Proof.
  intros Hne. destruct items as [|[mk t] items]; [done |].
  destruct items as [|it items].
  - unfold block_out, render_quote. cbn [fmap list_fmap quote_lines unlines snd].
    str_norm.
  - change (block_out render_quote true ((mk, t) :: it :: items))
      with (render_quote true t false
            +:+ block_out render_quote false (it :: items)).
    rewrite !fmap_cons.
    change (quote_lines true ((mk, t).2 :: it.2 :: (snd <$> items)))
      with (("<blockquote>" +:+ t)
            :: quote_lines false (it.2 :: (snd <$> items))).
    cbn [unlines]. rewrite <- fmap_cons, <- block_out_quote_rest by done.
    unfold render_quote. str_norm.
Qed.

Lemma out_of_quote (x y : string) (items : list (string * string)) :
  items <> [] ->
  NL +:+ x +:+ NL +:+ block_out render_quote true items +:+ NL +:+ NL +:+ y
  +:+ NL
  = NL +:+ unlines ([x; ""] ++ quote_lines true (snd <$> items) ++ [""; y]).
Proof.
  intros Hne. rewrite !unlines_app. cbn [unlines].
  rewrite <- (str_app_assoc (block_out render_quote true items) NL).
  rewrite block_out_quote by done. str_norm.
Qed.

Lemma quote_lines_tags (texts : list string) :
  Forall (fun t => str_all plain t = true) texts ->
  forall first,
    Forall (fun l => str_all (fun c => plain c || one_of "<>" c) l = true
                     /\ exists r, l = String "<" r)
      (quote_lines first texts).
Proof.
  induction 1 as [|t texts Ht _ IH]; intros first; [by apply Forall_nil_2 |].
  cbn [quote_lines]. apply Forall_cons_2; [| apply IH].
  assert (str_all (fun c => plain c || one_of "<>" c) t = true) as Ht'
    by (eapply str_all_impl; [| exact Ht]; by intros c ->).
  destruct first, texts; (split; [by rewrite !str_all_app, Ht' | by eexists]).
Qed.

Lemma quote_out_lines (x y : string) (texts : list string) :
  text_line x = true -> text_line y = true ->
  Forall (fun t => str_all plain t = true) texts ->
  Forall (fun l => str_all (fun c => plain c || one_of "<>" c) l = true
                   /\ stops (fun c => negb (plain c || Ascii.eqb c "<"
                                            || Ascii.eqb c nl)) (l +:+ NL))
    ([x; ""] ++ quote_lines true texts ++ [""; y]).
Proof.
  intros Hx Hy Htexts.
  assert (forall l, text_line l = true ->
            str_all (fun c => plain c || one_of "<>" c) l = true
            /\ stops (fun c => negb (plain c || Ascii.eqb c "<"
                                     || Ascii.eqb c nl)) (l +:+ NL)) as Hl.
  { intros l Hl%text_line_plain. split.
    - eapply str_all_impl; [| exact Hl]. by intros c ->.
    - destruct l as [|c l]; [done |]. cbn [str_all] in Hl.
      apply andb_true_iff in Hl as [Hc _]. cbn [String.append stops].
      by rewrite Hc. }
  lines_all; try done; try (by apply Hl).
  eapply Forall_impl; [apply (quote_lines_tags texts Htexts) |].
  intros l [Ha [r ->]]. done.
Qed.

Lemma quote_par_lines (x y : string) (texts : list string) :
  text_line x = true -> text_line y = true ->
  Forall (fun t => str_all plain t = true) texts ->
  par_line <$> ([x; ""] ++ quote_lines true texts ++ [""; y])
  = [wrapped x; ""] ++ quote_lines true texts ++ [""; wrapped y].
Proof.
  intros Hx Hy Htexts. rewrite !fmap_app. cbn [fmap list_fmap].
  rewrite (text_line_wrapped x), (text_line_wrapped y) by done.
  f_equal. f_equal. rewrite <- (list_fmap_id (quote_lines true texts)) at 2.
  apply Forall_fmap_ext.
  eapply Forall_impl; [apply (quote_lines_tags texts Htexts) |].
  by intros l [_ [r ->]].
Qed.

Lemma blockquote_rules fs (x y : string) (items : list (string * string))
    blobs :
  text_line x = true -> text_line y = true -> items <> [] ->
  Forall (fun it : string * string =>
            str_all (is_char " ") it.1 = true /\ 4 <= String.length it.1
            /\ it.2 <> "" /\ text_line it.2 = true) items ->
  apply_rules (rules fs)
    (NL +:+ unlines ([x; ""]
                     ++ ((fun it : string * string => it.1 +:+ it.2)
                         <$> items)
                     ++ [""; y])) blobs
  = Ok (NL +:+ unlines ([wrapped x; ""] ++ quote_lines true (snd <$> items)
                        ++ [""; wrapped y]), blobs).
Proof.
  intros Hx Hy Hne Hitems.
  pose proof (text_line_plain x Hx) as Hxp.
  pose proof (text_line_plain y Hy) as Hyp.
  assert (forall l, text_line l = true -> stops (is_char " ") (l +:+ NL))
    as Hstart.
  { intros l Hl. eapply stops_impl; [| apply (text_line_start l Hl)].
    apply by_ascii. by vm_compute. }
  assert (Forall (fun it : string * string =>
                    (str_all (is_char " ") it.1 = true
                     /\ 4 <= String.length it.1
                     /\ stops (is_char " ") (it.2 +:+ NL) /\ it.2 <> "")
                    /\ it.1 <> "" /\ str_all dot it.1 = true
                    /\ it.2 <> "" /\ str_all dot it.2 = true) items)
    as Hmark.
  { eapply Forall_impl; [exact Hitems |].
    intros [mk t] (Hmk & Hlen & Ht & Hp). cbn [fst snd] in *.
    split; [by auto |]. split; [destruct mk; [cbn in Hlen; lia | done] |].
    split; [| split; [done | by apply plain_no_newline, text_line_plain]].
    eapply str_all_impl; [| exact Hmk]. apply by_ascii. by vm_compute. }
  assert (Forall (fun t => str_all plain t = true) (snd <$> items))
    as Htexts.
  { apply Forall_fmap. eapply Forall_impl; [exact Hitems |].
    intros [mk t] (_ & _ & _ & Hp). by apply text_line_plain. }
  rewrite early_rules.
  2: { rewrite str_all_app. apply andb_true_intro. split; [done |].
       apply str_all_unlines; [done |]. lines_all; try done.
       - eapply str_all_impl; [| exact Hxp]. apply by_ascii. by vm_compute.
       - apply Forall_fmap. eapply Forall_impl; [exact Hitems |].
         intros [mk t] (Hmk & _ & _ & Hp%text_line_plain). unfold compose.
         cbn [fst snd] in *. rewrite str_all_app. apply andb_true_intro.
         split; (eapply str_all_impl; [| eassumption]; apply by_ascii;
                 by vm_compute).
       - eapply str_all_impl; [| exact Hyp]. apply by_ascii. by vm_compute. }
  unfold rules. cbn [skipn].
  erewrite apply_rules_step.
  2: { cbn [pattern replacement]. rewrite doc_of_block. unfold blockquote_re.
       apply (block_pass _ _ render_quote
                (fun mk t => str_all (is_char " ") mk = true
                             /\ 4 <= String.length mk
                             /\ stops (is_char " ") (t +:+ NL) /\ t <> ""));
         [ done
         | intros mk t Hmk; by apply blockquote_marker_reads
         | intros; apply blockquote_item
         | done | done
         | by apply plain_no_newline | by apply plain_no_newline
         | by apply Hstart | done | done ]. }
  rewrite out_of_quote by done.
  pose proof (quote_out_lines x y (snd <$> items) Hx Hy Htexts) as Hout.
  do 2 (rewrite apply_rules_none;
        [| cbn [pattern replacement];
           eapply (block_rule_idle _
                     (fun c => negb (plain c || Ascii.eqb c "<"
                                     || Ascii.eqb c nl))); [done | | ];
           [ by vm_compute
           | eapply Forall_impl; [exact Hout |]; intros l [Hl Hs];
             split; [| exact Hs]; eapply str_all_impl; [| exact Hl];
             apply by_ascii; by vm_compute ] ]).
  change (apply_rules ?rs ?d ?b) with (apply_rules (skipn 9 (rules fs)) d b).
  rewrite late_rules.
  - by rewrite quote_par_lines.
  - eapply Forall_impl; [exact Hout |].
    intros l [Hl Hs]. split; [done |].
    eapply stops_impl; [| exact Hs]. apply by_ascii. by vm_compute.
Qed.

(** X19. A paragraph line, an empty line, any number of lines indented by
    four spaces or more, an empty line and a last paragraph line are
    converted to the first paragraph, one [<blockquote>] element and the
    last paragraph.  The element holds the texts of the indented lines
    without their indentation, one on a line, each after the first
    preceded by [<br/>]; the indented lines get no paragraph element. *)
Theorem indented_lines_one_quote fs (x y : string)
    (items : list (string * string)) blobs0 :
  x <> "" -> text_line x = true -> y <> "" -> text_line y = true ->
  items <> [] ->
  Forall (fun it : string * string =>
            str_all (is_char " ") it.1 = true /\ 4 <= String.length it.1
            /\ it.2 <> "" /\ text_line it.2 = true) items ->
  run (markup fs
         (join NL ([x; ""]
                   ++ ((fun it : string * string => it.1 +:+ it.2)
                       <$> items)
                   ++ [""; y]))) blobs0
  = Ok (unlines (["<p>" +:+ x +:+ "</p>"; ""]
                 ++ quote_lines true (snd <$> items)
                 ++ [""; "<p>" +:+ y +:+ "</p>"])).
Proof.
  intros Hxne Hx Hyne Hy Hne Hitems. unfold run, markup, clear, bind.
  rewrite join_unlines by done. rewrite blockquote_rules by done.
  rewrite !wrapped_nonempty by done.
  assert (Forall (fun t => str_all plain t = true) (snd <$> items))
    as Htexts.
  { apply Forall_fmap. eapply Forall_impl; [exact Hitems |].
    intros [mk t] (_ & _ & _ & Hp). by apply text_line_plain. }
  rewrite (resolve_lines _ ("p>" +:+ x +:+ "</p>") ("<p>" +:+ y +:+ "</p"));
    [done | done | | ].
  - change [""; "<p>" +:+ y +:+ "</p>"]
      with ([""] ++ ["<p>" +:+ y +:+ "</p>"]).
    rewrite !app_assoc, last_snoc. f_equal. str_norm.
  - lines_all; try done.
    + rewrite !str_all_app. repeat (apply andb_true_intro; split);
        first [by apply plain_no_brace, text_line_plain | done].
    + eapply Forall_impl; [apply (quote_lines_tags _ Htexts) |].
      intros l [Hl _]. eapply str_all_impl; [| exact Hl].
      apply by_ascii. by vm_compute.
    + rewrite !str_all_app. repeat (apply andb_true_intro; split);
        first [by apply plain_no_brace, text_line_plain | done].
Qed.

Lemma indented_lines_one_quote_witness :
  run (markup no_files
         (join NL (["She said"; ""]
                   ++ ((fun it : string * string => it.1 +:+ it.2)
                       <$> [("    ", "first line"); ("      ", "second");
                            ("    ", "third")])
                   ++ [""; "and left."]))) []
  = Ok (unlines (["<p>" +:+ "She said" +:+ "</p>"; ""]
                 ++ quote_lines true
                      (snd <$> [("    ", "first line"); ("      ", "second");
                                ("    ", "third")])
                 ++ [""; "<p>" +:+ "and left." +:+ "</p>"])).
Proof.
  apply (indented_lines_one_quote no_files "She said" "and left."
           [("    ", "first line"); ("      ", "second"); ("    ", "third")]
           []);
    first [ discriminate | reflexivity
          | repeat first
              [ apply Forall_nil_2
              | apply Forall_cons_2;
                [ cbn [fst snd];
                  split; [reflexivity |];
                  split; [cbn; lia |];
                  split; [discriminate | reflexivity] |] ] ].
Defined.

(** ** Descriptions *)

(** A greedy repetition that has to give characters back. *)
Lemma rep_greedy_fail {A} p (k : string -> string -> option A)
    (e rst : string) :
  forall bef lo,
    stops p rst ->
    (forall e1 e2, e = e1 +:+ e2 -> k (rev_onto e1 bef) (e2 +:+ rst) = None) ->
    rep true p lo None k bef (e +:+ rst) = None.
Proof.
  induction e as [|c e IH]; intros bef lo Hs Hk.
  - cbn [String.append]. pose proof (Hk "" "" eq_refl) as H0.
    cbn [rev_onto String.append] in H0.
    destruct rst as [|c r]; cbn [rep].
    + by destruct lo.
    + cbn [stops] in Hs. rewrite Hs. cbn [andb]. by destruct lo.
  - cbn [String.append rep].
    pose proof (Hk "" (String c e) eq_refl) as H0.
    cbn [rev_onto String.append] in H0.
    destruct (p c); cbn [andb more_allowed fmap option_fmap option_map].
    + rewrite IH; [by destruct lo | done |].
      intros e1 e2 ->. apply (Hk (String c e1) e2). done.
    + by destruct lo.
Qed.

Lemma rep_greedy_back {A} p (k : string -> string -> option A) x
    (e rst : string) :
  forall m lo bef,
    str_all p m = true -> lo <= String.length m -> stops p rst ->
    (forall e1 e2, e = e1 +:+ e2 -> e1 <> "" ->
       k (rev_onto e1 (rev_onto m bef)) (e2 +:+ rst) = None) ->
    k (rev_onto m bef) (e +:+ rst) = Some x ->
    rep true p lo None k bef (m +:+ e +:+ rst) = Some x.
Proof.
  induction m as [|c m IH]; intros lo bef Hm Hlo Hs Hfail Hk.
  - cbn [String.length] in Hlo. assert (lo = 0) as -> by lia.
    cbn [String.append rev_onto] in *.
    destruct e as [|c e].
    + cbn [String.append] in *. destruct rst as [|c r]; cbn [rep].
      * done.
      * cbn [stops] in Hs. by rewrite Hs.
    + cbn [String.append rep]. destruct (p c); cbn [andb more_allowed fmap option_fmap option_map].
      * rewrite rep_greedy_fail; [done | done |].
        intros e1 e2 ->. apply (Hfail (String c e1) e2); done.
      * done.
  - cbn [str_all] in Hm. apply andb_true_iff in Hm as [Hc Hm].
    cbn [String.append rep]. rewrite Hc. cbn [andb more_allowed fmap option_fmap option_map].
    rewrite (IH (pred lo) (String c bef)); [done | done | | done | done | done].
    cbn [String.length] in Hlo. lia.
Qed.

Lemma description_match (bef term inner rest' : string) :
  term <> "" -> str_all (fun c => not_char nl c && not_char ":" c) term = true ->
  inner <> "" ->
  (forall m1 m2, inner = m1 +:+ m2 -> m1 <> "" -> m2 <> "" ->
     startswith (NL +:+ NL) (m2 +:+ NL +:+ NL +:+ rest') = false) ->
  match_at description_re (String nl bef)
    (term +:+ ":" +:+ NL +:+ "    " +:+ inner +:+ NL +:+ NL +:+ rest')
  = Some ([Some (term +:+ ":" +:+ NL +:+ "    " +:+ inner); Some term;
           Some inner], NL +:+ NL +:+ rest').
Proof.
  intros Hne Hterm Hine Hblank.
  assert (str_all (not_char nl) term = true) as Hnl.
  { eapply str_all_impl; [| exact Hterm]. by intros c [? _]%andb_true_iff. }
  apply (match_at_intro description_re _ _
           (MState (rev_onto (term +:+ ":" +:+ NL +:+ "    " +:+ inner)
                      (String nl bef))
              (NL +:+ NL +:+ rest') [None; Some term; Some inner])
           (term +:+ ":" +:+ NL +:+ "    " +:+ inner)).
  2: { cbn [rest]. by rewrite !str_app_assoc. }
  change (replicate (S (ngroups description_re)) None)
    with ([None; None; None] : list (option string)).
  unfold description_re, plus, plus_lazy.
  cbn [go unread rest before groups]. unfold Chr at 1.
  cbn [go rest before groups]. change (is_char nl nl) with true. cbn iota.
  change (":" +:+ NL +:+ "    " +:+ inner +:+ NL +:+ NL +:+ rest')
    with (":" +:+ (NL +:+ "    " +:+ inner +:+ NL +:+ NL +:+ rest')).
  apply rep_greedy_back; [done | by apply length_nonempty | done | |].
  - intros e1 e2 E He1.
    destruct e1 as [|c [|d e1]]; [done | | by destruct e1].
    cbn [String.append] in E. injection E as <- <-.
    unfold set_group, Chr. cbn [go rest before groups String.append].
    done.
  - unfold set_group. cbn [rest before groups]. rewrite consumed_app.
    unfold Chr at 1 2. cbn [go rest before groups NL String.append].
    change (is_char ":" ":") with true. change (is_char nl nl) with true.
    cbn iota. rewrite go_Lit.
    cbn [rest before groups startswith String.append Ascii.eqb Bool.eqb andb
         drop String.length rev_onto].
    apply rep_lazy_first; [apply anything_all | by apply length_nonempty | |].
    + intros m1 m2 -> Hm2 Hl.
      assert (m1 <> "") as Hm1 by (destruct m1; [cbn in Hl; lia | done]).
      pose proof (Hblank m1 m2 eq_refl Hm1 Hm2) as E.
      unfold Chr. cbn [go rest before groups].
      destruct (m2 +:+ String nl (String nl rest')) as [|a [|b r]] eqn:Em;
        [done | by destruct (is_char nl a) |].
      unfold NL in E. cbn [String.append] in E. rewrite Em in E.
      cbn [startswith] in E. unfold is_char.
      destruct (Ascii.eqb nl a); [| done]. cbn [andb] in E.
      rewrite andb_true_r in E. by rewrite E.
    + unfold Chr. cbn [go rest before groups String.append].
      change (is_char nl nl) with true. cbn iota.
      rewrite (consumed_eq _ _ inner) by reflexivity.
      cbn [list_insert].
      repeat first [ rewrite rev_onto_app
                   | progress cbn [rev_onto String.append] ].
      done.
Qed.

Lemma replace_line (old new d s : string) (c : ascii) :
  str_all (not_char c) d = true ->
  replace_from (String c old) new 0 (d +:+ s)
  = d +:+ replace_from (String c old) new 0 s.
Proof.
  induction d as [|x d IH]; [done |]. cbn [str_all]. intros [Hx Hd]%andb_true_iff.
  cbn [String.append replace_from startswith]. unfold not_char in Hx.
  apply negb_true_iff in Hx. rewrite Hx. cbn [andb]. by rewrite IH.
Qed.

Lemma replace_indent (ds : list string) :
  Forall (fun d => str_all (not_char nl) d = true) ds ->
  replace (NL +:+ "    ") NL (join (NL +:+ "    ") ds) = join NL ds.
Proof.
  unfold replace. induction 1 as [|d ds Hd _ IH]; [done |].
  destruct ds as [|d' ds].
  - cbn [join]. rewrite <- (str_app_nil_r d) at 1.
    unfold NL at 1. cbn [String.append]. rewrite replace_line by done.
    cbn [replace_from startswith]. by rewrite str_app_nil_r.
  - change (join ?sep (d :: d' :: ds))
      with (d +:+ sep +:+ join sep (d' :: ds)).
    unfold NL at 1. cbn [String.append]. rewrite replace_line by done.
    unfold NL in IH |- *.
    cbn [String.append replace_from startswith Ascii.eqb Bool.eqb andb
         String.length] in IH |- *.
    by rewrite IH.
Qed.

Lemma contains_line (w d s : string) (c : ascii) :
  str_all (not_char c) d = true ->
  contains (String c w) (d +:+ s) = contains (String c w) s.
Proof.
  induction d as [|x d IH]; [done |]. cbn [str_all]. intros [Hx Hd]%andb_true_iff.
  cbn [String.append contains startswith]. unfold not_char in Hx.
  apply negb_true_iff in Hx. rewrite Hx. cbn [andb orb]. by apply IH.
Qed.

Lemma indented_no_blank (ds : list string) :
  ds <> [] ->
  Forall (fun d => d <> "" /\ str_all (not_char nl) d = true) ds ->
  contains (NL +:+ NL) (join (NL +:+ "    ") ds +:+ NL) = false.
Proof.
  intros Hne H. induction H as [|d ds [Hd Hl] _ IH]; [done |].
  destruct ds as [|d' ds].
  - cbn [join]. unfold NL at 1. cbn [String.append].
    rewrite contains_line by done. done.
  - change (join ?sep (d :: d' :: ds))
      with (d +:+ sep +:+ join sep (d' :: ds)).
    rewrite !str_app_assoc. unfold NL at 1. cbn [String.append].
    rewrite contains_line by done.
    specialize (IH ltac:(done)). unfold NL in IH |- *.
    cbn [String.append contains startswith Ascii.eqb Bool.eqb andb orb]
      in IH |- *.
    rewrite IH. by vm_compute.
Qed.

Lemma blank_after (m2 rest' : string) :
  m2 <> "" ->
  startswith (NL +:+ NL) (m2 +:+ NL +:+ NL +:+ rest')
  = startswith (NL +:+ NL) (m2 +:+ NL).
Proof.
  intros Hm2. destruct m2 as [|c [|d m2]]; [done | |];
    cbn [NL String.append startswith]; by rewrite ?andb_true_r.
Qed.

Lemma description_output g0 (term inner : string) blobs :
  description [g0; Some term; Some inner] blobs
  = Ok ("<dt>" +:+ term +:+ "</dt>" +:+ NL +:+ "<dd>" +:+ NL
        +:+ replace (NL +:+ "    ") NL inner +:+ NL +:+ "</dd>", blobs).
Proof. reflexivity. Qed.

(** The description rule over a term line, its indented lines, an empty
    line and a last line. *)
Lemma description_pass (term y : string) (ds : list string) blobs :
  term <> "" -> str_all plain term = true ->
  ds <> [] ->
  Forall (fun d => d <> "" /\ str_all (not_char nl) d = true) ds ->
  str_all plain y = true ->
  sub description_re (Function description)
    (NL +:+ term +:+ ":" +:+ NL +:+ "    " +:+ join (NL +:+ "    ") ds
     +:+ NL +:+ NL +:+ y +:+ NL) blobs
  = Ok (NL +:+ "<dt>" +:+ term +:+ "</dt>" +:+ NL +:+ "<dd>" +:+ NL
        +:+ join NL ds +:+ NL +:+ "</dd>" +:+ NL +:+ NL +:+ y +:+ NL, blobs).
Proof.
  intros Hne Hterm Hds Hlines Hy. unfold sub.
  change (NL +:+ term +:+ ":" +:+ NL +:+ "    " +:+ join (NL +:+ "    ") ds
          +:+ NL +:+ NL +:+ y +:+ NL)
    with (String nl (term +:+ ":" +:+ NL +:+ "    "
                     +:+ join (NL +:+ "    ") ds +:+ NL +:+ NL +:+ y
                     +:+ NL)).
  assert (join (NL +:+ "    ") ds <> "") as Hinner.
  { destruct ds as [|d [|d' ds]]; [done | |].
    - apply Forall_cons in Hlines as [[Hd _] _]. done.
    - apply Forall_cons in Hlines as [[Hd _] _].
      change (join ?sep (d :: d' :: ds))
        with (d +:+ sep +:+ join sep (d' :: ds)). by destruct d. }
  eapply ok_eq.
  - eapply sub_from_step_ok; [reflexivity |].
    replace (term +:+ ":" +:+ NL +:+ "    " +:+ join (NL +:+ "    ") ds
             +:+ NL +:+ NL +:+ y +:+ NL)
      with ((term +:+ ":" +:+ NL +:+ "    " +:+ join (NL +:+ "    ") ds)
            +:+ NL +:+ NL +:+ y +:+ NL)
      by (by rewrite !str_app_assoc).
    eapply sub_from_match_ok.
    + by destruct term.
    + rewrite !str_app_assoc. apply description_match; [done | | done |].
      * eapply str_all_impl; [| exact Hterm]. apply by_ascii. by vm_compute.
      * intros m1 m2 E Hm1 Hm2. rewrite blank_after by done.
        apply (contains_split _ _ _ (indented_no_blank ds Hds Hlines)
                 m1 m2 E).
    + cbn [apply_repl]. rewrite description_output. reflexivity.
    + apply (sub_from_id_needs ":").
      rewrite !count_char_app, (count_char_absent plain ":" y Hy eq_refl).
      vm_compute. lia.
  - rewrite replace_indent.
    + str_norm.
    + eapply Forall_impl; [exact Hlines |]. by intros d [_ ?].
Qed.

Lemma unlines_indented (ds : list string) :
  ds <> [] ->
  unlines ((fun d => "    " +:+ d) <$> ds)
  = "    " +:+ join (NL +:+ "    ") ds +:+ NL.
Proof.
  induction ds as [|d ds IH]; [done |]. intros _.
  destruct ds as [|d' ds].
  - cbn [fmap list_fmap unlines join]. str_norm.
  - rewrite fmap_cons.
    change (join ?sep (d :: d' :: ds))
      with (d +:+ sep +:+ join sep (d' :: ds)).
    change (unlines (?a :: ?l)) with (a +:+ NL +:+ unlines l).
    rewrite IH by done. str_norm.
Qed.

Lemma text_line_first (l : string) :
  text_line l = true ->
  stops (fun c => negb (plain c && negb (Ascii.eqb c " ")
                        || Ascii.eqb c "<" || Ascii.eqb c nl)) (l +:+ NL).
Proof.
  unfold text_line. intros [Hp Hs]%andb_true_iff.
  destruct l as [|c l]; [done |].
  cbn [str_all startswith] in *. apply andb_true_iff in Hp as [Hc _].
  rewrite andb_true_r in Hs. cbn [String.append stops].
  apply negb_true_iff in Hs. rewrite Ascii.eqb_sym in Hs.
  by rewrite Hc, Hs.
Qed.

Lemma description_rules fs (term y : string) (ds : list string) blobs :
  term <> "" -> str_all plain term = true ->
  ds <> [] -> Forall (fun d => d <> "" /\ text_line d = true) ds ->
  text_line y = true ->
  apply_rules (rules fs)
    (NL +:+ unlines ([term +:+ ":"] ++ ((fun d => "    " +:+ d) <$> ds)
                     ++ [""; y])) blobs
  = Ok (NL +:+ unlines (["<dt>" +:+ term +:+ "</dt>"; "<dd>"]
                        ++ (wrapped <$> ds) ++ ["</dd>"; ""; wrapped y]),
        blobs).
Proof.
  intros Hne Hterm Hds Hlines Hy.
  pose proof (text_line_plain y Hy) as Hyp.
  assert (Forall (fun d => str_all plain d = true) ds) as Hplain.
  { eapply Forall_impl; [exact Hlines |]. intros d [_ ?].
    by apply text_line_plain. }
  assert (forall l, str_all plain l = true ->
            str_all (fun c => plain c || one_of "<>" c) l = true) as Hp.
  { intros l Hl. eapply str_all_impl; [| exact Hl]. by intros c ->. }
  assert (str_all (fun c => plain c || Ascii.eqb c ":" || Ascii.eqb c nl)
            (NL +:+ unlines ([term +:+ ":"]
                             ++ ((fun d => "    " +:+ d) <$> ds)
                             ++ [""; y])) = true) as Hdoc.
  { rewrite str_all_app. apply andb_true_intro. split; [done |].
    apply str_all_unlines; [done |]. lines_all; try done.
    - rewrite str_all_app. apply andb_true_intro. split; [| done].
      eapply str_all_impl; [| exact Hterm]. by intros c ->.
    - apply Forall_fmap. eapply Forall_impl; [exact Hplain |].
      intros d Hd. unfold compose. rewrite str_all_app.
      apply andb_true_intro. split; [done |].
      eapply str_all_impl; [| exact Hd]. by intros c ->.
    - eapply str_all_impl; [| exact Hyp]. by intros c ->. }
  unfold rules.
  skip_absent Hdoc "`"%char. do 4 skip_absent Hdoc "<"%char.
  erewrite apply_rules_step.
  2: { cbn [pattern replacement].
       replace (NL +:+ unlines ([term +:+ ":"]
                                ++ ((fun d => "    " +:+ d) <$> ds)
                                ++ [""; y]))
         with (NL +:+ term +:+ ":" +:+ NL +:+ "    "
               +:+ join (NL +:+ "    ") ds +:+ NL +:+ NL +:+ y +:+ NL).
       - apply description_pass; [done | done | done | | done].
         eapply Forall_impl; [exact Hlines |]. intros d [? Hd]. split; [done |].
         by apply plain_no_newline, text_line_plain.
       - rewrite !unlines_app, unlines_indented by done. cbn [unlines].
         str_norm. }
  replace (NL +:+ "<dt>" +:+ term +:+ "</dt>" +:+ NL +:+ "<dd>" +:+ NL
           +:+ join NL ds +:+ NL +:+ "</dd>" +:+ NL +:+ NL +:+ y +:+ NL)
    with (NL +:+ unlines (["<dt>" +:+ term +:+ "</dt>"; "<dd>"] ++ ds
                          ++ ["</dd>"; ""; y])).
  2: { rewrite !unlines_app, <- (join_unlines ds) by done. cbn [unlines].
       str_norm. }
  assert (Forall (fun l => str_all (fun c => plain c || one_of "<>" c) l
                           = true
                   /\ stops (fun c => negb (plain c && negb (Ascii.eqb c " ")
                                            || Ascii.eqb c "<"
                                            || Ascii.eqb c nl)) (l +:+ NL))
            (["<dt>" +:+ term +:+ "</dt>"; "<dd>"] ++ ds
             ++ ["</dd>"; ""; y])) as Hout.
  { lines_all; try done.
    - split; [| done]. by rewrite !str_all_app, (Hp term Hterm).
    - eapply Forall_impl; [exact Hlines |]. intros d [_ Hd].
      split; [by apply Hp, text_line_plain | by apply text_line_first].
    - split; [by apply Hp | by apply text_line_first]. }
  do 3 (rewrite apply_rules_none;
        [| cbn [pattern replacement];
           eapply (block_rule_idle _
                     (fun c => negb (plain c && negb (Ascii.eqb c " ")
                                     || Ascii.eqb c "<" || Ascii.eqb c nl)));
           [ done | by vm_compute
           | eapply Forall_impl; [exact Hout |]; intros l [Hl Hs];
             split; [| exact Hs]; eapply str_all_impl; [| exact Hl];
             apply by_ascii; by vm_compute ] ]).
  change (apply_rules ?rs ?d ?b) with (apply_rules (skipn 9 (rules fs)) d b).
  rewrite late_rules.
  - assert (par_line <$> ds = wrapped <$> ds) as E.
    { apply Forall_fmap_ext. eapply Forall_impl; [exact Hlines |].
      intros d [_ Hd]. by apply text_line_wrapped. }
    rewrite !fmap_app, E. cbn [fmap list_fmap].
    by rewrite (text_line_wrapped y).
  - eapply Forall_impl; [exact Hout |].
    intros l [Hl Hs]. split; [done |].
    eapply stops_impl; [| exact Hs]. apply by_ascii. by vm_compute.
Qed.

(** X20. A line made of a term of ordinary characters and a colon, followed
    by one or more lines indented by exactly four spaces, an empty line and
    a last paragraph line, is converted to a [<dt>] element with the term
    and a [<dd>] element on lines of their own around the indented lines,
    which lose their indentation and become one paragraph each; no [<dl>]
    element is written around them. *)
Theorem description_rendered fs (term y : string) (ds : list string) blobs0 :
  term <> "" -> str_all plain term = true ->
  ds <> [] -> Forall (fun d => d <> "" /\ text_line d = true) ds ->
  y <> "" -> text_line y = true ->
  run (markup fs
         (join NL ([term +:+ ":"] ++ ((fun d => "    " +:+ d) <$> ds)
                   ++ [""; y]))) blobs0
  = Ok (unlines (["<dt>" +:+ term +:+ "</dt>"; "<dd>"]
                 ++ ((fun d => "<p>" +:+ d +:+ "</p>") <$> ds)
                 ++ ["</dd>"; ""; "<p>" +:+ y +:+ "</p>"])).
Proof.
  intros Hne Hterm Hds Hlines Hyne Hy. unfold run, markup, clear, bind.
  rewrite join_unlines by done. rewrite description_rules by done.
  rewrite (wrapped_nonempty y) by done.
  replace (wrapped <$> ds) with ((fun d => "<p>" +:+ d +:+ "</p>") <$> ds).
  2: { apply Forall_fmap_ext. eapply Forall_impl; [exact Hlines |].
       intros d [Hd _]. by rewrite wrapped_nonempty. }
  rewrite (resolve_lines _ ("dt>" +:+ term +:+ "</dt>")
             ("<p>" +:+ y +:+ "</p"));
    [done | done | | ].
  - change ["</dd>"; ""; "<p>" +:+ y +:+ "</p>"]
      with (["</dd>"; ""] ++ ["<p>" +:+ y +:+ "</p>"]).
    rewrite !app_assoc, last_snoc. f_equal. str_norm.
  - lines_all; try done.
    + rewrite !str_all_app. repeat (apply andb_true_intro; split);
        first [by apply plain_no_brace | done].
    + apply Forall_fmap. eapply Forall_impl; [exact Hlines |].
      intros d [_ Hd%text_line_plain]. unfold compose.
      rewrite !str_all_app. repeat (apply andb_true_intro; split);
        first [by apply plain_no_brace | done].
    + rewrite !str_all_app. repeat (apply andb_true_intro; split);
        first [by apply plain_no_brace, text_line_plain | done].
Qed.

Lemma description_rendered_witness :
  run (markup no_files
         (join NL (["Tea" +:+ ":"]
                   ++ ((fun d => "    " +:+ d)
                       <$> ["a hot drink"; "made from leaves"])
                   ++ [""; "More later."]))) []
  = Ok (unlines (["<dt>" +:+ "Tea" +:+ "</dt>"; "<dd>"]
                 ++ ((fun d => "<p>" +:+ d +:+ "</p>")
                     <$> ["a hot drink"; "made from leaves"])
                 ++ ["</dd>"; ""; "<p>" +:+ "More later." +:+ "</p>"])).
Proof.
  apply (description_rendered no_files "Tea" "More later."
           ["a hot drink"; "made from leaves"] []);
    first [ discriminate | reflexivity
          | repeat first
              [ apply Forall_nil_2
              | apply Forall_cons_2;
                [ split; [discriminate | reflexivity] |] ] ].
Defined.

(** ** Dates *)

(** A repetition of exactly as many characters as the text at hand has. *)
Lemma rep_exact {A} p (k : string -> string -> option A) (rst : string) :
  forall m bef,
    str_all p m = true ->
    rep true p (String.length m) (Some (String.length m)) k bef (m +:+ rst)
    = k (rev_onto m bef) rst.
Proof.
  induction m as [|c m IH]; intros bef Hm.
  - cbn [String.length String.append rev_onto].
    destruct rst as [|c s]; cbn [rep more_allowed]; [done |].
    by rewrite andb_false_r.
  - cbn [str_all] in Hm. apply andb_true_iff in Hm as [Hc Hm].
    cbn [String.length String.append rev_onto rep]. rewrite Hc.
    cbn [more_allowed andb pred fmap option_fmap option_map].
    rewrite IH by done. by destruct (k _ _).
Qed.

Lemma rep_exactly {A} p (k : string -> string -> option A) (n : nat)
    (m bef rst : string) :
  String.length m = n -> str_all p m = true ->
  rep true p n (Some n) k bef (m +:+ rst) = k (rev_onto m bef) rst.
Proof. intros <-. apply rep_exact. Qed.

Lemma date_go (c : ascii) (bef y m d rst : string) g
    (k : mstate -> option mstate) :
  String.length y = 4 -> str_all is_digit y = true ->
  String.length m = 2 -> str_all is_digit m = true ->
  String.length d = 2 -> str_all is_digit d = true ->
  go (exactly 4 is_digit · Chr "/" · exactly 2 is_digit · Chr "/"
      · exactly 2 is_digit)%re
    (MState bef (y +:+ "/" +:+ m +:+ "/" +:+ d +:+ rst) g) k
  = k (MState (rev_onto (y +:+ "/" +:+ m +:+ "/" +:+ d) bef) rst g).
Proof.
  intros Hy Hyd Hm Hmd Hd Hdd. unfold exactly, Chr.
  cbn [go rest before groups].
  rewrite (rep_exactly _ _ 4 y) by done. cbn [String.append].
  change (is_char "/" "/") with true. cbn iota.
  rewrite (rep_exactly _ _ 2 m) by done. cbn [String.append].
  change (is_char "/" "/") with true. cbn iota.
  rewrite (rep_exactly _ _ 2 d) by done.
  repeat first [ rewrite rev_onto_app
               | progress cbn [rev_onto String.append] ].
  done.
Qed.

Lemma date_match (c s : ascii) (bef y m d rest' : string) :
  is_space c || is_char ">" c = true -> is_space s = true ->
  String.length y = 4 -> str_all is_digit y = true ->
  String.length m = 2 -> str_all is_digit m = true ->
  String.length d = 2 -> str_all is_digit d = true ->
  match_at date_re (String c bef)
    (y +:+ "/" +:+ m +:+ "/" +:+ d +:+ String s rest')
  = Some ([Some (y +:+ "/" +:+ m +:+ "/" +:+ d);
           Some (y +:+ "/" +:+ m +:+ "/" +:+ d)], String s rest').
Proof.
  intros Hc Hs Hy Hyd Hm Hmd Hd Hdd.
  apply (match_at_intro date_re _ _
           (MState (rev_onto (y +:+ "/" +:+ m +:+ "/" +:+ d) (String c bef))
              (String s rest')
              [None; Some (y +:+ "/" +:+ m +:+ "/" +:+ d)])
           (y +:+ "/" +:+ m +:+ "/" +:+ d)).
  2: { cbn [rest]. by rewrite !str_app_assoc. }
  change (replicate (S (ngroups date_re)) None)
    with ([None; None] : list (option string)).
  unfold date_re.
  set (body := (exactly 4 is_digit · Chr "/" · exactly 2 is_digit · Chr "/"
                · exactly 2 is_digit)%re).
  cbn [go unread rest before groups]. rewrite Hc. subst body.
  rewrite date_go by done. unfold set_group. cbn [go rest before groups].
  rewrite Hs. rewrite (consumed_eq _ _ (y +:+ "/" +:+ m +:+ "/" +:+ d)).
  - done.
  - cbn [rest]. by rewrite !str_app_assoc.
Qed.

(** The same pattern in front of a character that is no whitespace. *)
Lemma date_miss (s : ascii) (bef y m d rest' : string) :
  is_space s = false ->
  String.length y = 4 -> str_all is_digit y = true ->
  String.length m = 2 -> str_all is_digit m = true ->
  String.length d = 2 -> str_all is_digit d = true ->
  match_at date_re bef (y +:+ "/" +:+ m +:+ "/" +:+ d +:+ String s rest')
  = None.
Proof.
  intros Hs Hy Hyd Hm Hmd Hd Hdd. unfold match_at, date_re.
  set (body := (exactly 4 is_digit · Chr "/" · exactly 2 is_digit · Chr "/"
                · exactly 2 is_digit)%re).
  cbn [go rest before groups].
  destruct (unread 1 bef _) as [[b0 s0]|]; [| done].
  destruct s0 as [|c0 s0]; [done |].
  destruct (is_space c0 || is_char ">" c0); [| done].
  cbn [rest before groups]. subst body. rewrite date_go by done.
  unfold set_group. cbn [go rest before groups]. by rewrite Hs.
Qed.

Lemma date_rules fs (pre y m d post : string) blobs :
  str_all plain pre = true -> str_all plain post = true ->
  String.length y = 4 -> str_all is_digit y = true ->
  String.length m = 2 -> str_all is_digit m = true ->
  String.length d = 2 -> str_all is_digit d = true ->
  apply_rules (rules fs)
    (NL +:+ (pre +:+ " " +:+ y +:+ "/" +:+ m +:+ "/" +:+ d +:+ " " +:+ post)
     +:+ NL) blobs
  = Ok (NL +:+ "<p>" +:+ pre +:+ " " +:+ "<span class=" +:+ DQ +:+ "date"
        +:+ DQ +:+ ">" +:+ y +:+ "/" +:+ m +:+ "/" +:+ d +:+ "</span>"
        +:+ " " +:+ post +:+ "</p>" +:+ NL, blobs).
Proof.
  intros Hpre Hpost Hy Hyd Hm Hmd Hd Hdd.
  unfold rules. do 15 idle_pass.
  erewrite apply_rules_step.
  2: { cbn [pattern replacement]. apply paragraph_pass_one_line;
         [ intros E; apply (f_equal String.length) in E;
           rewrite ?str_length_app in E; cbn in E; lia
         | all_parts
         | by apply startswith_any_plain ]. }
  do 5 idle_pass.
  erewrite apply_rules_step.
  2: { pass_at (y +:+ "/" +:+ m +:+ "/" +:+ d) (" " +:+ post +:+ "</p>" +:+ NL)
         ltac:(idtac; rewrite !str_app_assoc; apply date_match; done)
         ltac:(vm_compute; reflexivity).
       str_norm. }
  do 3 idle_pass. finish_rules.
Qed.

Lemma startswith_any_digit (y t : string) :
  y <> "" -> str_all is_digit y = true ->
  startswith_any ["<"; "{"] (y +:+ t) = false.
Proof.
  intros Hne Hy. destruct y as [|c y]; [done |]. clear Hne.
  cbn [str_all] in Hy. apply andb_true_iff in Hy as [Hc _].
  pose proof (by_ascii is_digit
    (fun c => negb (Ascii.eqb "<" c) && negb (Ascii.eqb "{" c))
    ltac:(vm_compute; reflexivity) c Hc) as H.
  apply andb_true_iff in H as [H1%negb_true_iff H2%negb_true_iff].
  cbn [String.append startswith_any existsb startswith]. by rewrite H1, H2.
Qed.

Lemma date_first_rules fs (y m d post : string) blobs :
  str_all plain post = true ->
  String.length y = 4 -> str_all is_digit y = true ->
  String.length m = 2 -> str_all is_digit m = true ->
  String.length d = 2 -> str_all is_digit d = true ->
  apply_rules (rules fs)
    (NL +:+ (y +:+ "/" +:+ m +:+ "/" +:+ d +:+ " " +:+ post) +:+ NL) blobs
  = Ok (NL +:+ "<p>" +:+ "<span class=" +:+ DQ +:+ "date" +:+ DQ +:+ ">"
        +:+ y +:+ "/" +:+ m +:+ "/" +:+ d +:+ "</span>" +:+ " " +:+ post
        +:+ "</p>" +:+ NL, blobs).
Proof.
  intros Hpost Hy Hyd Hm Hmd Hd Hdd.
  assert (y <> "") as Hyne by (by destruct y).
  unfold rules. do 15 idle_pass.
  erewrite apply_rules_step.
  2: { cbn [pattern replacement]. apply paragraph_pass_one_line;
         [ intros E; apply (f_equal String.length) in E;
           rewrite ?str_length_app in E; cbn in E; lia
         | all_parts
         | by apply startswith_any_digit ]. }
  do 5 idle_pass.
  erewrite apply_rules_step.
  2: { pass_at (y +:+ "/" +:+ m +:+ "/" +:+ d) (" " +:+ post +:+ "</p>" +:+ NL)
         ltac:(idtac; rewrite !str_app_assoc; apply date_match; done)
         ltac:(vm_compute; reflexivity).
       str_norm. }
  do 3 idle_pass. finish_rules.
Qed.

Lemma date_last_rules fs (pre y m d : string) blobs :
  str_all plain pre = true ->
  String.length y = 4 -> str_all is_digit y = true ->
  String.length m = 2 -> str_all is_digit m = true ->
  String.length d = 2 -> str_all is_digit d = true ->
  apply_rules (rules fs)
    (NL +:+ (pre +:+ " " +:+ y +:+ "/" +:+ m +:+ "/" +:+ d) +:+ NL) blobs
  = Ok (NL +:+ "<p>" +:+ pre +:+ " " +:+ y +:+ "/" +:+ m +:+ "/" +:+ d
        +:+ "</p>" +:+ NL, blobs).
Proof.
  intros Hpre Hy Hyd Hm Hmd Hd Hdd.
  unfold rules. do 15 idle_pass.
  erewrite apply_rules_step.
  2: { cbn [pattern replacement]. apply paragraph_pass_one_line;
         [ intros E; apply (f_equal String.length) in E;
           rewrite ?str_length_app in E; cbn in E; lia
         | all_parts
         | by apply startswith_any_plain ]. }
  do 5 idle_pass.
  rewrite apply_rules_none.
  2: { cbn [pattern replacement]. flat_form. eapply ok_eq; [| str_norm].
       stride.
       destruct y as [|c y]; [done |]. cbn [str_all] in Hyd.
       apply andb_true_iff in Hyd as [Hc Hyd]. cbn [String.append].
       eapply sub_from_step_ok.
       { change (String c (y +:+ String "/" (m +:+ String "/"
                   (d +:+ String "<" (String "/" (String "p" (String ">"
                      (String nl ""))))))))
           with (String c y +:+ "/" +:+ m +:+ "/" +:+ d
                 +:+ String "<" "/p>" +:+ NL).
         apply date_miss; try done. cbn [str_all]. by rewrite Hc. }
       replace (y +:+ String "/" (m +:+ String "/"
                  (d +:+ String "<" (String "/" (String "p" (String ">"
                     (String nl "")))))))
         with ((y +:+ "/" +:+ m +:+ "/" +:+ d) +:+ "</p>" +:+ NL)
         by str_norm.
       eapply sub_from_guard_ok.
       - pose proof (by_ascii is_digit (fun c => negb (guard date_re c))
                       ltac:(by vm_compute) c Hc) as Hg.
         by apply negb_true_iff in Hg.
       - all_parts.
       - cbv beta delta [NL]. cbn [String.append]. stride. }
  do 3 idle_pass. finish_rules.
Qed.

(** X21. In a line of ordinary characters a date of four, two and two
    digits separated by slashes is wrapped in a [<span class="date">]
    element when it stands between two spaces, or at the start of the line
    in front of a space (the rule looks behind and finds the end of the
    paragraph tag).  At the end of the line it is left as it is: the rule
    looks ahead for whitespace and finds the closing tag the paragraph rule
    has put there. *)
Theorem date_rendered fs (pre y m d post : string) blobs0 :
  str_all plain pre = true -> str_all plain post = true ->
  String.length y = 4 -> str_all is_digit y = true ->
  String.length m = 2 -> str_all is_digit m = true ->
  String.length d = 2 -> str_all is_digit d = true ->
  run (markup fs (pre +:+ " " +:+ y +:+ "/" +:+ m +:+ "/" +:+ d +:+ " "
                  +:+ post)) blobs0
  = Ok ("<p>" +:+ pre +:+ " " +:+ "<span class=" +:+ DQ +:+ "date" +:+ DQ
        +:+ ">" +:+ y +:+ "/" +:+ m +:+ "/" +:+ d +:+ "</span>" +:+ " "
        +:+ post +:+ "</p>" +:+ NL)
  /\ run (markup fs (y +:+ "/" +:+ m +:+ "/" +:+ d +:+ " " +:+ post)) blobs0
     = Ok ("<p>" +:+ "<span class=" +:+ DQ +:+ "date" +:+ DQ +:+ ">" +:+ y
           +:+ "/" +:+ m +:+ "/" +:+ d +:+ "</span>" +:+ " " +:+ post
           +:+ "</p>" +:+ NL)
  /\ run (markup fs (pre +:+ " " +:+ y +:+ "/" +:+ m +:+ "/" +:+ d)) blobs0
     = Ok ("<p>" +:+ pre +:+ " " +:+ y +:+ "/" +:+ m +:+ "/" +:+ d +:+ "</p>"
           +:+ NL).
Proof.
  intros Hpre Hpost Hy Hyd Hm Hmd Hd Hdd. repeat split.
  - through_markup date_rules resolve_paragraph
      (pre +:+ " " +:+ "<span class=" +:+ DQ +:+ "date" +:+ DQ +:+ ">" +:+ y
       +:+ "/" +:+ m +:+ "/" +:+ d +:+ "</span>" +:+ " " +:+ post).
  - through_markup date_first_rules resolve_paragraph
      ("<span class=" +:+ DQ +:+ "date" +:+ DQ +:+ ">" +:+ y +:+ "/" +:+ m
       +:+ "/" +:+ d +:+ "</span>" +:+ " " +:+ post).
  - through_markup date_last_rules resolve_paragraph
      (pre +:+ " " +:+ y +:+ "/" +:+ m +:+ "/" +:+ d).
Qed.

Lemma date_rendered_witness :
  run (markup no_files ("Seen on" +:+ " " +:+ "2020" +:+ "/" +:+ "01" +:+ "/"
                        +:+ "31" +:+ " " +:+ "at noon")) []
  = Ok ("<p>" +:+ "Seen on" +:+ " " +:+ "<span class=" +:+ DQ +:+ "date"
        +:+ DQ +:+ ">" +:+ "2020" +:+ "/" +:+ "01" +:+ "/" +:+ "31"
        +:+ "</span>" +:+ " " +:+ "at noon" +:+ "</p>" +:+ NL)
  /\ run (markup no_files ("2020" +:+ "/" +:+ "01" +:+ "/" +:+ "31" +:+ " "
                           +:+ "at noon")) []
     = Ok ("<p>" +:+ "<span class=" +:+ DQ +:+ "date" +:+ DQ +:+ ">"
           +:+ "2020" +:+ "/" +:+ "01" +:+ "/" +:+ "31" +:+ "</span>" +:+ " "
           +:+ "at noon" +:+ "</p>" +:+ NL)
  /\ run (markup no_files ("Seen on" +:+ " " +:+ "2020" +:+ "/" +:+ "01"
                           +:+ "/" +:+ "31")) []
     = Ok ("<p>" +:+ "Seen on" +:+ " " +:+ "2020" +:+ "/" +:+ "01" +:+ "/"
           +:+ "31" +:+ "</p>" +:+ NL).
Proof.
  apply (date_rendered no_files "Seen on" "2020" "01" "31" "at noon" []);
    reflexivity.
Defined.

(** ** Thematic breaks *)

(** A line of hyphens is no list item: the marker wants a space after the
    first hyphen. *)
Lemma unordered_miss (bef rst : string) :
  match_at unordered_re bef (String nl (String "-" (String "-" rst))) = None.
Proof.
  unfold match_at, unordered_re, block_line_re.
  cbn [go before rest groups].
  destruct (unread 1 bef _) as [[b s]|]; [| done].
  destruct (go (any_as 1) _ Some) as [st1|]; [| done].
  unfold Chr. cbn [go rest before groups]. done.
Qed.

Lemma thematic_match (bef rest' : string) :
  match_at thematic_break_re (String nl bef) ("---" +:+ String nl rest')
  = Some ([Some "---"], String nl rest').
Proof.
  apply (match_at_intro thematic_break_re _ _
           (MState (rev_onto "---" (String nl bef)) (String nl rest') [None])
           "---"); [| done].
  reflexivity.
Qed.

Lemma thematic_rules fs (x y : string) blobs :
  x <> "" -> str_all plain x = true -> y <> "" -> str_all plain y = true ->
  apply_rules (rules fs) (NL +:+ (x +:+ NL +:+ "---" +:+ NL +:+ y) +:+ NL)
    blobs
  = Ok (NL +:+ "<p>" +:+ x +:+ "</p>" +:+ NL +:+ "<hr/>" +:+ NL +:+ "<p>"
        +:+ y +:+ "</p>" +:+ NL, blobs).
Proof.
  intros Hxne Hx Hyne Hy. unfold rules. do 7 idle_pass.
  rewrite apply_rules_none.
  2: { cbn [pattern replacement]. flat_form. eapply ok_eq; [| str_norm].
       stride. eapply sub_from_step_ok; [apply unordered_miss |]. stride. }
  do 4 idle_pass.
  erewrite apply_rules_step.
  2: { pass_at "---" (NL +:+ y +:+ NL)
         ltac:(idtac; apply thematic_match)
         ltac:(vm_compute; reflexivity).
       str_norm. }
  do 2 idle_pass.
  erewrite apply_rules_step.
  2: { cbn [pattern replacement].
       match goal with
       | |- sub _ _ ?d _ = _ =>
           replace d with (NL +:+ unlines [x; "<hr/>"; y])
             by (cbn [unlines]; str_norm)
       end.
       apply paragraph_pass.
       repeat (apply Forall_cons_2); try apply Forall_nil_2;
         first [by apply plain_no_newline | done]. }
  cbn [fmap list_fmap unlines].
  rewrite (par_line_whole x), (par_line_whole y) by done.
  change (par_line "<hr/>") with "<hr/>".
  do 9 idle_pass. finish_rules.
Qed.

(** X22. A line of exactly three hyphens between two lines of ordinary
    characters is rendered as a thematic break on a line of its own, with
    no paragraph element around it, between the two paragraphs; it is
    neither a list item nor turned into dashes. *)
Theorem thematic_break_rendered fs (x y : string) blobs0 :
  x <> "" -> str_all plain x = true -> y <> "" -> str_all plain y = true ->
  run (markup fs (x +:+ NL +:+ "---" +:+ NL +:+ y)) blobs0
  = Ok ("<p>" +:+ x +:+ "</p>" +:+ NL +:+ "<hr/>" +:+ NL +:+ "<p>" +:+ y
        +:+ "</p>" +:+ NL).
Proof.
  intros Hxne Hx Hyne Hy.
  through_markup thematic_rules resolve_paragraph
    (x +:+ "</p>" +:+ NL +:+ "<hr/>" +:+ NL +:+ "<p>" +:+ y).
Qed.

Lemma thematic_break_rendered_witness :
  run (markup no_files ("Part one" +:+ NL +:+ "---" +:+ NL +:+ "Part two")) []
  = Ok ("<p>" +:+ "Part one" +:+ "</p>" +:+ NL +:+ "<hr/>" +:+ NL +:+ "<p>"
        +:+ "Part two" +:+ "</p>" +:+ NL).
Proof.
  apply (thematic_break_rendered no_files "Part one" "Part two" []);
    first [discriminate | reflexivity].
Defined.
